(** * GeoRhythm: player physics, AABB collision and the physics tick

    A shallow embedding of the framework-agnostic core of GeoRhythm
    ([core/collision/AABB.ts], [core/collision/CollisionDetector.ts],
    [core/physics/types.ts], [core/physics/constants.ts],
    [core/physics/modes/{Cube,Ship,Ball}Mode.ts]), of the physics part
    of [engine/objects/Player.ts], of [utils/math.ts], of
    [services/CheckpointManager.ts] and of the portal and checkpoint
    triggers of [engine/scenes/GameScene.ts].

    Modelling conventions.
    - A TypeScript [number] is an exact rational ([Q]).  Rounding, NaN and
      the infinities of IEEE doubles are outside the model; every
      denominator the code divides by is a non-zero constant.  Where
      rounding could decide the outcome, a theorem over [Q] speaks of
      the values the code itself computes (the same expressions and
      comparisons), or is restricted to inputs on which the arithmetic
      is exact; [AABB64] evaluates the collision code on the binary64
      numbers of the running program.
    - Objects that the code mutates in place ([PhysicsState], the [Player]
      fields) are records threaded through the functions: a method
      [m(state, ...): void] becomes [m state ... : PhysicsState].
    - Phaser rendering calls (sprites, visibility, tweens) have no effect
      on the physics state and are left out; [emit] calls and the
      mode life-cycle calls are recorded in a trace carried by [Player]. *)

From Stdlib Require Import QArith Qabs Qround Lqa Lia ZArith Bool List.
From Stdlib Require String.
From Stdlib Require PrimFloat.
Import ListNotations.
Open Scope Q_scope.
Set Warnings "-inexact-float".

(** ** JavaScript arithmetic on numbers *)

Module JS.

(** [a < b], [a <= b], [a > b], [a >= b], [a !== b] as booleans. *)
Definition lt (a b : Q) : bool := negb (Qle_bool b a).
Definition le (a b : Q) : bool := Qle_bool a b.
Definition gt (a b : Q) : bool := lt b a.
Definition ge (a b : Q) : bool := le b a.
Definition neq (a b : Q) : bool := negb (Qeq_bool a b).

(** [Math.max], [Math.min], [Math.abs]. *)
Definition Math_max (a b : Q) : Q := if lt a b then b else a.
Definition Math_min (a b : Q) : Q := if lt b a then b else a.
Definition Math_abs (a : Q) : Q := Qabs a.

(** [Math.round]: nearest integer, halves towards +infinity. *)
Definition Math_round (a : Q) : Q := inject_Z (Qfloor (a + 0.5)).

(** Integer part, rounding towards zero. *)
Definition trunc (a : Q) : Z := Z.quot (Qnum a) (Zpos (Qden a)).

(** The remainder operator [a % b]: the result has the sign of [a]. *)
Definition rem (a b : Q) : Q := a - b * inject_Z (trunc (a / b)).

(** [Math.PI]: the double nearest to pi, as the exact rational it denotes. *)
Definition Math_PI : Q := 884279719003555 # 281474976710656.

End JS.

Infix "<?" := JS.lt (at level 70, no associativity) : Q_scope.
Infix "<=?" := JS.le (at level 70, no associativity) : Q_scope.
Infix ">?" := JS.gt (at level 70, no associativity) : Q_scope.
Infix ">=?" := JS.ge (at level 70, no associativity) : Q_scope.
Infix "!==?" := JS.neq (at level 70, no associativity) : Q_scope.

(** ** core/physics/types.ts: Vector2 *)

Module Vector2.
Record t : Set := mk { x : Q; y : Q }.
End Vector2.

(** ** core/collision/AABB.ts *)

Module AABB.

(** [interface AABB]: left edge, top edge, width, height. *)
Record t : Set := mk { x : Q; y : Q; width : Q; height : Q }.

(** [interface CollisionResult]. *)
Record CollisionResult : Set := mkResult {
  colliding : bool;
  overlapX : Q;
  overlapY : Q;
  normal : Vector2.t
}.

Definition checkAABBOverlap (a b : t) : bool :=
  (x a <? x b + width b) && (x a + width a >? x b)
  && (y a <? y b + height b) && (y a + height a >? y b).

Definition getAABBCollision (a b : t) : CollisionResult :=
  (* Calculate centers *)
  let aCenterX := x a + width a / 2 in
  let aCenterY := y a + height a / 2 in
  let bCenterX := x b + width b / 2 in
  let bCenterY := y b + height b / 2 in
  (* Calculate half extents *)
  let aHalfWidth := width a / 2 in
  let aHalfHeight := height a / 2 in
  let bHalfWidth := width b / 2 in
  let bHalfHeight := height b / 2 in
  (* Calculate difference between centers *)
  let dx := aCenterX - bCenterX in
  let dy := aCenterY - bCenterY in
  (* Calculate overlap on each axis *)
  let overlapX := aHalfWidth + bHalfWidth - JS.Math_abs dx in
  let overlapY := aHalfHeight + bHalfHeight - JS.Math_abs dy in
  if (overlapX <=? 0) || (overlapY <=? 0) then
    mkResult false 0 0 (Vector2.mk 0 0)
  else if overlapX <? overlapY then
    (* Horizontal collision *)
    let normalX := if dx >? 0 then 1 else -1 in
    mkResult true (overlapX * normalX) 0 (Vector2.mk normalX 0)
  else
    (* Vertical collision *)
    let normalY := if dy >? 0 then 1 else -1 in
    mkResult true 0 (overlapY * normalY) (Vector2.mk 0 normalY).

(** The two penetration depths that [getAABBCollision] compares. *)
Definition penetrationX (a b : t) : Q :=
  width a / 2 + width b / 2
  - JS.Math_abs (x a + width a / 2 - (x b + width b / 2)).
Definition penetrationY (a b : t) : Q :=
  height a / 2 + height b / 2
  - JS.Math_abs (y a + height a / 2 - (y b + height b / 2)).

Definition pointInAABB (point : Vector2.t) (box : t) : bool :=
  (Vector2.x point >=? x box) && (Vector2.x point <=? x box + width box)
  && (Vector2.y point >=? y box) && (Vector2.y point <=? y box + height box).

Definition createAABBFromCenter (centerX centerY width height : Q) : t :=
  mk (centerX - width / 2) (centerY - height / 2) width height.

Definition createAABB (x y width height : Q) : t := mk x y width height.

Definition expandAABB (box : t) (margin : Q) : t :=
  mk (x box - margin) (y box - margin)
     (width box + margin * 2) (height box + margin * 2).

Definition scaleAABB (box : t) (scale : Q) : t :=
  let centerX := x box + width box / 2 in
  let centerY := y box + height box / 2 in
  let newWidth := width box * scale in
  let newHeight := height box * scale in
  mk (centerX - newWidth / 2) (centerY - newHeight / 2) newWidth newHeight.

End AABB.

(** ** core/collision/AABB.ts on binary64 numbers

    The same two functions with [number] as the IEEE 754 binary64 value
    the program computes with (round to nearest, ties to even), to
    evaluate them where rounding decides the outcome. *)

Module AABB64.
Import PrimFloat.
#[local] Open Scope float_scope.

Record Vector2 : Set := mkVector2 { vx : float; vy : float }.

Record t : Set := mk {
  x : float;
  y : float;
  width : float;
  height : float
}.

Record CollisionResult : Set := mkResult {
  colliding : bool;
  overlapX : float;
  overlapY : float;
  normal : Vector2
}.

(** [a > b] is [b < a]; both are false on NaN. *)
Definition checkAABBOverlap (a b : t) : bool :=
  (x a <? x b + width b) && (x b <? x a + width a)
  && (y a <? y b + height b) && (y b <? y a + height a).

Definition getAABBCollision (a b : t) : CollisionResult :=
  (* Calculate centers *)
  let aCenterX := x a + width a / 2 in
  let aCenterY := y a + height a / 2 in
  let bCenterX := x b + width b / 2 in
  let bCenterY := y b + height b / 2 in
  (* Calculate half extents *)
  let aHalfWidth := width a / 2 in
  let aHalfHeight := height a / 2 in
  let bHalfWidth := width b / 2 in
  let bHalfHeight := height b / 2 in
  (* Calculate difference between centers *)
  let dx := aCenterX - bCenterX in
  let dy := aCenterY - bCenterY in
  (* Calculate overlap on each axis *)
  let overlapX := aHalfWidth + bHalfWidth - abs dx in
  let overlapY := aHalfHeight + bHalfHeight - abs dy in
  if (overlapX <=? 0) || (overlapY <=? 0) then
    mkResult false 0 0 (mkVector2 0 0)
  else if overlapX <? overlapY then
    (* Horizontal collision *)
    let normalX := if 0 <? dx then 1 else -1 in
    mkResult true (overlapX * normalX) 0 (mkVector2 normalX 0)
  else
    (* Vertical collision *)
    let normalY := if 0 <? dy then 1 else -1 in
    mkResult true 0 (overlapY * normalY) (mkVector2 0 normalY).

(** The two penetration depths that [getAABBCollision] compares. *)
Definition penetrationX (a b : t) : float :=
  width a / 2 + width b / 2 - abs (x a + width a / 2 - (x b + width b / 2)).
Definition penetrationY (a b : t) : float :=
  height a / 2 + height b / 2
  - abs (y a + height a / 2 - (y b + height b / 2)).

End AABB64.

(** ** core/physics/constants.ts *)

Module PHYSICS.
Definition GRAVITY : Q := 2600.
Definition JUMP_FORCE : Q := 800.
Definition TERMINAL_VELOCITY : Q := 1200.
Definition COYOTE_TIME : Q := 0.08.
Definition JUMP_BUFFER : Q := 0.1.
Definition SHIP_GRAVITY_MULTIPLIER : Q := 0.4.
Definition SHIP_THRUST_FORCE : Q := 600.
Definition CUBE_ROTATION_SPEED : Q := 360.
End PHYSICS.

(** The string unions [PlayerModeType] and [SpeedModeType] of the
    generated schema types. *)
Inductive PlayerModeType : Set := cube | ship | ball.
Inductive SpeedModeType : Set := slow | normal | fast | faster | superFast.

Definition PlayerModeType_eqb (a b : PlayerModeType) : bool :=
  match a, b with
  | cube, cube | ship, ship | ball, ball => true
  | _, _ => false
  end.

Definition SPEEDS (k : SpeedModeType) : Q :=
  match k with
  | slow => 251.16
  | normal => 311.58
  | fast => 387.42
  | faster => 468.0
  | superFast => 576.0
  end.

Module GRID.
Definition UNIT_SIZE : Q := 40.
Definition VISIBLE_HEIGHT : Q := 15.
Definition DEFAULT_GROUND_Y : Q := 12.
Definition VIEWPORT_WIDTH : Q := 800.
Definition VIEWPORT_HEIGHT : Q := 600.
End GRID.

Module HITBOXES.
Definition PLAYER_CUBE : Q := 0.9.
Definition PLAYER_SHIP : Q := 0.85.
Definition SPIKE : Q := 0.5.
Definition ORB : Q := 0.75.
Definition BLOCK : Q := 1.0.
End HITBOXES.

Module SIZES.
Definition PLAYER : Q := 40.
Definition BLOCK : Q := 40.
Definition SPIKE : Q := 40.
Definition ORB : Q := 40.
End SIZES.

(** Collision layer flags, combined and tested with bitwise operations. *)
Module CollisionLayer.
Definition NONE : Z := 0.
Definition SOLID : Z := Z.shiftl 1 0.
Definition HAZARD : Z := Z.shiftl 1 1.
Definition INTERACTIVE : Z := Z.shiftl 1 2.
Definition PORTAL : Z := Z.shiftl 1 3.
Definition TRIGGER : Z := Z.shiftl 1 4.
End CollisionLayer.

(** ** core/physics/types.ts *)

Record InputState : Set := mkInput {
  jumpPressed : bool;
  jumpHeld : bool;
  pausePressed : bool
}.

Record PhysicsState : Set := mkState {
  position : Vector2.t;
  velocity : Vector2.t;
  isGrounded : bool;
  gravityInverted : bool;
  rotation : Q;
  angularVelocity : Q;
  coyoteTimeRemaining : Q;
  jumpBuffered : bool;
  jumpBufferTimeRemaining : Q;
  isDead : bool;
  mode : PlayerModeType;
  speed : SpeedModeType
}.

Record PhysicsConfig : Set := mkConfig {
  gravity : Q;
  jumpForce : Q;
  terminalVelocity : Q;
  coyoteTime : Q;
  jumpBuffer : Q
}.

(** [createDefaultPhysicsState()] without overrides; the call sites
    override fields with the assignments below. *)
Definition createDefaultPhysicsState : PhysicsState :=
  mkState (Vector2.mk 0 0) (Vector2.mk 0 0) false false 0 0 0 false 0 false
          cube normal.

Definition createDefaultPhysicsConfig : PhysicsConfig :=
  mkConfig 2600 800 1200 0.08 0.1.

Definition createDefaultInputState : InputState := mkInput false false false.

(** Field assignments [state.f = v]. *)
Section Assign.
Variable s : PhysicsState.

Definition set_position (v : Vector2.t) : PhysicsState :=
  mkState v (velocity s) (isGrounded s) (gravityInverted s) (rotation s)
    (angularVelocity s) (coyoteTimeRemaining s) (jumpBuffered s)
    (jumpBufferTimeRemaining s) (isDead s) (mode s) (speed s).
Definition set_velocity (v : Vector2.t) : PhysicsState :=
  mkState (position s) v (isGrounded s) (gravityInverted s) (rotation s)
    (angularVelocity s) (coyoteTimeRemaining s) (jumpBuffered s)
    (jumpBufferTimeRemaining s) (isDead s) (mode s) (speed s).
Definition set_position_x (v : Q) : PhysicsState :=
  set_position (Vector2.mk v (Vector2.y (position s))).
Definition set_position_y (v : Q) : PhysicsState :=
  set_position (Vector2.mk (Vector2.x (position s)) v).
Definition set_velocity_y (v : Q) : PhysicsState :=
  set_velocity (Vector2.mk (Vector2.x (velocity s)) v).
Definition set_isGrounded (v : bool) : PhysicsState :=
  mkState (position s) (velocity s) v (gravityInverted s) (rotation s)
    (angularVelocity s) (coyoteTimeRemaining s) (jumpBuffered s)
    (jumpBufferTimeRemaining s) (isDead s) (mode s) (speed s).
Definition set_gravityInverted (v : bool) : PhysicsState :=
  mkState (position s) (velocity s) (isGrounded s) v (rotation s)
    (angularVelocity s) (coyoteTimeRemaining s) (jumpBuffered s)
    (jumpBufferTimeRemaining s) (isDead s) (mode s) (speed s).
Definition set_rotation (v : Q) : PhysicsState :=
  mkState (position s) (velocity s) (isGrounded s) (gravityInverted s) v
    (angularVelocity s) (coyoteTimeRemaining s) (jumpBuffered s)
    (jumpBufferTimeRemaining s) (isDead s) (mode s) (speed s).
Definition set_angularVelocity (v : Q) : PhysicsState :=
  mkState (position s) (velocity s) (isGrounded s) (gravityInverted s)
    (rotation s) v (coyoteTimeRemaining s) (jumpBuffered s)
    (jumpBufferTimeRemaining s) (isDead s) (mode s) (speed s).
Definition set_coyoteTimeRemaining (v : Q) : PhysicsState :=
  mkState (position s) (velocity s) (isGrounded s) (gravityInverted s)
    (rotation s) (angularVelocity s) v (jumpBuffered s)
    (jumpBufferTimeRemaining s) (isDead s) (mode s) (speed s).
Definition set_jumpBuffered (v : bool) : PhysicsState :=
  mkState (position s) (velocity s) (isGrounded s) (gravityInverted s)
    (rotation s) (angularVelocity s) (coyoteTimeRemaining s) v
    (jumpBufferTimeRemaining s) (isDead s) (mode s) (speed s).
Definition set_jumpBufferTimeRemaining (v : Q) : PhysicsState :=
  mkState (position s) (velocity s) (isGrounded s) (gravityInverted s)
    (rotation s) (angularVelocity s) (coyoteTimeRemaining s)
    (jumpBuffered s) v (isDead s) (mode s) (speed s).
Definition set_isDead (v : bool) : PhysicsState :=
  mkState (position s) (velocity s) (isGrounded s) (gravityInverted s)
    (rotation s) (angularVelocity s) (coyoteTimeRemaining s)
    (jumpBuffered s) (jumpBufferTimeRemaining s) v (mode s) (speed s).
Definition set_mode (v : PlayerModeType) : PhysicsState :=
  mkState (position s) (velocity s) (isGrounded s) (gravityInverted s)
    (rotation s) (angularVelocity s) (coyoteTimeRemaining s)
    (jumpBuffered s) (jumpBufferTimeRemaining s) (isDead s) v (speed s).
Definition set_speed (v : SpeedModeType) : PhysicsState :=
  mkState (position s) (velocity s) (isGrounded s) (gravityInverted s)
    (rotation s) (angularVelocity s) (coyoteTimeRemaining s)
    (jumpBuffered s) (jumpBufferTimeRemaining s) (isDead s) (mode s) v.
End Assign.

(** [clamp(value, min, max)], defined identically in utils/math.ts and in
    each mode file. *)
Definition clamp (value min max : Q) : Q :=
  JS.Math_max min (JS.Math_min max value).

(** [normalizeAngle], the expression [((d % 360) + 360) % 360]. *)
Definition normalizeAngle (degrees : Q) : Q :=
  JS.rem (JS.rem degrees 360 + 360) 360.

(** ** core/physics/modes/CubeMode.ts *)

Module CubeMode.

Definition name : PlayerModeType := cube.

Definition executeJump (state : PhysicsState) (config : PhysicsConfig)
  : PhysicsState :=
  let direction := if gravityInverted state then 1 else -1 in
  let state := set_velocity_y state (jumpForce config * direction) in
  let state := set_isGrounded state false in
  let state := set_coyoteTimeRemaining state 0 in
  (* Start rotation *)
  set_angularVelocity state
    (if gravityInverted state then - PHYSICS.CUBE_ROTATION_SPEED
     else PHYSICS.CUBE_ROTATION_SPEED).

Definition updateRotation (state : PhysicsState) (deltaTime : Q)
  : PhysicsState :=
  if isGrounded state then
    (* Snap to nearest 90 degrees when grounded *)
    let state := set_rotation state (JS.Math_round (rotation state / 90) * 90) in
    set_angularVelocity state 0
  else
    (* Rotate while in air *)
    let state :=
      set_rotation state (rotation state + angularVelocity state * deltaTime) in
    (* Normalize rotation to 0-360 *)
    set_rotation state (JS.rem (JS.rem (rotation state) 360 + 360) 360).

Definition update (state : PhysicsState) (input : InputState)
    (deltaTime : Q) (config : PhysicsConfig) : PhysicsState :=
  if isDead state then state else
  (* Apply gravity *)
  let gravityDirection := if gravityInverted state then -1 else 1 in
  let state :=
    set_velocity_y state
      (Vector2.y (velocity state) + gravity config * gravityDirection * deltaTime) in
  (* Clamp to terminal velocity *)
  let state :=
    if gravityInverted state then
      set_velocity_y state
        (clamp (Vector2.y (velocity state))
               (- terminalVelocity config) (terminalVelocity config))
    else
      set_velocity_y state
        (clamp (Vector2.y (velocity state))
               (- terminalVelocity config) (terminalVelocity config)) in
  (* Update coyote time *)
  let state :=
    if negb (isGrounded state) && (coyoteTimeRemaining state >? 0) then
      set_coyoteTimeRemaining state (coyoteTimeRemaining state - deltaTime)
    else state in
  (* Update jump buffer *)
  let state :=
    if jumpBuffered state && (jumpBufferTimeRemaining state >? 0) then
      let state :=
        set_jumpBufferTimeRemaining state
          (jumpBufferTimeRemaining state - deltaTime) in
      if jumpBufferTimeRemaining state <=? 0 then set_jumpBuffered state false
      else state
    else state in
  (* Handle jump input *)
  let canJump := isGrounded state || (coyoteTimeRemaining state >? 0) in
  let state :=
    if jumpPressed input then
      if canJump then executeJump state config
      else
        (* Buffer the jump for when we land *)
        let state := set_jumpBuffered state true in
        set_jumpBufferTimeRemaining state (jumpBuffer config)
    else state in
  (* Auto-jump when holding and landing *)
  let state :=
    if jumpHeld input && isGrounded state && (Vector2.y (velocity state) >=? 0)
    then executeJump state config
    else state in
  (* Execute buffered jump on landing *)
  let state :=
    if isGrounded state && jumpBuffered state
       && (jumpBufferTimeRemaining state >? 0)
    then set_jumpBuffered (executeJump state config) false
    else state in
  (* Update position *)
  let state :=
    set_position_y state
      (Vector2.y (position state) + Vector2.y (velocity state) * deltaTime) in
  (* Update visual rotation *)
  updateRotation state deltaTime.

Definition onEnter (state : PhysicsState) : PhysicsState :=
  let state := set_mode state cube in
  if isGrounded state then set_angularVelocity state 0 else state.

Definition onExit (state : PhysicsState) : PhysicsState := state.

End CubeMode.

(** ** core/physics/modes/ShipMode.ts *)

Module ShipMode.

Definition name : PlayerModeType := ship.

Definition updateRotation (state : PhysicsState) : PhysicsState :=
  let maxTilt := 30 in
  let velocityFactor := Vector2.y (velocity state) / 400 in
  let targetRotation := clamp (velocityFactor * maxTilt) (- maxTilt) maxTilt in
  (* Invert tilt when gravity is inverted *)
  let targetRotation :=
    if gravityInverted state then - targetRotation else targetRotation in
  (* Smooth rotation towards target *)
  let rotationSpeed := 10 in
  let diff := targetRotation - rotation state in
  set_rotation state
    (rotation state + diff * JS.Math_min (rotationSpeed * 0.016) 1).

Definition update (state : PhysicsState) (input : InputState)
    (deltaTime : Q) (config : PhysicsConfig) : PhysicsState :=
  if isDead state then state else
  let gravityDirection := if gravityInverted state then -1 else 1 in
  (* Ship has reduced gravity (40% of cube) *)
  let shipGravity := gravity config * PHYSICS.SHIP_GRAVITY_MULTIPLIER in
  (* Apply thrust or gravity *)
  let state :=
    if jumpHeld input then
      let thrustDirection := - gravityDirection in
      set_velocity_y state
        (Vector2.y (velocity state)
         + PHYSICS.SHIP_THRUST_FORCE * thrustDirection * deltaTime)
    else
      set_velocity_y state
        (Vector2.y (velocity state) + shipGravity * gravityDirection * deltaTime) in
  (* Ship has a lower terminal velocity than cube *)
  let shipTerminalVelocity := terminalVelocity config * 0.8 in
  let state :=
    set_velocity_y state
      (clamp (Vector2.y (velocity state))
             (- shipTerminalVelocity) shipTerminalVelocity) in
  (* Update position *)
  let state :=
    set_position_y state
      (Vector2.y (position state) + Vector2.y (velocity state) * deltaTime) in
  (* Update visual rotation (tilt based on Y velocity) *)
  updateRotation state.

Definition onEnter (state : PhysicsState) : PhysicsState :=
  let state := set_mode state ship in
  let state := set_rotation state 0 in
  let state := set_angularVelocity state 0 in
  let state := set_jumpBuffered state false in
  let state := set_jumpBufferTimeRemaining state 0 in
  set_coyoteTimeRemaining state 0.

Definition onExit (state : PhysicsState) : PhysicsState := state.

End ShipMode.

(** ** core/physics/modes/BallMode.ts *)

Module BallMode.

Definition name : PlayerModeType := ball.

Definition flipGravity (state : PhysicsState) (config : PhysicsConfig)
  : PhysicsState :=
  (* Toggle gravity direction *)
  let state := set_gravityInverted state (negb (gravityInverted state)) in
  (* Apply an impulse in the new gravity direction to leave the surface *)
  let direction := if gravityInverted state then -1 else 1 in
  let state := set_velocity_y state (jumpForce config * 0.5 * direction) in
  set_isGrounded state false.

Definition updateRotation (state : PhysicsState) (deltaTime : Q)
  : PhysicsState :=
  (* SPEEDS[state.speed] || SPEEDS.normal *)
  let horizontalSpeed :=
    if Qeq_bool (SPEEDS (speed state)) 0 then SPEEDS normal
    else SPEEDS (speed state) in
  let rotationPerPixel := 360 / (40 * JS.Math_PI) in
  let rotationAmount := horizontalSpeed * rotationPerPixel * deltaTime in
  let rollDirection := if gravityInverted state then -1 else 1 in
  let state :=
    set_rotation state (rotation state + rotationAmount * rollDirection) in
  (* Normalize rotation to 0-360 *)
  set_rotation state (JS.rem (JS.rem (rotation state) 360 + 360) 360).

Definition update (state : PhysicsState) (input : InputState)
    (deltaTime : Q) (config : PhysicsConfig) : PhysicsState :=
  if isDead state then state else
  let gravityDirection := if gravityInverted state then -1 else 1 in
  (* Apply gravity *)
  let state :=
    set_velocity_y state
      (Vector2.y (velocity state) + gravity config * gravityDirection * deltaTime) in
  (* Clamp to terminal velocity *)
  let state :=
    set_velocity_y state
      (clamp (Vector2.y (velocity state))
             (- terminalVelocity config) (terminalVelocity config)) in
  (* Handle gravity flip input *)
  let state :=
    if jumpPressed input && isGrounded state then flipGravity state config
    else state in
  (* Update position *)
  let state :=
    set_position_y state
      (Vector2.y (position state) + Vector2.y (velocity state) * deltaTime) in
  (* Update visual rotation *)
  updateRotation state deltaTime.

Definition onEnter (state : PhysicsState) : PhysicsState :=
  let state := set_mode state ball in
  let state := set_angularVelocity state 0 in
  let state := set_jumpBuffered state false in
  let state := set_jumpBufferTimeRemaining state 0 in
  set_coyoteTimeRemaining state 0.

Definition onExit (state : PhysicsState) : PhysicsState := state.

End BallMode.

(** The [IPlayerMode] strategy: the three singleton mode objects
    [cubeMode], [shipMode], [ballMode] and the dispatch of their methods. *)
Inductive IPlayerMode : Set := cubeMode | shipMode | ballMode.

Module IPlayerMode_.
Definition name (m : IPlayerMode) : PlayerModeType :=
  match m with
  | cubeMode => CubeMode.name
  | shipMode => ShipMode.name
  | ballMode => BallMode.name
  end.
Definition update (m : IPlayerMode) :=
  match m with
  | cubeMode => CubeMode.update
  | shipMode => ShipMode.update
  | ballMode => BallMode.update
  end.
Definition onEnter (m : IPlayerMode) :=
  match m with
  | cubeMode => CubeMode.onEnter
  | shipMode => ShipMode.onEnter
  | ballMode => BallMode.onEnter
  end.
Definition onExit (m : IPlayerMode) :=
  match m with
  | cubeMode => CubeMode.onExit
  | shipMode => ShipMode.onExit
  | ballMode => BallMode.onExit
  end.
End IPlayerMode_.

(** ** core/collision/CollisionDetector.ts *)

(** The string union [ObjectTypeType] of the generated schema types: the
    cases of [getCollisionLayer]. *)
Inductive ObjectTypeType : Set :=
| block | spike | spikeInverted
| padYellow | padPink | orbYellow | orbBlue
| portalGravity | portalMode | portalSpeed
| checkpoint | decoration.

Module Collidable.
(** [interface Collidable]: centre position, visual extents, type,
    collision layer, active flag. *)
Record t : Set := mk {
  x : Q;
  y : Q;
  width : Q;
  height : Q;
  type : ObjectTypeType;
  collisionLayer : Z;
  active : bool
}.
End Collidable.

Module CollisionDetector.

Record CollisionEvent : Set := mkEvent {
  object : Collidable.t;
  type : ObjectTypeType;
  collision : AABB.CollisionResult;
  isHazard : bool;
  isSolid : bool;
  isInteractive : bool
}.

Definition getHitboxScale (type : ObjectTypeType) : Q :=
  match type with
  | spike | spikeInverted => HITBOXES.SPIKE
  | orbYellow | orbBlue => HITBOXES.ORB
  | block => HITBOXES.BLOCK
  | _ => 1.0
  end.

Definition getCollisionLayer (type : ObjectTypeType) : Z :=
  match type with
  | block => CollisionLayer.SOLID
  | spike | spikeInverted => CollisionLayer.HAZARD
  | padYellow | padPink | orbYellow | orbBlue => CollisionLayer.INTERACTIVE
  | portalGravity | portalMode | portalSpeed => CollisionLayer.PORTAL
  | checkpoint => CollisionLayer.TRIGGER
  | decoration => CollisionLayer.NONE
  end.

Definition getObjectHitbox (obj : Collidable.t) : AABB.t :=
  let scale := getHitboxScale (Collidable.type obj) in
  let baseBox :=
    AABB.createAABBFromCenter (Collidable.x obj) (Collidable.y obj)
      (Collidable.width obj) (Collidable.height obj) in
  AABB.scaleAABB baseBox scale.

Definition getPlayerHitbox (x y width height : Q) (isCube : bool) : AABB.t :=
  let scale := if isCube then HITBOXES.PLAYER_CUBE else HITBOXES.PLAYER_SHIP in
  let baseBox := AABB.createAABBFromCenter x y width height in
  AABB.scaleAABB baseBox scale.

(** [(layer & flag) !== 0]. *)
Definition hasLayer (layer flag : Z) : bool :=
  negb (Z.eqb (Z.land layer flag) 0).

(** Returns [None] where the code returns [null]. *)
Definition checkPlayerObjectCollision (playerHitbox : AABB.t)
    (obj : Collidable.t) : option CollisionEvent :=
  if negb (Collidable.active obj)
     || Z.eqb (Collidable.collisionLayer obj) CollisionLayer.NONE
  then None
  else
    let objectHitbox := getObjectHitbox obj in
    if negb (AABB.checkAABBOverlap playerHitbox objectHitbox) then None
    else
      let collision := AABB.getAABBCollision playerHitbox objectHitbox in
      Some (mkEvent obj (Collidable.type obj) collision
              (hasLayer (Collidable.collisionLayer obj) CollisionLayer.HAZARD)
              (hasLayer (Collidable.collisionLayer obj) CollisionLayer.SOLID)
              (hasLayer (Collidable.collisionLayer obj) CollisionLayer.INTERACTIVE)).

(** The events are pushed in the order of [objects]. *)
Fixpoint checkPlayerCollisions (playerHitbox : AABB.t)
    (objects : list Collidable.t) : list CollisionEvent :=
  match objects with
  | [] => []
  | obj :: rest =>
      match checkPlayerObjectCollision playerHitbox obj with
      | Some event => event :: checkPlayerCollisions playerHitbox rest
      | None => checkPlayerCollisions playerHitbox rest
      end
  end.

(** The [for] loop of [checkGrounded]: some active solid object overlaps
    the probe box. *)
Fixpoint anySolidUnder (groundCheckBox : AABB.t)
    (objects : list Collidable.t) : bool :=
  match objects with
  | [] => false
  | obj :: rest =>
      if negb (Collidable.active obj)
         || Z.eqb (Z.land (Collidable.collisionLayer obj) CollisionLayer.SOLID) 0
      then anySolidUnder groundCheckBox rest
      else if AABB.checkAABBOverlap groundCheckBox (getObjectHitbox obj)
      then true
      else anySolidUnder groundCheckBox rest
  end.

Definition checkGrounded (playerHitbox : AABB.t)
    (objects : list Collidable.t) (tolerance : Q) : bool :=
  (* Create a thin box below the player to check for ground *)
  let groundCheckBox :=
    AABB.mk (AABB.x playerHitbox + 2)
            (AABB.y playerHitbox + AABB.height playerHitbox)
            (AABB.width playerHitbox - 4)
            tolerance in
  if anySolidUnder groundCheckBox objects then true
  else
    (* Also check for default ground level *)
    let groundY := GRID.DEFAULT_GROUND_Y * GRID.UNIT_SIZE in
    let playerBottom := AABB.y playerHitbox + AABB.height playerHitbox in
    if (playerBottom >=? groundY - tolerance)
       && (playerBottom <=? groundY + tolerance)
    then true
    else false.

(** The default value of the [tolerance] parameter. *)
Definition defaultTolerance : Q := 2.

Definition getVisibleObjects (objects : list Collidable.t)
    (viewportLeft viewportRight margin : Q) : list Collidable.t :=
  let left := viewportLeft - margin in
  let right := viewportRight + margin in
  filter
    (fun obj =>
       let objLeft := Collidable.x obj - Collidable.width obj / 2 in
       let objRight := Collidable.x obj + Collidable.width obj / 2 in
       (objRight >=? left) && (objLeft <=? right) && Collidable.active obj)
    objects.

End CollisionDetector.

(** ** engine/objects/Player.ts (physics part) *)

Module PlayerConfig.
Record t : Set := mk {
  startX : Q;
  startY : Q;
  primaryColor : Z;
  secondaryColor : Z
}.
End PlayerConfig.

Module Player.

Definition DEFAULT_CONFIG : PlayerConfig.t :=
  PlayerConfig.mk (GRID.UNIT_SIZE * 3)
    (GRID.DEFAULT_GROUND_Y * GRID.UNIT_SIZE - SIZES.PLAYER / 2)
    8257280 65535.

(** What the player emits, and the trace of emissions and mode
    life-cycle calls, oldest first. *)
Inductive Event : Set :=
| death (x y : Q)
| jump (x y : Q)
| land (x y : Q)
| modeChange (m : PlayerModeType)
| gravityFlip (inverted : bool).

Inductive Effect : Set :=
| Emit (e : Event)
| CallOnExit (m : IPlayerMode)
| CallOnEnter (m : IPlayerMode).

Record t : Set := mk {
  physicsState : PhysicsState;
  physicsConfig : PhysicsConfig;
  currentMode : IPlayerMode;
  config : PlayerConfig.t;
  levelObjects : list Collidable.t;
  currentSpeed : Q;
  _audioTime : Q;
  startX : Q;
  wasGroundedLastFrame : bool;
  wasInAir : bool;
  trace : list Effect
}.

Section Assign.
Variable p : t.
Definition set_physicsState (s : PhysicsState) : t :=
  mk s (physicsConfig p) (currentMode p) (config p) (levelObjects p)
     (currentSpeed p) (_audioTime p) (startX p) (wasGroundedLastFrame p)
     (wasInAir p) (trace p).
Definition set_currentMode (m : IPlayerMode) : t :=
  mk (physicsState p) (physicsConfig p) m (config p) (levelObjects p)
     (currentSpeed p) (_audioTime p) (startX p) (wasGroundedLastFrame p)
     (wasInAir p) (trace p).
Definition set_levelObjects (l : list Collidable.t) : t :=
  mk (physicsState p) (physicsConfig p) (currentMode p) (config p) l
     (currentSpeed p) (_audioTime p) (startX p) (wasGroundedLastFrame p)
     (wasInAir p) (trace p).
Definition set_currentSpeed (v : Q) : t :=
  mk (physicsState p) (physicsConfig p) (currentMode p) (config p)
     (levelObjects p) v (_audioTime p) (startX p) (wasGroundedLastFrame p)
     (wasInAir p) (trace p).
Definition set_audioTime (v : Q) : t :=
  mk (physicsState p) (physicsConfig p) (currentMode p) (config p)
     (levelObjects p) (currentSpeed p) v (startX p) (wasGroundedLastFrame p)
     (wasInAir p) (trace p).
Definition set_wasGroundedLastFrame (v : bool) : t :=
  mk (physicsState p) (physicsConfig p) (currentMode p) (config p)
     (levelObjects p) (currentSpeed p) (_audioTime p) (startX p) v
     (wasInAir p) (trace p).
Definition set_wasInAir (v : bool) : t :=
  mk (physicsState p) (physicsConfig p) (currentMode p) (config p)
     (levelObjects p) (currentSpeed p) (_audioTime p) (startX p)
     (wasGroundedLastFrame p) v (trace p).
(** [this.emit(...)] and the instrumentation of the life-cycle calls. *)
Definition record (e : Effect) : t :=
  mk (physicsState p) (physicsConfig p) (currentMode p) (config p)
     (levelObjects p) (currentSpeed p) (_audioTime p) (startX p)
     (wasGroundedLastFrame p) (wasInAir p) (trace p ++ [e]).
Definition emit (e : Event) : t := record (Emit e).
End Assign.

(** The constructor, applied to the merged configuration. *)
Definition create (mergedConfig : PlayerConfig.t) : t :=
  mk (set_isGrounded
        (set_position createDefaultPhysicsState
           (Vector2.mk (PlayerConfig.startX mergedConfig)
                       (PlayerConfig.startY mergedConfig)))
        true)
     createDefaultPhysicsConfig cubeMode mergedConfig []
     (SPEEDS normal) 0 (PlayerConfig.startX mergedConfig) true false [].

Definition setLevelObjects (p : t) (objects : list Collidable.t) : t :=
  set_levelObjects p objects.

Definition getHitbox (p : t) : AABB.t :=
  CollisionDetector.getPlayerHitbox
    (Vector2.x (position (physicsState p)))
    (Vector2.y (position (physicsState p)))
    SIZES.PLAYER SIZES.PLAYER
    (PlayerModeType_eqb (mode (physicsState p)) cube).

Definition die (p : t) : t :=
  if isDead (physicsState p) then p
  else
    let p := set_physicsState p (set_isDead (physicsState p) true) in
    emit p (death (Vector2.x (position (physicsState p)))
                  (Vector2.y (position (physicsState p)))).

(** One iteration of the loop of [processCollisions] for a collision
    that is not a hazard. *)
Definition resolveSolid (p : t) (c : CollisionDetector.CollisionEvent) : t :=
  let r := CollisionDetector.collision c in
  let ny := Vector2.y (AABB.normal r) in
  if CollisionDetector.isSolid c && (ny !==? 0) then
    if ny >? 0 then
      let p :=
        set_physicsState p
          (set_position_y (physicsState p)
             (Vector2.y (position (physicsState p)) - AABB.overlapY r * ny)) in
      if Vector2.y (velocity (physicsState p)) >? 0
      then set_physicsState p (set_velocity_y (physicsState p) 0)
      else p
    else
      let p :=
        set_physicsState p
          (set_position_y (physicsState p)
             (Vector2.y (position (physicsState p)) - AABB.overlapY r * ny)) in
      if Vector2.y (velocity (physicsState p)) <? 0
      then set_physicsState p (set_velocity_y (physicsState p) 0)
      else p
  else p.

(** The loop runs over the events in order and returns at the first
    hazard. *)
Fixpoint processCollisions (p : t)
    (collisions : list CollisionDetector.CollisionEvent) : t :=
  match collisions with
  | [] => p
  | collision :: rest =>
      if CollisionDetector.isHazard collision then die p
      else processCollisions (resolveSolid p collision) rest
  end.

Definition groundY : Q :=
  GRID.DEFAULT_GROUND_Y * GRID.UNIT_SIZE - SIZES.PLAYER / 2.

Definition applyGroundConstraint (p : t) : t :=
  if Vector2.y (position (physicsState p)) >? groundY then
    let p := set_physicsState p (set_position_y (physicsState p) groundY) in
    let p := set_physicsState p (set_velocity_y (physicsState p) 0) in
    set_physicsState p (set_isGrounded (physicsState p) true)
  else p.

Definition onLanding (p : t) : t :=
  let p :=
    set_physicsState p
      (set_rotation (physicsState p)
         (JS.Math_round (rotation (physicsState p) / 90) * 90)) in
  let p := set_physicsState p (set_angularVelocity (physicsState p) 0) in
  emit p (land (Vector2.x (position (physicsState p)))
               (Vector2.y (position (physicsState p)) + SIZES.PLAYER / 2)).

Definition onJump (p : t) : t :=
  emit p (jump (Vector2.x (position (physicsState p)))
               (Vector2.y (position (physicsState p)) + SIZES.PLAYER / 2)).

(** The tick up to, and not including, [applyGroundConstraint]; the
    caller has checked that the player is not dead. *)
Definition updateBeforeGroundConstraint (p : t) (input : InputState)
    (deltaTime : Q) (audioTime : option Q) : t :=
  (* Store previous state *)
  let p := set_wasInAir p (negb (isGrounded (physicsState p))) in
  (* Update X position based on audio time if provided *)
  let p :=
    match audioTime with
    | Some audioTime =>
        let p := set_audioTime p audioTime in
        set_physicsState p
          (set_position_x (physicsState p)
             (startX p + audioTime * currentSpeed p))
    | None => p
    end in
  (* Update physics through current mode *)
  let p :=
    set_physicsState p
      (IPlayerMode_.update (currentMode p) (physicsState p) input deltaTime
         (physicsConfig p)) in
  (* Get player hitbox for collision checks *)
  let hitbox := getHitbox p in
  (* Check collisions *)
  let collisions :=
    CollisionDetector.checkPlayerCollisions hitbox (levelObjects p) in
  (* Process collisions *)
  let p := processCollisions p collisions in
  (* Check if grounded *)
  let p := set_wasGroundedLastFrame p (isGrounded (physicsState p)) in
  let p :=
    set_physicsState p
      (set_isGrounded (physicsState p)
         (CollisionDetector.checkGrounded hitbox (levelObjects p)
            CollisionDetector.defaultTolerance)) in
  (* Handle landing (was in air, now grounded) *)
  let p :=
    if wasInAir p && isGrounded (physicsState p) then onLanding p else p in
  (* Handle jump (was grounded, now in air) *)
  let p :=
    if wasGroundedLastFrame p && negb (isGrounded (physicsState p))
       && (Vector2.y (velocity (physicsState p)) <? 0)
    then onJump p else p in
  (* Handle leaving ground *)
  if wasGroundedLastFrame p && negb (isGrounded (physicsState p))
  then
    set_physicsState p
      (set_coyoteTimeRemaining (physicsState p) (coyoteTime (physicsConfig p)))
  else p.

Definition update (p : t) (input : InputState) (deltaTime : Q)
    (audioTime : option Q) : t :=
  if isDead (physicsState p) then p
  else applyGroundConstraint (updateBeforeGroundConstraint p input deltaTime audioTime).

Definition applyJumpImpulse (p : t) (force : Q) : t :=
  if isDead (physicsState p) then p
  else
    let direction := if gravityInverted (physicsState p) then 1 else -1 in
    let p := set_physicsState p (set_velocity_y (physicsState p) (force * direction)) in
    let p := set_physicsState p (set_isGrounded (physicsState p) false) in
    emit p (jump (Vector2.x (position (physicsState p)))
                 (Vector2.y (position (physicsState p)))).

Definition applyBoostImpulse (p : t) (force : Q) : t :=
  if isDead (physicsState p) then p
  else
    let direction := if gravityInverted (physicsState p) then 1 else -1 in
    let p := set_physicsState p (set_velocity_y (physicsState p) (force * direction)) in
    emit p (jump (Vector2.x (position (physicsState p)))
                 (Vector2.y (position (physicsState p)))).

Definition setSpeed (p : t) (speedMode : SpeedModeType) : t :=
  let p := set_currentSpeed p (SPEEDS speedMode) in
  set_physicsState p (set_speed (physicsState p) speedMode).

Definition getMode (p : t) : PlayerModeType := mode (physicsState p).

Definition setMode (p : t) (mode_ : PlayerModeType) : t :=
  if PlayerModeType_eqb (mode (physicsState p)) mode_ then p
  else
    (* Exit current mode *)
    let p := record p (CallOnExit (currentMode p)) in
    let p :=
      set_physicsState p (IPlayerMode_.onExit (currentMode p) (physicsState p)) in
    (* Switch to new mode *)
    let p :=
      match mode_ with
      | ship => set_currentMode p shipMode
      | ball => set_currentMode p ballMode
      | cube => set_currentMode p cubeMode
      end in
    (* Enter new mode *)
    let p := record p (CallOnEnter (currentMode p)) in
    let p :=
      set_physicsState p (IPlayerMode_.onEnter (currentMode p) (physicsState p)) in
    (* Emit mode change event *)
    emit p (modeChange mode_).

Definition flipGravity (p : t) : t :=
  let p :=
    set_physicsState p
      (set_gravityInverted (physicsState p)
         (negb (gravityInverted (physicsState p)))) in
  emit p (gravityFlip (gravityInverted (physicsState p))).

Definition reset (p : t) : t :=
  let p :=
    set_physicsState p
      (set_isGrounded
         (set_position createDefaultPhysicsState
            (Vector2.mk (startX p) (PlayerConfig.startY (config p))))
         true) in
  let p := set_audioTime p 0 in
  let p := set_wasGroundedLastFrame p true in
  set_wasInAir p false.

Definition respawnAtCheckpoint (p : t) (x y : Q) (mode_ : PlayerModeType)
    (speed_ : SpeedModeType) (gravityInverted_ : bool) : t :=
  let p :=
    set_physicsState p
      (set_gravityInverted
         (set_speed
            (set_mode
               (set_isGrounded
                  (set_position createDefaultPhysicsState (Vector2.mk x y))
                  true)
               mode_)
            speed_)
         gravityInverted_) in
  let p := set_audioTime p 0 in
  let p := set_wasGroundedLastFrame p true in
  let p := set_wasInAir p false in
  (* Set the mode properly *)
  let p := setMode p mode_ in
  let p := setSpeed p speed_ in
  if Bool.eqb gravityInverted_ (gravityInverted (physicsState p)) then p
  else flipGravity p.

Definition getProgress (p : t) (levelLength : Q) : Q :=
  if levelLength <=? 0 then 0
  else
    let progress :=
      (Vector2.x (position (physicsState p)) - startX p) / levelLength in
    JS.Math_max 0 (JS.Math_min 1 progress).

End Player.

(** ** utils/math.ts *)

Module MathUtils.

Definition lerp (start end_ t : Q) : Q := start + (end_ - start) * t.

Definition inverseLerp (start end_ value : Q) : Q :=
  if Qeq_bool start end_ then 0
  else (value - start) / (end_ - start).

Definition remap (value fromMin fromMax toMin toMax : Q) : Q :=
  let t := inverseLerp fromMin fromMax value in
  lerp toMin toMax t.

Definition degToRad (degrees : Q) : Q := degrees * (JS.Math_PI / 180).

Definition radToDeg (radians : Q) : Q := radians * (180 / JS.Math_PI).

(** [approxEqual] returns the number 1 or 0; [epsilon] defaults to
    0.0001. *)
Definition approxEqual (a b epsilon : Q) : Q :=
  if JS.Math_abs (a - b) <? epsilon then 1 else 0.

Definition defaultEpsilon : Q := 0.0001.

End MathUtils.

(** ** JavaScript [Map] and [Set] keyed by integers

    Both keep insertion order: [set] on a present key replaces the value
    in place, [add] of a present element does nothing. *)

Module JSMap.

Definition t (V : Type) : Type := list (Z * V).

Fixpoint get {V : Type} (m : t V) (k : Z) : option V :=
  match m with
  | [] => None
  | (k', v) :: m' => if Z.eqb k' k then Some v else get m' k
  end.

Definition has {V : Type} (m : t V) (k : Z) : bool :=
  match get m k with Some _ => true | None => false end.

Fixpoint set {V : Type} (m : t V) (k : Z) (v : V) : t V :=
  match m with
  | [] => [(k, v)]
  | (k', v') :: m' =>
      if Z.eqb k' k then (k, v) :: m' else (k', v') :: set m' k v
  end.

Definition values {V : Type} (m : t V) : list V := map snd m.

End JSMap.

Module JSSet.

Definition t : Type := list Z.

Definition has (s : t) (k : Z) : bool := existsb (Z.eqb k) s.

Definition add (s : t) (k : Z) : t := if has s k then s else s ++ [k].

Definition size (s : t) : nat := length s.

End JSSet.

(** ** services/CheckpointManager.ts

    Checkpoint ids are integers.  [Date.now()] is an argument of
    [recordCheckpoint].  The listeners registered with [on] are callbacks
    of the caller; [emit] is modelled by the list of emitted events,
    oldest first. *)

Module CheckpointState.
Record t : Type := mk {
  id : Z;
  gridX : Q;
  gridY : Q;
  audioTime : Q;
  mode : PlayerModeType;
  speed : SpeedModeType;
  gravityInverted : bool;
  playerX : Q;
  playerY : Q;
  savedAt : Q
}.
End CheckpointState.

Module CheckpointDefinition.
Record t : Type := mk {
  id : Z;
  x : Q;
  y : Q;
  name : option String.string
}.
End CheckpointDefinition.

Module CheckpointManager.

Inductive Event : Type :=
| checkpointReached (checkpoint : CheckpointState.t)
| checkpointRespawn (checkpoint : CheckpointState.t)
| practiceModeChanged (enabled : bool).

Record t : Type := mk {
  _isPracticeMode : bool;
  checkpointStates : JSMap.t CheckpointState.t;
  lastCheckpointId : option Z;
  checkpointDefinitions : JSMap.t CheckpointDefinition.t;
  triggeredCheckpoints : JSSet.t;
  emitted : list Event
}.

Definition create : t := mk false [] None [] [] [].

Definition emit (cm : t) (e : Event) : t :=
  mk (_isPracticeMode cm) (checkpointStates cm) (lastCheckpointId cm)
     (checkpointDefinitions cm) (triggeredCheckpoints cm) (emitted cm ++ [e]).

Definition isPracticeMode (cm : t) : bool := _isPracticeMode cm.

Definition clearAllCheckpoints (cm : t) : t :=
  mk (_isPracticeMode cm) [] None (checkpointDefinitions cm) [] (emitted cm).

Definition setPracticeMode (cm : t) (enabled : bool) : t :=
  if negb (Bool.eqb (_isPracticeMode cm) enabled) then
    let cm :=
      mk enabled (checkpointStates cm) (lastCheckpointId cm)
         (checkpointDefinitions cm) (triggeredCheckpoints cm) (emitted cm) in
    let cm :=
      if negb enabled then
        (* Clear all saved checkpoints when exiting practice mode *)
        clearAllCheckpoints cm
      else cm in
    emit cm (practiceModeChanged enabled)
  else cm.

Definition togglePracticeMode (cm : t) : t * bool :=
  let cm := setPracticeMode cm (negb (_isPracticeMode cm)) in
  (cm, _isPracticeMode cm).

Definition loadCheckpoints (cm : t) (checkpoints : list CheckpointDefinition.t)
  : t :=
  mk (_isPracticeMode cm) (checkpointStates cm) (lastCheckpointId cm)
     (fold_left
        (fun defs checkpoint =>
           JSMap.set defs (CheckpointDefinition.id checkpoint) checkpoint)
        checkpoints [])
     (triggeredCheckpoints cm) (emitted cm).

Definition getCheckpointDefinitions (cm : t) : list CheckpointDefinition.t :=
  JSMap.values (checkpointDefinitions cm).

Definition getCheckpointDefinition (cm : t) (id : Z)
  : option CheckpointDefinition.t :=
  JSMap.get (checkpointDefinitions cm) id.

(** Returns the manager after the call and the returned state ([None] for
    [null]). *)
Definition recordCheckpoint (cm : t) (checkpointId : Z)
    (physicsState : PhysicsState) (audioTime gridX gridY : Q) (now : Q)
  : t * option CheckpointState.t :=
  (* Always track which checkpoints have been triggered (for UI) *)
  let firstTime := negb (JSSet.has (triggeredCheckpoints cm) checkpointId) in
  let cm :=
    mk (_isPracticeMode cm) (checkpointStates cm) (lastCheckpointId cm)
       (checkpointDefinitions cm)
       (JSSet.add (triggeredCheckpoints cm) checkpointId) (emitted cm) in
  (* Only save state in practice mode *)
  if negb (_isPracticeMode cm) then (cm, None)
  else
    let state :=
      CheckpointState.mk checkpointId gridX gridY audioTime
        (mode physicsState) (speed physicsState)
        (gravityInverted physicsState)
        (Vector2.x (position physicsState))
        (Vector2.y (position physicsState))
        now in
    let cm :=
      mk (_isPracticeMode cm)
         (JSMap.set (checkpointStates cm) checkpointId state)
         (Some checkpointId)
         (checkpointDefinitions cm) (triggeredCheckpoints cm) (emitted cm) in
    let cm := if firstTime then emit cm (checkpointReached state) else cm in
    (cm, Some state).

Definition getLastCheckpoint (cm : t) : option CheckpointState.t :=
  match lastCheckpointId cm with
  | None => None
  | Some id => JSMap.get (checkpointStates cm) id
  end.

Definition getCheckpointState (cm : t) (id : Z) : option CheckpointState.t :=
  JSMap.get (checkpointStates cm) id.

Definition getAllCheckpointStates (cm : t) : list CheckpointState.t :=
  JSMap.values (checkpointStates cm).

Definition hasCheckpoint (cm : t) : bool :=
  match lastCheckpointId cm with
  | None => false
  | Some id => JSMap.has (checkpointStates cm) id
  end.

Definition isCheckpointTriggered (cm : t) (id : Z) : bool :=
  JSSet.has (triggeredCheckpoints cm) id.

Definition getReachedCheckpointCount (cm : t) : nat :=
  JSSet.size (triggeredCheckpoints cm).

Definition getRespawnState (cm : t) : option CheckpointState.t :=
  if negb (_isPracticeMode cm) then None
  else getLastCheckpoint cm.

Definition notifyRespawn (cm : t) (checkpoint : CheckpointState.t) : t :=
  emit cm (checkpointRespawn checkpoint).

Definition resetTriggeredCheckpoints (cm : t) : t :=
  mk (_isPracticeMode cm) (checkpointStates cm) (lastCheckpointId cm)
     (checkpointDefinitions cm) [] (emitted cm).

Definition reset (cm : t) : t :=
  let cm := clearAllCheckpoints cm in
  mk (_isPracticeMode cm) (checkpointStates cm) (lastCheckpointId cm)
     [] (triggeredCheckpoints cm) (emitted cm).

Definition destroy (cm : t) : t := reset cm.

End CheckpointManager.

(** ** engine/systems/ObjectPool.ts: portals and checkpoints

    The fields read by the trigger checks of the scene: the position of
    the Phaser container, the payload and the trigger flag. *)

Module PooledPortal.

Inductive PooledPortalType : Set := mode | gravity | speed.

Record t : Type := mk {
  x : Q;
  y : Q;
  portalType : PooledPortalType;
  targetMode : option PlayerModeType;
  targetSpeed : option SpeedModeType;
  _triggered : bool
}.

Definition activate (gridX gridY : Q) (portalType : PooledPortalType)
    (targetMode : option PlayerModeType) (targetSpeed : option SpeedModeType)
  : t :=
  let pixelX := gridX * GRID.UNIT_SIZE + GRID.UNIT_SIZE / 2 in
  let pixelY := gridY * GRID.UNIT_SIZE + GRID.UNIT_SIZE / 2 in
  mk pixelX pixelY portalType targetMode targetSpeed false.

Definition shouldTrigger (p : t) : bool := negb (_triggered p).

Definition trigger (p : t) : t :=
  mk (x p) (y p) (portalType p) (targetMode p) (targetSpeed p) true.

Definition resetTrigger (p : t) : t :=
  mk (x p) (y p) (portalType p) (targetMode p) (targetSpeed p) false.

End PooledPortal.

Module PooledCheckpoint.

Record t : Type := mk {
  x : Q;
  y : Q;
  checkpointId : Z;
  checkpointName : String.string;
  _triggered : bool
}.

Definition activate (gridX gridY : Q) (checkpointId : Z)
    (name : String.string) : t :=
  let pixelX := gridX * GRID.UNIT_SIZE + GRID.UNIT_SIZE / 2 in
  let pixelY := gridY * GRID.UNIT_SIZE + GRID.UNIT_SIZE / 2 in
  mk pixelX pixelY checkpointId name false.

Definition shouldTrigger (c : t) : bool := negb (_triggered c).

Definition trigger (c : t) : t :=
  mk (x c) (y c) (checkpointId c) (checkpointName c) true.

Definition resetTrigger (c : t) : t :=
  mk (x c) (y c) (checkpointId c) (checkpointName c) false.

Definition isTriggered (c : t) : bool := _triggered c.

End PooledCheckpoint.

(** ** engine/scenes/GameScene.ts: portal and checkpoint triggers

    The scene holds the player, the active pooled objects and the
    checkpoint manager; each check threads the ones it changes.  Sound,
    particles and UI updates are left out. *)

Module GameScene.

Definition handlePortalTrigger (player : Player.t) (portal : PooledPortal.t)
  : Player.t :=
  match PooledPortal.portalType portal with
  | PooledPortal.mode =>
      match PooledPortal.targetMode portal with
      | Some targetMode => Player.setMode player targetMode
      | None => player
      end
  | PooledPortal.gravity => Player.flipGravity player
  | PooledPortal.speed =>
      match PooledPortal.targetSpeed portal with
      | Some targetSpeed => Player.setSpeed player targetSpeed
      | None => player
      end
  end.

(** The overlap test written out in [checkPortalCollisions]. *)
Definition portalOverlap (playerHitbox : AABB.t) (portal : PooledPortal.t)
  : bool :=
  let portalX := PooledPortal.x portal in
  let portalY := PooledPortal.y portal in
  let portalWidth := 32 in
  let portalHeight := 100 in
  let portalLeft := portalX - portalWidth / 2 in
  let portalRight := portalX + portalWidth / 2 in
  let portalTop := portalY - portalHeight / 2 in
  let portalBottom := portalY + portalHeight / 2 in
  (AABB.x playerHitbox <? portalRight) &&
  (AABB.x playerHitbox + AABB.width playerHitbox >? portalLeft) &&
  (AABB.y playerHitbox <? portalBottom) &&
  (AABB.y playerHitbox + AABB.height playerHitbox >? portalTop).

(** The loop of [checkPortalCollisions]; [playerHitbox] is read once,
    before the loop. *)
Fixpoint checkPortalLoop (playerHitbox : AABB.t) (player : Player.t)
    (portals : list PooledPortal.t) : Player.t * list PooledPortal.t :=
  match portals with
  | [] => (player, [])
  | portal :: rest =>
      if negb (PooledPortal.shouldTrigger portal) then
        let (player, rest) := checkPortalLoop playerHitbox player rest in
        (player, portal :: rest)
      else if portalOverlap playerHitbox portal then
        (* Trigger the portal *)
        let portal := PooledPortal.trigger portal in
        let player := handlePortalTrigger player portal in
        let (player, rest) := checkPortalLoop playerHitbox player rest in
        (player, portal :: rest)
      else
        let (player, rest) := checkPortalLoop playerHitbox player rest in
        (player, portal :: rest)
  end.

Definition checkPortalCollisions (player : Player.t)
    (portals : list PooledPortal.t) : Player.t * list PooledPortal.t :=
  let playerHitbox := Player.getHitbox player in
  checkPortalLoop playerHitbox player portals.

(** [Math.floor]. *)
Definition Math_floor (a : Q) : Q := inject_Z (Qfloor a).

(** [audioTime] is [audioManager.getCurrentTime()] or [state.gameTime],
    whichever the scene uses; the feedback shown when the state was saved
    is left out. *)
Definition handleCheckpointTrigger (cm : CheckpointManager.t)
    (player : Player.t) (checkpoint : PooledCheckpoint.t)
    (audioTime now : Q) : CheckpointManager.t :=
  fst (CheckpointManager.recordCheckpoint cm
         (PooledCheckpoint.checkpointId checkpoint)
         (Player.physicsState player)
         audioTime
         (Math_floor (PooledCheckpoint.x checkpoint / GRID.UNIT_SIZE))
         (Math_floor (PooledCheckpoint.y checkpoint / GRID.UNIT_SIZE))
         now).

(** The overlap test written out in [checkCheckpointCollisions]. *)
Definition checkpointOverlap (playerHitbox : AABB.t)
    (checkpoint : PooledCheckpoint.t) : bool :=
  let checkpointX := PooledCheckpoint.x checkpoint in
  let checkpointY := PooledCheckpoint.y checkpoint in
  let checkpointSize := 32 in
  let checkpointLeft := checkpointX - checkpointSize / 2 in
  let checkpointRight := checkpointX + checkpointSize / 2 in
  let checkpointTop := checkpointY - checkpointSize / 2 in
  let checkpointBottom := checkpointY + checkpointSize / 2 in
  (AABB.x playerHitbox <? checkpointRight) &&
  (AABB.x playerHitbox + AABB.width playerHitbox >? checkpointLeft) &&
  (AABB.y playerHitbox <? checkpointBottom) &&
  (AABB.y playerHitbox + AABB.height playerHitbox >? checkpointTop).

Fixpoint checkCheckpointLoop (playerHitbox : AABB.t)
    (cm : CheckpointManager.t) (player : Player.t)
    (checkpoints : list PooledCheckpoint.t) (audioTime now : Q)
  : CheckpointManager.t * list PooledCheckpoint.t :=
  match checkpoints with
  | [] => (cm, [])
  | checkpoint_ :: rest =>
      if negb (PooledCheckpoint.shouldTrigger checkpoint_) then
        let (cm, rest) :=
          checkCheckpointLoop playerHitbox cm player rest audioTime now in
        (cm, checkpoint_ :: rest)
      else if checkpointOverlap playerHitbox checkpoint_ then
        (* Trigger the checkpoint *)
        let checkpoint_ := PooledCheckpoint.trigger checkpoint_ in
        let cm := handleCheckpointTrigger cm player checkpoint_ audioTime now in
        let (cm, rest) :=
          checkCheckpointLoop playerHitbox cm player rest audioTime now in
        (cm, checkpoint_ :: rest)
      else
        let (cm, rest) :=
          checkCheckpointLoop playerHitbox cm player rest audioTime now in
        (cm, checkpoint_ :: rest)
  end.

Definition checkCheckpointCollisions (cm : CheckpointManager.t)
    (player : Player.t) (checkpoints : list PooledCheckpoint.t)
    (audioTime now : Q) : CheckpointManager.t * list PooledCheckpoint.t :=
  let playerHitbox := Player.getHitbox player in
  checkCheckpointLoop playerHitbox cm player checkpoints audioTime now.

(** The player and checkpoint-manager part of [respawnAtCheckpoint]. *)
Definition respawnAtCheckpoint (cm : CheckpointManager.t) (player : Player.t)
    (checkpoint : CheckpointState.t) : CheckpointManager.t * Player.t :=
  (* Reset player to checkpoint state *)
  let player :=
    Player.respawnAtCheckpoint player
      (CheckpointState.playerX checkpoint)
      (CheckpointState.playerY checkpoint)
      (CheckpointState.mode checkpoint)
      (CheckpointState.speed checkpoint)
      (CheckpointState.gravityInverted checkpoint) in
  (* Notify checkpoint manager *)
  let cm := CheckpointManager.notifyRespawn cm checkpoint in
  (cm, player).

End GameScene.

(** ** Notions used to state the properties *)

(** The terminal velocity that applies in a mode: the configured value for
    cube and ball, 0.8 times it for ship. *)
Definition terminalVelocityFor (m : IPlayerMode) (config : PhysicsConfig) : Q :=
  match m with
  | shipMode => terminalVelocity config * 0.8
  | cubeMode | ballMode => terminalVelocity config
  end.

(** [|velocity.y| <= B], written as two inequalities. *)
Definition vyBound (B : Q) (s : PhysicsState) : Prop :=
  - B <= Vector2.y (velocity s) /\ Vector2.y (velocity s) <= B.

(** An active obstacle carrying the layer [flag] whose hitbox overlaps
    [hitbox]. *)
Definition overlapsActive (hitbox : AABB.t) (flag : Z) (obj : Collidable.t)
  : bool :=
  Collidable.active obj
  && CollisionDetector.hasLayer (Collidable.collisionLayer obj) flag
  && AABB.checkAABBOverlap hitbox (CollisionDetector.getObjectHitbox obj).

(** The ship's tilt range: rotation between -30 and 30 degrees. *)
Definition tilt (s : PhysicsState) : Prop :=
  -30 <= rotation s /\ rotation s <= 30.

(** The three phases of [Player.update] before the ground constraint:
    the motion phase (previous-state bookkeeping, music-time x position,
    mode update), the collision phase (hitbox, collision query, collision
    processing) and the grounding phase (grounded query, landing and jump
    notifications, coyote timer), which reuses the hitbox computed before
    the collisions were processed. *)
Definition updateMotion (p : Player.t) (input : InputState) (deltaTime : Q)
    (audioTime : option Q) : Player.t :=
  let p := Player.set_wasInAir p (negb (isGrounded (Player.physicsState p))) in
  let p :=
    match audioTime with
    | Some audioTime =>
        let p := Player.set_audioTime p audioTime in
        Player.set_physicsState p
          (set_position_x (Player.physicsState p)
             (Player.startX p + audioTime * Player.currentSpeed p))
    | None => p
    end in
  Player.set_physicsState p
    (IPlayerMode_.update (Player.currentMode p) (Player.physicsState p) input
       deltaTime (Player.physicsConfig p)).

Definition resolveCollisions (p : Player.t) : Player.t :=
  Player.processCollisions p
    (CollisionDetector.checkPlayerCollisions (Player.getHitbox p)
       (Player.levelObjects p)).

Definition updateGrounding (hitbox : AABB.t) (p : Player.t) : Player.t :=
  let p :=
    Player.set_wasGroundedLastFrame p (isGrounded (Player.physicsState p)) in
  let p :=
    Player.set_physicsState p
      (set_isGrounded (Player.physicsState p)
         (CollisionDetector.checkGrounded hitbox (Player.levelObjects p)
            CollisionDetector.defaultTolerance)) in
  let p :=
    if Player.wasInAir p && isGrounded (Player.physicsState p)
    then Player.onLanding p else p in
  let p :=
    if Player.wasGroundedLastFrame p && negb (isGrounded (Player.physicsState p))
       && (Vector2.y (velocity (Player.physicsState p)) <? 0)
    then Player.onJump p else p in
  if Player.wasGroundedLastFrame p && negb (isGrounded (Player.physicsState p))
  then
    Player.set_physicsState p
      (set_coyoteTimeRemaining (Player.physicsState p)
         (coyoteTime (Player.physicsConfig p)))
  else p.

(** [frame p q]: from [p] to [q] the player's set-up, the horizontal
    position and the mode are unchanged, a dead player stays dead and
    every bound on the vertical speed is kept. *)
Definition frame (p q : Player.t) : Prop :=
  Player.currentMode q = Player.currentMode p
  /\ Player.physicsConfig q = Player.physicsConfig p
  /\ Player.levelObjects q = Player.levelObjects p
  /\ Player.startX q = Player.startX p
  /\ Player.currentSpeed q = Player.currentSpeed p
  /\ Vector2.x (position (Player.physicsState q))
     = Vector2.x (position (Player.physicsState p))
  /\ mode (Player.physicsState q) = mode (Player.physicsState p)
  /\ (isDead (Player.physicsState p) = true ->
      isDead (Player.physicsState q) = true)
  /\ (forall B, 0 <= B -> vyBound B (Player.physicsState p) ->
      vyBound B (Player.physicsState q)).

(** What every mode update leaves alone: the horizontal position, the
    dead flag and the mode id. *)
Definition modeFrame (s s' : PhysicsState) : Prop :=
  Vector2.x (position s') = Vector2.x (position s)
  /\ isDead s' = isDead s
  /\ mode s' = mode s.

(** One frame's arguments to [Player.update], and a run of frames. *)
Record Tick : Set := mkTick {
  tickInput : InputState;
  tickDeltaTime : Q;
  tickAudioTime : option Q
}.

Fixpoint runTicks (p : Player.t) (ticks : list Tick) : Player.t :=
  match ticks with
  | [] => p
  | k :: rest =>
      runTicks (Player.update p (tickInput k) (tickDeltaTime k) (tickAudioTime k))
               rest
  end.

(** The objects for which [checkPlayerObjectCollision] returns an event:
    active, with a collision layer other than NONE, and a hitbox that
    overlaps the player's. *)
Definition collides (hitbox : AABB.t) (obj : Collidable.t) : bool :=
  Collidable.active obj
  && negb (Z.eqb (Collidable.collisionLayer obj) CollisionLayer.NONE)
  && AABB.checkAABBOverlap hitbox (CollisionDetector.getObjectHitbox obj).

(** The probe box of [checkGrounded]: a strip of height [tolerance] under
    the hitbox, inset by 2 on each side. *)
Definition groundCheckBox (playerHitbox : AABB.t) (tolerance : Q) : AABB.t :=
  AABB.mk (AABB.x playerHitbox + 2)
          (AABB.y playerHitbox + AABB.height playerHitbox)
          (AABB.width playerHitbox - 4)
          tolerance.

(** [n] consecutive updates of one mode with the same input, deltaTime
    and configuration. *)
Fixpoint updateN (m : IPlayerMode) (n : nat) (s : PhysicsState)
    (input : InputState) (deltaTime : Q) (config : PhysicsConfig)
  : PhysicsState :=
  match n with
  | O => s
  | S k => updateN m k (IPlayerMode_.update m s input deltaTime config)
             input deltaTime config
  end.

(** The jump-buffer invariant of the data model: a buffered jump has time
    left. *)
Definition bufferInv (s : PhysicsState) : Prop :=
  jumpBuffered s = true -> 0 < jumpBufferTimeRemaining s.

(** The mode object in use is the one named by the state's mode id. *)
Definition modeSync (p : Player.t) : Prop :=
  IPlayerMode_.name (Player.currentMode p) = mode (Player.physicsState p).

(** A live player standing still on the default ground plane of an empty
    level, under normal gravity and the default configuration, with no
    jump buffered. *)
Definition atRest (p : Player.t) : Prop :=
  isDead (Player.physicsState p) = false
  /\ isGrounded (Player.physicsState p) = true
  /\ gravityInverted (Player.physicsState p) = false
  /\ jumpBuffered (Player.physicsState p) = false
  /\ Vector2.y (position (Player.physicsState p)) == Player.groundY
  /\ Vector2.y (velocity (Player.physicsState p)) == 0
  /\ Player.levelObjects p = []
  /\ Player.physicsConfig p = createDefaultPhysicsConfig.

(** A frame without jump input and with a positive deltaTime. *)
Definition idleTick (k : Tick) : Prop :=
  jumpPressed (tickInput k) = false
  /\ jumpHeld (tickInput k) = false
  /\ 0 < tickDeltaTime k.

(** The public operations of the checkpoint manager that change it, and
    a run of them on a manager. *)
Inductive ManagerCall : Type :=
| CallSetPracticeMode (enabled : bool)
| CallTogglePracticeMode
| CallLoadCheckpoints (checkpoints : list CheckpointDefinition.t)
| CallRecordCheckpoint (checkpointId : Z) (physicsState : PhysicsState)
    (audioTime gridX gridY now : Q)
| CallNotifyRespawn (checkpoint : CheckpointState.t)
| CallResetTriggeredCheckpoints
| CallClearAllCheckpoints
| CallReset
| CallDestroy.

Definition managerCall (cm : CheckpointManager.t) (c : ManagerCall)
  : CheckpointManager.t :=
  match c with
  | CallSetPracticeMode enabled => CheckpointManager.setPracticeMode cm enabled
  | CallTogglePracticeMode => fst (CheckpointManager.togglePracticeMode cm)
  | CallLoadCheckpoints l => CheckpointManager.loadCheckpoints cm l
  | CallRecordCheckpoint i s a gx gy now =>
      fst (CheckpointManager.recordCheckpoint cm i s a gx gy now)
  | CallNotifyRespawn c => CheckpointManager.notifyRespawn cm c
  | CallResetTriggeredCheckpoints =>
      CheckpointManager.resetTriggeredCheckpoints cm
  | CallClearAllCheckpoints => CheckpointManager.clearAllCheckpoints cm
  | CallReset => CheckpointManager.reset cm
  | CallDestroy => CheckpointManager.destroy cm
  end.

Definition managerCalls (cm : CheckpointManager.t) (l : list ManagerCall)
  : CheckpointManager.t :=
  fold_left managerCall l cm.

(** Outside practice mode nothing is stored, the last checkpoint has a
    stored state, and every state is stored under its own id. *)
Definition managerConsistent (cm : CheckpointManager.t) : Prop :=
  (CheckpointManager._isPracticeMode cm = false ->
   CheckpointManager.checkpointStates cm = [] /\
   CheckpointManager.lastCheckpointId cm = None) /\
  (forall i, CheckpointManager.lastCheckpointId cm = Some i ->
     JSMap.has (CheckpointManager.checkpointStates cm) i = true) /\
  (forall i c, JSMap.get (CheckpointManager.checkpointStates cm) i = Some c ->
     CheckpointState.id c = i).

(** The portals a pass of [checkPortalCollisions] fires for a hitbox. *)
Definition portalFires (playerHitbox : AABB.t) (portal : PooledPortal.t)
  : bool :=
  PooledPortal.shouldTrigger portal &&
  GameScene.portalOverlap playerHitbox portal.

(** A number that is an integer of magnitude at most 2^50, and a box
    whose position and size are such numbers.  On these boxes every
    intermediate value of [checkAABBOverlap] and [getAABBCollision] is an
    integer or a half-integer below 2^52 in magnitude, which binary64
    represents exactly: the program computes what the exact model
    computes. *)
Definition integral (q : Q) : bool :=
  Qeq_bool q (inject_Z (Qfloor q)) && Qle_bool (Qabs q) (inject_Z (2 ^ 50)).

Definition integralBox (a : AABB.t) : bool :=
  integral (AABB.x a) && integral (AABB.y a)
  && integral (AABB.width a) && integral (AABB.height a).

(** One free-fall step of the vertical velocity: gravity for [deltaTime]
    along the gravity direction, clamped at the terminal velocity. *)
Definition fallStep (config : PhysicsConfig) (inverted : bool)
    (deltaTime v : Q) : Q :=
  clamp (v + gravity config * (if inverted then -1 else 1) * deltaTime)
        (- terminalVelocity config) (terminalVelocity config).

(** * Properties *)

(** ** Comparisons and arithmetic *)

Module JSFacts.

Lemma ltP (a b : Q) : reflect (a < b) (a <? b).
Proof.
  unfold JS.lt. destruct (Qle_bool b a) eqn:E; cbn; constructor.
  - apply Qle_bool_iff in E. lra.
  - destruct (Qlt_le_dec a b) as [H | H]; [assumption | ].
    apply Qle_bool_iff in H. congruence.
Qed.

Lemma leP (a b : Q) : reflect (a <= b) (a <=? b).
Proof.
  unfold JS.le. destruct (Qle_bool a b) eqn:E; constructor.
  - now apply Qle_bool_iff.
  - intro H. apply Qle_bool_iff in H. congruence.
Qed.

Lemma gtP (a b : Q) : reflect (b < a) (a >? b).
Proof. exact (ltP b a). Qed.

Lemma geP (a b : Q) : reflect (b <= a) (a >=? b).
Proof. exact (leP b a). Qed.

Lemma neqP (a b : Q) : reflect (~ a == b) (a !==? b).
Proof.
  unfold JS.neq. destruct (Qeq_bool a b) eqn:E; cbn; constructor.
  - apply Qeq_bool_iff in E. tauto.
  - intro H. apply Qeq_bool_iff in H. congruence.
Qed.

Lemma abs_cases (a : Q) :
  (0 <= a /\ JS.Math_abs a == a) \/ (a <= 0 /\ JS.Math_abs a == - a).
Proof.
  unfold JS.Math_abs. destruct (Qlt_le_dec a 0) as [H | H].
  - right. split; [lra | apply Qabs_neg; lra].
  - left. split; [assumption | now apply Qabs_pos].
Qed.

Lemma max_cases (a b : Q) :
  (a < b /\ JS.Math_max a b = b) \/ (b <= a /\ JS.Math_max a b = a).
Proof. unfold JS.Math_max. destruct (ltP a b); [left | right]; split; auto; lra. Qed.

Lemma min_cases (a b : Q) :
  (b < a /\ JS.Math_min a b = b) \/ (a <= b /\ JS.Math_min a b = a).
Proof. unfold JS.Math_min. destruct (ltP b a); [left | right]; split; auto; lra. Qed.

(** [clamp] lands between its bounds as soon as they are ordered. *)
Lemma clamp_bounds (v lo hi : Q) : lo <= hi -> lo <= clamp v lo hi <= hi.
Proof.
  intro H. unfold clamp.
  destruct (min_cases hi v) as [[? ->] | [? ->]];
    destruct (max_cases lo v) as [[? E] | [? E]];
    destruct (max_cases lo hi) as [[? E'] | [? E']];
    rewrite ?E, ?E'; lra.
Qed.

End JSFacts.

(** Turns the divisions by a literal into multiplications, which the
    linear arithmetic procedure understands. *)
Ltac qdiv := unfold Qdiv in *; cbn [Qinv Qnum Qden] in *.

(** Case analysis on the first comparison or absolute value found in the
    goal. *)
Ltac js_case :=
  match goal with
  | |- context [JS.lt ?a ?b] => destruct (JSFacts.ltP a b)
  | |- context [JS.le ?a ?b] => destruct (JSFacts.leP a b)
  | |- context [JS.neq ?a ?b] => destruct (JSFacts.neqP a b)
  end.

(** ** AABB geometry *)

Module AABBFacts.
Import AABB.

Lemma collision_unfold (a b : t) :
  getAABBCollision a b =
  if (penetrationX a b <=? 0) || (penetrationY a b <=? 0) then
    mkResult false 0 0 (Vector2.mk 0 0)
  else if penetrationX a b <? penetrationY a b then
    let normalX :=
      if x a + width a / 2 - (x b + width b / 2) >? 0 then 1 else -1 in
    mkResult true (penetrationX a b * normalX) 0 (Vector2.mk normalX 0)
  else
    let normalY :=
      if y a + height a / 2 - (y b + height b / 2) >? 0 then 1 else -1 in
    mkResult true 0 (penetrationY a b * normalY) (Vector2.mk 0 normalY).
Proof. reflexivity. Qed.

(** The strict overlap test says exactly that both penetration depths
    are positive. *)
Lemma overlap_penetration (a b : t) :
  checkAABBOverlap a b = true <->
  0 < penetrationX a b /\ 0 < penetrationY a b.
Proof.
  unfold checkAABBOverlap, penetrationX, penetrationY, JS.gt.
  destruct (JSFacts.abs_cases (x a + width a / 2 - (x b + width b / 2)))
    as [[Hx Ex] | [Hx Ex]];
  destruct (JSFacts.abs_cases (y a + height a / 2 - (y b + height b / 2)))
    as [[Hy Ey] | [Hy Ey]];
  rewrite Ex, Ey; clear Ex Ey;
  repeat js_case; cbn; qdiv; split; intros; try discriminate; try lra.
Qed.

Lemma collision_colliding (a b : t) :
  colliding (getAABBCollision a b) = checkAABBOverlap a b.
Proof.
  rewrite collision_unfold.
  destruct (checkAABBOverlap a b) eqn:E.
  - apply overlap_penetration in E. destruct E as [Hx Hy].
    destruct (JSFacts.leP (penetrationX a b) 0); [lra | ].
    destruct (JSFacts.leP (penetrationY a b) 0); [lra | ].
    cbn. now destruct (penetrationX a b <? penetrationY a b).
  - destruct (JSFacts.leP (penetrationX a b) 0); [reflexivity | ].
    destruct (JSFacts.leP (penetrationY a b) 0); [reflexivity | ].
    assert (H : checkAABBOverlap a b = true)
      by (apply overlap_penetration; lra).
    congruence.
Qed.

(** A reported collision means that both penetration depths are
    positive. *)
Lemma colliding_penetration (a b : t) :
  colliding (getAABBCollision a b) = true <->
  0 < penetrationX a b /\ 0 < penetrationY a b.
Proof.
  rewrite collision_unfold.
  destruct (JSFacts.leP (penetrationX a b) 0);
    destruct (JSFacts.leP (penetrationY a b) 0); cbn [orb];
    try (split; [discriminate | lra]).
  split; [lra | intros _].
  now destruct (penetrationX a b <? penetrationY a b).
Qed.



(** C9 (amended). Whenever [getAABBCollision] reports a collision, the
    normal is one of the four unit axis vectors and exactly one of
    overlapX, overlapY is non-zero.  For boxes whose position and size
    are integers of magnitude at most 2^50, [getAABBCollision] reports a
    collision exactly when [checkAABBOverlap] holds, and boxes that only
    touch along an edge collide in neither. *)
Theorem collision_result_shape (a b : t) :
  let r := getAABBCollision a b in
  (colliding r = true ->
   (normal r = Vector2.mk 1 0 \/ normal r = Vector2.mk (-1) 0
    \/ normal r = Vector2.mk 0 1 \/ normal r = Vector2.mk 0 (-1))
   /\ ((~ overlapX r == 0 /\ overlapY r == 0)
       \/ (overlapX r == 0 /\ ~ overlapY r == 0)))
  /\ (integralBox a = true -> integralBox b = true ->
      colliding r = checkAABBOverlap a b
      /\ (x a + width a == x b \/ x b + width b == x a
          \/ y a + height a == y b \/ y b + height b == y a ->
          checkAABBOverlap a b = false /\ colliding r = false)).
Proof.
  intro r. subst r. split.
  - intro Hc. apply colliding_penetration in Hc. destruct Hc as [Hx Hy].
    rewrite collision_unfold.
    destruct (JSFacts.leP (penetrationX a b) 0); [lra | ].
    destruct (JSFacts.leP (penetrationY a b) 0); [lra | ].
    cbn. unfold JS.gt.
    destruct (JSFacts.ltP (penetrationX a b) (penetrationY a b));
      js_case; cbn; (split; [tauto | ]);
      [left | left | right | right]; split; try reflexivity;
      intro H; lra.
  - intros _ _. split; [apply collision_colliding | ].
    intro Ht. rewrite collision_colliding.
    assert (E : checkAABBOverlap a b = false); [ | now rewrite E].
    unfold checkAABBOverlap, JS.gt.
    repeat js_case; cbn; try reflexivity; lra.
Qed.

Lemma collision_result_shape_witness :
  let a := mk 0 0 10 10 in
  let b := mk 10 4 10 10 in
  let c := mk 6 4 10 10 in
  colliding (getAABBCollision a b) = false
  /\ checkAABBOverlap a b = false
  /\ colliding (getAABBCollision a c) = checkAABBOverlap a c
  /\ normal (getAABBCollision a c) = Vector2.mk (-1) 0.
Proof.
  intros a b c.
  destruct (collision_result_shape a b) as [_ Hb].
  destruct (Hb eq_refl eq_refl) as [_ Ht].
  assert (T : x a + width a == x b \/ x b + width b == x a
              \/ y a + height a == y b \/ y b + height b == y a)
    by (left; reflexivity).
  destruct (Ht T) as [Ho Hc].
  destruct (collision_result_shape a c) as [Hs Hi].
  destruct (Hi eq_refl eq_refl) as [Hcc _].
  split; [exact Hc | ]. split; [exact Ho | ]. split; [exact Hcc | ].
  destruct (Hs eq_refl) as [[E | [E | [E | E]]] _]; try exact E;
    vm_compute in E; discriminate E.
Defined.

End AABBFacts.

(** ** AABB collision on binary64 numbers *)

Module AABB64Facts.
Import PrimFloat AABB64.
#[local] Open Scope float_scope.

(** C9 as stated fails on the binary64 numbers the program computes
    with, in both directions, for boxes that touch along an edge.  The
    box from 0.1 of width 0.1 and the box starting at 0.2 fail the overlap
    test ([0.1 + 0.1] is 0.2) but are reported colliding, the computed
    horizontal depth being positive (about 2.8e-17); the box from 0.1 of
    width 0.2 and the box starting at 0.3
    pass the overlap test ([0.1 + 0.2] rounds above 0.3) but are reported
    not colliding, with the zero normal. *)
Lemma collision_disagrees_with_overlap :
  (let a := mk 0.1 0 0.1 1 in
   let b := mk 0.2 0 0.1 1 in
   checkAABBOverlap a b = false
   /\ colliding (getAABBCollision a b) = true
   /\ (0 <? penetrationX a b) = true)
  /\ (let a := mk 0.1 0 0.2 1 in
      let b := mk 0.3 0 0.2 1 in
      checkAABBOverlap a b = true
      /\ colliding (getAABBCollision a b) = false
      /\ normal (getAABBCollision a b) = mkVector2 0 0).
Proof. vm_compute. repeat split. Qed.


End AABB64Facts.

(** ** Stepping through a sequence of assignments

    The bodies of the update functions are chains of [let]; the proofs
    walk down the chain carrying an invariant of the intermediate state
    instead of substituting the chain. *)

Lemma let_inv {A B : Type} (I : A -> Prop) (P : B -> Prop) (e : A) (f : A -> B) :
  I e -> (forall x, I x -> P (f x)) -> P (let x := e in f x).
Proof. intros He Hf. exact (Hf e He). Qed.

Ltac step I :=
  match goal with
  | |- ?P (let x := ?e in @?f x) => apply (let_inv I P e f); [ | intros ? ?]
  end.

Ltac step_eq :=
  match goal with
  | |- ?P (let x := ?e in @?f x) =>
      apply (let_inv (fun v => v = e) P e f); [reflexivity | intros ? ?]
  end.

Ltac if_case :=
  match goal with
  | |- context [if ?b then _ else _] => destruct b eqn:?; cbn
  end.

(** ** The remainder operator and angle normalisation *)

Module RemFacts.

Lemma trunc_nonneg (q : Q) :
  0 <= q -> inject_Z (JS.trunc q) <= q < inject_Z (JS.trunc q) + 1.
Proof.
  intro H. assert (E : JS.trunc q = Qfloor q).
  { destruct q as [n d]. unfold JS.trunc, Qfloor. cbn [Qnum Qden].
    apply Z.quot_div_nonneg; [ | lia].
    unfold Qle in H. cbn in H. lia. }
  rewrite E. split; [apply Qfloor_le | ].
  pose proof (Qlt_floor q) as L. rewrite inject_Z_plus in L. exact L.
Qed.

Lemma trunc_opp (q : Q) : JS.trunc (- q) = (- JS.trunc q)%Z.
Proof.
  destruct q as [n d]. unfold JS.trunc. cbn [Qopp Qnum Qden].
  apply Z.quot_opp_l. lia.
Qed.

Lemma trunc_nonpos (q : Q) : q <= 0 -> q <= inject_Z (JS.trunc q) < q + 1.
Proof.
  intro H. pose proof (trunc_nonneg (- q)) as L.
  rewrite trunc_opp, inject_Z_opp in L. lra.
Qed.

Lemma rem360_nonneg (a : Q) : 0 <= a -> 0 <= JS.rem a 360 < 360.
Proof.
  intro H. unfold JS.rem.
  pose proof (trunc_nonneg (a / 360)) as L. qdiv. lra.
Qed.

Lemma rem360_lower (a : Q) : -360 < JS.rem a 360.
Proof.
  unfold JS.rem. destruct (Qlt_le_dec a 0) as [H | H].
  - pose proof (trunc_nonpos (a / 360)) as L. qdiv. lra.
  - pose proof (trunc_nonneg (a / 360)) as L. qdiv. lra.
Qed.

Lemma normalize_range (a : Q) : 0 <= JS.rem (JS.rem a 360 + 360) 360 < 360.
Proof. apply rem360_nonneg. pose proof (rem360_lower a). lra. Qed.

End RemFacts.

(** ** The movement modes *)

Module ModeFacts.

#[local] Arguments clamp : simpl never.
#[local] Arguments JS.rem : simpl never.
#[local] Arguments JS.Math_round : simpl never.
#[local] Arguments JS.Math_min : simpl never.
#[local] Arguments JS.Math_max : simpl never.

(** *** Dead states are frozen *)

Lemma update_dead (m : IPlayerMode) s i dt c :
  isDead s = true -> IPlayerMode_.update m s i dt c = s.
Proof.
  intro H. destruct m; cbv beta delta [IPlayerMode_.update CubeMode.update ShipMode.update BallMode.update] iota;
    now rewrite H.
Qed.

(** *** Vertical velocity after a mode update *)

Lemma executeJump_bound s c B :
  0 <= jumpForce c <= B -> vyBound B (CubeMode.executeJump s c).
Proof.
  intro H. unfold vyBound, CubeMode.executeJump. cbn.
  destruct (gravityInverted s); lra.
Qed.

Lemma cube_velocity_bound s i dt c :
  isDead s = false ->
  0 <= jumpForce c <= terminalVelocity c ->
  vyBound (terminalVelocity c) (CubeMode.update s i dt c).
Proof.
  intros Hd Hj. cbv beta delta [CubeMode.update]. rewrite Hd. clear Hd.
  assert (Hc : forall v, vyBound (terminalVelocity c)
     (set_velocity_y v (clamp (Vector2.y (velocity v)) (- terminalVelocity c) (terminalVelocity c)))).
  { intro v. apply JSFacts.clamp_bounds. lra. }
  pose proof (fun s => executeJump_bound s c _ Hj) as Hjump.
  step_eq.
  step (fun _ : PhysicsState => True); [exact I | ].
  step (vyBound (terminalVelocity c)).
  { if_case; apply Hc. }
  step (vyBound (terminalVelocity c)).
  { if_case; assumption. }
  step (vyBound (terminalVelocity c)).
  { repeat if_case; assumption. }
  step_eq.
  step (vyBound (terminalVelocity c)).
  { repeat if_case; auto. }
  step (vyBound (terminalVelocity c)).
  { repeat if_case; auto. }
  step (vyBound (terminalVelocity c)).
  { repeat if_case; auto. apply Hjump. }
  step (vyBound (terminalVelocity c)).
  { assumption. }
  unfold CubeMode.updateRotation. if_case; assumption.
Qed.

Lemma ship_velocity_bound s i dt c :
  isDead s = false ->
  0 <= terminalVelocity c ->
  vyBound (terminalVelocity c * 0.8) (ShipMode.update s i dt c).
Proof.
  intros Hd Hj. cbv beta delta [ShipMode.update]. rewrite Hd. clear Hd.
  step_eq. step_eq.
  step (fun _ : PhysicsState => True); [exact I | ].
  step_eq. subst.
  step (vyBound (terminalVelocity c * 0.8)).
  { apply JSFacts.clamp_bounds. lra. }
  step (vyBound (terminalVelocity c * 0.8)); [assumption | ].
  assumption.
Qed.

Lemma ball_velocity_bound s i dt c :
  isDead s = false ->
  0 <= jumpForce c <= terminalVelocity c ->
  vyBound (terminalVelocity c) (BallMode.update s i dt c).
Proof.
  intros Hd Hj. cbv beta delta [BallMode.update]. rewrite Hd. clear Hd.
  step_eq.
  step (fun _ : PhysicsState => True); [exact I | ].
  step (vyBound (terminalVelocity c)).
  { apply JSFacts.clamp_bounds. lra. }
  step (vyBound (terminalVelocity c)).
  { if_case; [ | assumption]. unfold vyBound, BallMode.flipGravity. cbn.
    if_case; lra. }
  step (vyBound (terminalVelocity c)); [assumption | ].
  assumption.
Qed.

Lemma mode_velocity_bound (m : IPlayerMode) s i dt c :
  isDead s = false ->
  0 <= jumpForce c <= terminalVelocity c ->
  vyBound (terminalVelocityFor m c) (IPlayerMode_.update m s i dt c).
Proof.
  intros Hd Hj. destruct m; cbn [terminalVelocityFor IPlayerMode_.update].
  - now apply cube_velocity_bound.
  - apply ship_velocity_bound; [assumption | lra].
  - now apply ball_velocity_bound.
Qed.


(** *** Rotation after a mode update *)

Lemma ball_rotation_range s i dt c :
  isDead s = false ->
  0 <= rotation (BallMode.update s i dt c) < 360.
Proof.
  intro Hd.
  pose (P := fun s' => 0 <= rotation s' < 360).
  change (P (BallMode.update s i dt c)).
  cbv beta delta [BallMode.update]. rewrite Hd. clear Hd.
  step_eq. do 4 (step (fun _ : PhysicsState => True); [exact I | ]).
  cbv beta delta [BallMode.updateRotation].
  step_eq. step_eq. step_eq. step_eq.
  step (fun _ : PhysicsState => True); [exact I | ].
  apply RemFacts.normalize_range.
Qed.

Lemma cube_rotation_range s i dt c :
  isDead s = false ->
  isGrounded (CubeMode.update s i dt c) = false ->
  0 <= rotation (CubeMode.update s i dt c) < 360.
Proof.
  intro Hd.
  pose (P := fun s' => isGrounded s' = false -> 0 <= rotation s' < 360).
  change (P (CubeMode.update s i dt c)).
  cbv beta delta [CubeMode.update]. rewrite Hd. clear Hd.
  step_eq.
  do 4 (step (fun _ : PhysicsState => True); [exact I | ]).
  step_eq.
  do 4 (step (fun _ : PhysicsState => True); [exact I | ]).
  subst P. cbv beta. unfold CubeMode.updateRotation.
  match goal with
  | |- context [if isGrounded ?x then _ else _] => destruct (isGrounded x) eqn:E
  end; cbn; intro Hg.
  - congruence.
  - apply RemFacts.normalize_range.
Qed.

Lemma ship_rotation_range s i dt c :
  isDead s = false ->
  tilt s -> tilt (ShipMode.update s i dt c).
Proof.
  intros Hd Hr.
  cbv beta delta [ShipMode.update]. rewrite Hd. clear Hd.
  step_eq. step_eq.
  step tilt. { if_case; exact Hr. }
  step_eq.
  step tilt; [assumption | ].
  step tilt; [assumption | ].
  cbv beta delta [ShipMode.updateRotation].
  step_eq. step_eq.
  step (fun t => -30 <= t <= 30).
  { subst. apply JSFacts.clamp_bounds. lra. }
  step (fun t => -30 <= t <= 30).
  { if_case; lra. }
  step_eq. step_eq.
  unfold tilt in *. cbn. subst.
  change (JS.Math_min (10 * 0.016) 1) with (10 * 0.016).
  lra.
Qed.

(** C3 (amended). After an update of a live state: in ball mode the
    rotation lies in [0, 360); in cube mode it lies in [0, 360) whenever
    the update ends airborne; in ship mode the rotation is not normalised
    but is a tilt eased towards a target in [-30, 30], so a rotation that
    starts in that range stays in it. *)
Theorem rotation_after_mode_update (m : IPlayerMode) s i dt c :
  isDead s = false ->
  let s' := IPlayerMode_.update m s i dt c in
  match m with
  | ballMode => 0 <= rotation s' < 360
  | cubeMode => isGrounded s' = false -> 0 <= rotation s' < 360
  | shipMode => tilt s -> tilt s'
  end.
Proof.
  intros Hd s'. subst s'. destruct m; cbn [IPlayerMode_.update].
  - now apply cube_rotation_range.
  - now apply ship_rotation_range.
  - now apply ball_rotation_range.
Qed.

Lemma rotation_after_mode_update_witness :
  0 <= rotation (BallMode.update createDefaultPhysicsState
                   createDefaultInputState (1 / 60) createDefaultPhysicsConfig)
    < 360.
Proof.
  apply (rotation_after_mode_update ballMode createDefaultPhysicsState
           createDefaultInputState (1 / 60) createDefaultPhysicsConfig).
  reflexivity.
Defined.

(** C3 as stated fails in ship mode: a new player switched to ship mode
    that thrusts for one frame of 1/60 s ends the update with a negative
    rotation. *)
Lemma rotation_not_normalized_in_ship_mode :
  let p := Player.setMode (Player.create Player.DEFAULT_CONFIG) ship in
  let s' := IPlayerMode_.update (Player.currentMode p) (Player.physicsState p)
              (mkInput false true false) (1 / 60) (Player.physicsConfig p) in
  Player.currentMode p = shipMode
  /\ isDead (Player.physicsState p) = false
  /\ ~ (0 <= rotation s' < 360).
Proof.
  cbv zeta. split; [reflexivity | ]. split; [reflexivity | ].
  intros [H _]. vm_compute in H. apply H. reflexivity.
Qed.

(** C5 (Scenario A). From a live, grounded state under normal gravity
    (whatever its velocity, in particular at rest), one Cube update with
    the default configuration (gravity 2600, jump force 800, terminal
    velocity 1200, coyote time 0.08, jump buffer 0.1), deltaTime 1/60,
    jumpPressed true and jumpHeld false ends with velocity.y exactly -800
    and isGrounded false. *)
Theorem scenario_A (s : PhysicsState) (pause : bool) :
  isDead s = false ->
  isGrounded s = true ->
  gravityInverted s = false ->
  let s' := CubeMode.update s (mkInput true false pause) (1 / 60)
              createDefaultPhysicsConfig in
  Vector2.y (velocity s') = -800 /\ isGrounded s' = false.
Proof.
  intros Hd Hg Hi s'. subst s'.
  pose (P := fun s' => Vector2.y (velocity s') = -800 /\ isGrounded s' = false).
  change (P (CubeMode.update s (mkInput true false pause) (1 / 60)
               createDefaultPhysicsConfig)).
  cbv beta delta [CubeMode.update]. rewrite Hd. clear Hd.
  pose (G := fun st => isGrounded st = true /\ gravityInverted st = false).
  step_eq.
  step G. { split; assumption. }
  step G. { if_case; assumption. }
  step G. { unfold G in *. if_case; [ | assumption]. cbn. tauto. }
  step G. { unfold G in *. repeat if_case; tauto. }
  step_eq.
  step P.
  { unfold G, P in *. cbn [jumpPressed]. subst.
    match goal with H : _ /\ _ |- _ => destruct H as [-> E] end.
    cbn. rewrite E. split; reflexivity. }
  step P. { cbn [jumpHeld]. cbn. assumption. }
  step P.
  { unfold P in *. match goal with H : _ /\ _ |- _ => destruct H as [V E] end.
    rewrite E. cbn. split; assumption. }
  step P. { assumption. }
  unfold P in *. unfold CubeMode.updateRotation.
  match goal with H : _ /\ _ |- _ => destruct H as [V E] end.
  rewrite E. cbn. split; assumption.
Qed.

Lemma scenario_A_witness :
  let s' := CubeMode.update
              (set_isGrounded createDefaultPhysicsState true)
              (mkInput true false false) (1 / 60) createDefaultPhysicsConfig in
  Vector2.y (velocity s') = -800 /\ isGrounded s' = false.
Proof.
  apply (scenario_A (set_isGrounded createDefaultPhysicsState true) false);
    reflexivity.
Defined.

End ModeFacts.

(** ** The player and the physics tick *)

Module PlayerFacts.
Import Player.

#[local] Arguments clamp : simpl never.
#[local] Arguments JS.rem : simpl never.
#[local] Arguments JS.Math_round : simpl never.
#[local] Arguments JS.Math_min : simpl never.
#[local] Arguments JS.Math_max : simpl never.
#[local] Arguments CollisionDetector.checkGrounded : simpl never.

(** *** Collision events *)

Lemma event_inv hb o ev :
  CollisionDetector.checkPlayerObjectCollision hb o = Some ev ->
  Collidable.active o = true
  /\ AABB.checkAABBOverlap hb (CollisionDetector.getObjectHitbox o) = true
  /\ CollisionDetector.isHazard ev
     = CollisionDetector.hasLayer (Collidable.collisionLayer o) CollisionLayer.HAZARD
  /\ CollisionDetector.isSolid ev
     = CollisionDetector.hasLayer (Collidable.collisionLayer o) CollisionLayer.SOLID
  /\ CollisionDetector.collision ev
     = AABB.getAABBCollision hb (CollisionDetector.getObjectHitbox o).
Proof.
  unfold CollisionDetector.checkPlayerObjectCollision.
  destruct (Collidable.active o); cbn [negb orb]; [ | discriminate].
  destruct (Z.eqb _ _); [discriminate | ].
  destruct (AABB.checkAABBOverlap _ _); cbn [negb]; [ | discriminate].
  intro H. injection H as <-. cbn. tauto.
Qed.

Lemma hazard_event hb o :
  overlapsActive hb CollisionLayer.HAZARD o = true ->
  exists ev, CollisionDetector.checkPlayerObjectCollision hb o = Some ev
             /\ CollisionDetector.isHazard ev = true.
Proof.
  unfold overlapsActive. intro H.
  apply andb_prop in H. destruct H as [H Hov].
  apply andb_prop in H. destruct H as [Ha Hl].
  unfold CollisionDetector.checkPlayerObjectCollision.
  rewrite Ha, Hov. cbn [negb orb].
  destruct (Z.eqb (Collidable.collisionLayer o) CollisionLayer.NONE) eqn:E.
  - apply Z.eqb_eq in E. rewrite E in Hl. discriminate.
  - eexists. split; [reflexivity | ]. exact Hl.
Qed.

(** *** What the collision loop preserves *)

Lemma die_dead p : isDead (physicsState (die p)) = true.
Proof.
  unfold die. destruct (isDead (physicsState p)) eqn:E; [exact E | reflexivity].
Qed.

Lemma die_position p : position (physicsState (die p)) = position (physicsState p).
Proof. unfold die. now destruct (isDead (physicsState p)). Qed.

Lemma die_velocity p : velocity (physicsState (die p)) = velocity (physicsState p).
Proof. unfold die. now destruct (isDead (physicsState p)). Qed.

Lemma hazard_kills hb objs h :
  In h objs ->
  overlapsActive hb CollisionLayer.HAZARD h = true ->
  forall p,
    isDead (physicsState
              (processCollisions p (CollisionDetector.checkPlayerCollisions hb objs)))
    = true.
Proof.
  intros Hin Hh. induction objs as [ | o objs IH]; [destruct Hin | ].
  intro p. cbn [CollisionDetector.checkPlayerCollisions].
  destruct Hin as [-> | Hin].
  - destruct (hazard_event hb h Hh) as [ev [-> Hev]].
    cbn. rewrite Hev. apply die_dead.
  - destruct (CollisionDetector.checkPlayerObjectCollision hb o) as [ev | ]; [ | auto].
    cbn. destruct (CollisionDetector.isHazard ev); [apply die_dead | auto].
Qed.

Lemma resolveSolid_not_solid p c :
  CollisionDetector.isSolid c = false -> resolveSolid p c = p.
Proof. intro H. unfold resolveSolid. now rewrite H. Qed.

Lemma hazard_before_solids hb pre h post :
  Forall (fun o => overlapsActive hb CollisionLayer.SOLID o = false) pre ->
  overlapsActive hb CollisionLayer.HAZARD h = true ->
  forall p,
    let q := processCollisions p
               (CollisionDetector.checkPlayerCollisions hb (pre ++ h :: post)) in
    position (physicsState q) = position (physicsState p)
    /\ velocity (physicsState q) = velocity (physicsState p).
Proof.
  intros Hpre Hh. induction Hpre as [ | o pre Ho Hpre IH]; intro p;
    cbn [app CollisionDetector.checkPlayerCollisions].
  - destruct (hazard_event hb h Hh) as [ev [-> Hev]].
    cbn. rewrite Hev. split; [apply die_position | apply die_velocity].
  - destruct (CollisionDetector.checkPlayerObjectCollision hb o) as [ev | ] eqn:E;
      [ | apply IH].
    cbn. destruct (CollisionDetector.isHazard ev);
      [split; [apply die_position | apply die_velocity] | ].
    apply event_inv in E. destruct E as [Ha [Hov [_ [Hs _]]]].
    unfold overlapsActive in Ho. rewrite Ha, Hov in Ho.
    rewrite andb_true_l, andb_true_r in Ho.
    rewrite resolveSolid_not_solid by congruence. apply IH.
Qed.

(** *** The phases of a tick *)

Lemma update_phases p i dt a :
  updateBeforeGroundConstraint p i dt a =
  updateGrounding (getHitbox (updateMotion p i dt a))
    (resolveCollisions (updateMotion p i dt a)).
Proof. reflexivity. Qed.

Lemma update_alive p i dt a :
  isDead (physicsState p) = false ->
  update p i dt a =
  applyGroundConstraint
    (updateGrounding (getHitbox (updateMotion p i dt a))
       (resolveCollisions (updateMotion p i dt a))).
Proof. intro H. unfold update. rewrite H. now rewrite update_phases. Qed.

(** *** What the phases after the motion phase leave alone *)

Lemma frame_refl p : frame p p.
Proof. unfold frame. tauto. Qed.

Lemma frame_trans p q r : frame p q -> frame q r -> frame p r.
Proof.
  unfold frame. intros (A1 & A2 & A3 & A4 & A5 & A6 & A7 & A8 & A9)
    (B1 & B2 & B3 & B4 & B5 & B6 & B7 & B8 & B9).
  do 7 (split; [congruence | ]). split; [auto | ].
  intros V HV Hp. apply (B9 V HV), (A9 V HV), Hp.
Qed.

Ltac frame_solve :=
  unfold frame, vyBound; cbn; repeat split; auto; intros; cbn; try tauto; try lra.

Lemma frame_die p : frame p (die p).
Proof. unfold die. destruct (isDead (physicsState p)) eqn:E; frame_solve. Qed.

Lemma frame_resolveSolid p c : frame p (resolveSolid p c).
Proof. unfold resolveSolid. repeat if_case; frame_solve. Qed.

Lemma frame_processCollisions cs : forall p, frame p (processCollisions p cs).
Proof.
  induction cs as [ | c cs IH]; intro p; cbn.
  - apply frame_refl.
  - destruct (CollisionDetector.isHazard c); [apply frame_die | ].
    eapply frame_trans; [apply frame_resolveSolid | apply IH].
Qed.

Lemma frame_resolveCollisions p : frame p (resolveCollisions p).
Proof. apply frame_processCollisions. Qed.

Lemma frame_updateGrounding hb p : frame p (updateGrounding hb p).
Proof.
  cbv beta delta [updateGrounding].
  step (frame p). { frame_solve. }
  step (frame p). { eapply frame_trans; [eassumption | frame_solve]. }
  step (frame p).
  { if_case; [ | assumption]. eapply frame_trans; [eassumption | frame_solve]. }
  step (frame p).
  { if_case; [ | assumption]. eapply frame_trans; [eassumption | frame_solve]. }
  if_case; [ | assumption]. eapply frame_trans; [eassumption | frame_solve].
Qed.

Lemma frame_applyGroundConstraint p : frame p (applyGroundConstraint p).
Proof. unfold applyGroundConstraint. if_case; frame_solve. Qed.

(** *** The motion phase *)

Ltac mode_step s :=
  step (modeFrame s);
  [ unfold modeFrame, CubeMode.executeJump, BallMode.flipGravity in *;
    repeat if_case; cbn; tauto | ].

Lemma modeFrame_update (m : IPlayerMode) s i dt c :
  modeFrame s (IPlayerMode_.update m s i dt c).
Proof.
  destruct (isDead s) eqn:Hd.
  { rewrite ModeFacts.update_dead by assumption. unfold modeFrame. tauto. }
  destruct m;
    cbv beta delta [IPlayerMode_.update CubeMode.update ShipMode.update
                    BallMode.update] iota;
    rewrite Hd.
  - step_eq. mode_step s. do 3 (mode_step s). step_eq. do 4 (mode_step s).
    unfold modeFrame, CubeMode.updateRotation in *. if_case; tauto.
  - step_eq. step_eq. mode_step s. step_eq. do 2 (mode_step s).
    unfold modeFrame, ShipMode.updateRotation in *. cbn. tauto.
  - step_eq. do 4 (mode_step s).
    unfold modeFrame, BallMode.updateRotation in *. cbn. tauto.
Qed.

Lemma motion_setup p i dt a :
  let q := updateMotion p i dt a in
  currentMode q = currentMode p
  /\ physicsConfig q = physicsConfig p
  /\ levelObjects q = levelObjects p
  /\ startX q = startX p
  /\ currentSpeed q = currentSpeed p
  /\ isDead (physicsState q) = isDead (physicsState p)
  /\ mode (physicsState q) = mode (physicsState p).
Proof.
  unfold updateMotion. destruct a as [t | ]; cbn;
    match goal with
    | |- context [IPlayerMode_.update ?m ?s ?i ?dt ?c] =>
        destruct (modeFrame_update m s i dt c) as (_ & Hd & Hm)
    end; cbn in *; tauto.
Qed.

Lemma motion_x p i dt a :
  Vector2.x (position (physicsState (updateMotion p i dt a))) =
  match a with
  | Some audioTime => startX p + audioTime * currentSpeed p
  | None => Vector2.x (position (physicsState p))
  end.
Proof.
  unfold updateMotion. destruct a as [t | ]; cbn;
    match goal with
    | |- context [IPlayerMode_.update ?m ?s ?i ?dt ?c] =>
        destruct (modeFrame_update m s i dt c) as (Hx & _ & _)
    end; cbn in *; exact Hx.
Qed.

Lemma motion_velocity_bound p i dt a :
  isDead (physicsState p) = false ->
  0 <= jumpForce (physicsConfig p) <= terminalVelocity (physicsConfig p) ->
  vyBound (terminalVelocityFor (currentMode p) (physicsConfig p))
    (physicsState (updateMotion p i dt a)).
Proof.
  intros Hd Hj. unfold updateMotion. destruct a as [t | ]; cbn;
    apply ModeFacts.mode_velocity_bound; cbn; assumption.
Qed.

(** *** The whole tick *)

Lemma frame_after_motion p i dt a :
  isDead (physicsState p) = false ->
  frame (updateMotion p i dt a) (update p i dt a).
Proof.
  intro Hd. rewrite update_alive by assumption.
  eapply frame_trans; [apply frame_resolveCollisions | ].
  eapply frame_trans; [apply frame_updateGrounding | ].
  apply frame_applyGroundConstraint.
Qed.

(** C7 (amended). In a tick on a player that is not dead when the tick
    starts, a supplied music time makes the horizontal position after the
    full tick exactly start_x + music_time * current_speed, and without a
    music time the tick leaves position.x as it was: no step other than
    the music-time assignment changes position.x. *)
Theorem horizontal_position_from_music_time p i dt (a : option Q) :
  isDead (physicsState p) = false ->
  Vector2.x (position (physicsState (update p i dt a))) =
  match a with
  | Some audioTime => startX p + audioTime * currentSpeed p
  | None => Vector2.x (position (physicsState p))
  end.
Proof.
  intro Hd.
  destruct (frame_after_motion p i dt a Hd) as (_ & _ & _ & _ & _ & Hx & _).
  rewrite Hx. apply motion_x.
Qed.

Lemma horizontal_position_from_music_time_witness :
  Vector2.x (position (physicsState
     (update (create DEFAULT_CONFIG) createDefaultInputState (1 / 60) (Some 2))))
  = startX (create DEFAULT_CONFIG) + 2 * currentSpeed (create DEFAULT_CONFIG).
Proof.
  apply (horizontal_position_from_music_time (create DEFAULT_CONFIG)
           createDefaultInputState (1 / 60) (Some 2)).
  reflexivity.
Defined.

(** C7 as stated fails on a dead player: [update] returns at its guard and
    position.x is not recomputed from the music time. *)
Lemma dead_player_ignores_music_time :
  let p := die (create DEFAULT_CONFIG) in
  let q := update p createDefaultInputState (1 / 60) (Some 2) in
  ~ Vector2.x (position (physicsState q)) == startX p + 2 * currentSpeed p.
Proof. cbv zeta. intro H. vm_compute in H. discriminate H. Qed.

(** C10. After a completed tick on a player that is not dead, position.y
    is at most DEFAULT_GROUND_Y * UNIT_SIZE - PLAYER_SIZE / 2 (= 460); and
    when the position reached before the ground constraint exceeds that
    bound, the tick ends with position.y equal to the bound, velocity.y 0
    and isGrounded true (otherwise the constraint changes nothing). *)
Theorem ground_constraint_after_tick p i dt a :
  isDead (physicsState p) = false ->
  let pre := updateBeforeGroundConstraint p i dt a in
  let q := update p i dt a in
  groundY == 460
  /\ Vector2.y (position (physicsState q)) <= groundY
  /\ (groundY < Vector2.y (position (physicsState pre)) ->
      Vector2.y (position (physicsState q)) = groundY
      /\ Vector2.y (velocity (physicsState q)) = 0
      /\ isGrounded (physicsState q) = true)
  /\ (Vector2.y (position (physicsState pre)) <= groundY -> q = pre).
Proof.
  intros Hd pre q. subst q. unfold update. rewrite Hd. fold pre.
  clearbody pre. split; [reflexivity | ].
  unfold applyGroundConstraint, JS.gt.
  destruct (JSFacts.ltP groundY (Vector2.y (position (physicsState pre))));
    cbn; repeat split; intros; try reflexivity; try lra.
Qed.

Lemma ground_constraint_after_tick_witness :
  let p := create DEFAULT_CONFIG in
  let pre := updateBeforeGroundConstraint p createDefaultInputState (1 / 60) None in
  let q := update p createDefaultInputState (1 / 60) None in
  groundY == 460
  /\ Vector2.y (position (physicsState q)) <= groundY
  /\ (groundY < Vector2.y (position (physicsState pre)) ->
      Vector2.y (position (physicsState q)) = groundY
      /\ Vector2.y (velocity (physicsState q)) = 0
      /\ isGrounded (physicsState q) = true)
  /\ (Vector2.y (position (physicsState pre)) <= groundY -> q = pre).
Proof.
  apply (ground_constraint_after_tick (create DEFAULT_CONFIG)
           createDefaultInputState (1 / 60) None).
  reflexivity.
Defined.

(** *** Terminal velocity over a run of ticks *)

Lemma terminalVelocityFor_nonneg m c :
  0 <= terminalVelocity c -> 0 <= terminalVelocityFor m c.
Proof. intro H. destruct m; cbn; lra. Qed.

Lemma update_setup p i dt a :
  currentMode (update p i dt a) = currentMode p
  /\ physicsConfig (update p i dt a) = physicsConfig p.
Proof.
  destruct (isDead (physicsState p)) eqn:Hd.
  - unfold update. rewrite Hd. tauto.
  - destruct (frame_after_motion p i dt a Hd) as (F1 & F2 & _).
    destruct (motion_setup p i dt a) as (M1 & M2 & _).
    split; congruence.
Qed.

Lemma update_velocity_bound p i dt a :
  isDead (physicsState p) = false ->
  0 <= jumpForce (physicsConfig p) <= terminalVelocity (physicsConfig p) ->
  vyBound (terminalVelocityFor (currentMode p) (physicsConfig p))
    (physicsState (update p i dt a)).
Proof.
  intros Hd Hj.
  destruct (frame_after_motion p i dt a Hd) as (_ & _ & _ & _ & _ & _ & _ & _ & Hb).
  apply Hb.
  - apply terminalVelocityFor_nonneg. lra.
  - now apply motion_velocity_bound.
Qed.

Lemma update_keeps_velocity_bound p i dt a :
  0 <= jumpForce (physicsConfig p) <= terminalVelocity (physicsConfig p) ->
  vyBound (terminalVelocityFor (currentMode p) (physicsConfig p)) (physicsState p) ->
  vyBound (terminalVelocityFor (currentMode p) (physicsConfig p))
    (physicsState (update p i dt a)).
Proof.
  intros Hj Hb. destruct (isDead (physicsState p)) eqn:Hd.
  - unfold update. now rewrite Hd.
  - now apply update_velocity_bound.
Qed.

Lemma runTicks_keeps_velocity_bound ticks : forall p,
  0 <= jumpForce (physicsConfig p) <= terminalVelocity (physicsConfig p) ->
  vyBound (terminalVelocityFor (currentMode p) (physicsConfig p)) (physicsState p) ->
  vyBound (terminalVelocityFor (currentMode p) (physicsConfig p))
    (physicsState (runTicks p ticks)).
Proof.
  induction ticks as [ | k ticks IH]; intros p Hj Hb; cbn [runTicks].
  - exact Hb.
  - destruct (update_setup p (tickInput k) (tickDeltaTime k) (tickAudioTime k))
      as [Em Ec].
    rewrite <- Em, <- Ec. apply IH; rewrite ?Em, ?Ec.
    + exact Hj.
    + now apply update_keeps_velocity_bound.
Qed.

(** C2 (amended). With a configuration in which
    0 <= jumpForce <= terminalVelocity, after one or more update ticks
    from a player that is not dead (or whose velocity.y is already within
    the bound), |velocity.y| is at most the terminal velocity of the
    active mode (1.0x for cube and ball, 0.8x for ship), for every input,
    deltaTime, music time and obstacle list.  The impulses applied from
    outside a tick are not clamped: on a live player applyJumpImpulse and
    applyBoostImpulse set velocity.y to the given force, signed by the
    gravity direction. *)
Theorem velocity_bound_after_ticks p (k : Tick) (ticks : list Tick) :
  isDead (physicsState p) = false
  \/ vyBound (terminalVelocityFor (currentMode p) (physicsConfig p))
       (physicsState p) ->
  0 <= jumpForce (physicsConfig p) <= terminalVelocity (physicsConfig p) ->
  vyBound (terminalVelocityFor (currentMode p) (physicsConfig p))
    (physicsState (runTicks p (k :: ticks)))
  /\ (isDead (physicsState p) = false ->
      forall force,
        Vector2.y (velocity (physicsState (applyJumpImpulse p force)))
        = force * (if gravityInverted (physicsState p) then 1 else -1)
        /\ Vector2.y (velocity (physicsState (applyBoostImpulse p force)))
           = force * (if gravityInverted (physicsState p) then 1 else -1)).
Proof.
  intros Hp Hj. split.
  - cbn [runTicks].
    destruct (update_setup p (tickInput k) (tickDeltaTime k) (tickAudioTime k))
      as [Em Ec].
    rewrite <- Em, <- Ec. apply runTicks_keeps_velocity_bound; rewrite ?Em, ?Ec.
    + exact Hj.
    + destruct Hp as [Hd | Hb].
      * now apply update_velocity_bound.
      * now apply update_keeps_velocity_bound.
  - intros Hd force. unfold applyJumpImpulse, applyBoostImpulse. rewrite Hd.
    cbn. split; reflexivity.
Qed.

Lemma velocity_bound_after_ticks_witness :
  vyBound 1200
    (physicsState
       (runTicks (create DEFAULT_CONFIG)
          [mkTick (mkInput true true false) (1 / 60) (Some 0);
           mkTick (mkInput false true false) (1 / 60) (Some (1 / 60))])).
Proof.
  apply (velocity_bound_after_ticks (create DEFAULT_CONFIG)
           (mkTick (mkInput true true false) (1 / 60) (Some 0))
           [mkTick (mkInput false true false) (1 / 60) (Some (1 / 60))]).
  - left. reflexivity.
  - cbn. lra.
Defined.

(** C2 as stated fails twice over.  With a configuration whose jump force
    (800) exceeds its terminal velocity (700), one Cube tick with a jump
    press leaves |velocity.y| = 800.  With the default configuration, a
    player in ship mode hit by the pink pad's impulse of 1100 has
    |velocity.y| = 1100, above the ship's 0.8 * 1200 = 960. *)
Lemma velocity_exceeds_terminal_velocity :
  (let c := mkConfig 2600 800 700 0.08 0.1 in
   let s := CubeMode.update (set_isGrounded createDefaultPhysicsState true)
              (mkInput true false false) (1 / 60) c in
   ~ vyBound (terminalVelocityFor cubeMode c) s)
  /\ (let p := setMode (create DEFAULT_CONFIG) ship in
      let q := applyJumpImpulse
                 (update p createDefaultInputState (1 / 60) (Some 0)) 1100 in
      currentMode q = shipMode
      /\ ~ vyBound (terminalVelocityFor (currentMode q) (physicsConfig q))
            (physicsState q)).
Proof.
  cbv zeta. split; [ | split; [reflexivity | ]].
  - intros [H _]. vm_compute in H. apply H. reflexivity.
  - intros [H _]. vm_compute in H. apply H. reflexivity.
Qed.

(** *** Hazards and solids in one tick *)

(** C1 (amended). In a tick on a player that is not dead, if some active
    Hazard obstacle of the obstacle list overlaps the hitbox used for the
    tick's collision resolution, then the collision resolution, and the
    tick, end with isDead true, wherever the hazard stands in the list.
    If moreover no active Solid obstacle that overlaps the hitbox stands
    before that hazard in the list, the collision resolution leaves
    position and velocity unchanged.  Nothing is said about position
    when such a Solid obstacle stands before the hazard. *)
Theorem hazard_kills_in_any_order p i dt a (h : Collidable.t) :
  isDead (physicsState p) = false ->
  let m := updateMotion p i dt a in
  In h (levelObjects p) ->
  overlapsActive (getHitbox m) CollisionLayer.HAZARD h = true ->
  isDead (physicsState (resolveCollisions m)) = true
  /\ isDead (physicsState (update p i dt a)) = true
  /\ forall pre post,
      levelObjects p = pre ++ h :: post ->
      Forall (fun o => overlapsActive (getHitbox m) CollisionLayer.SOLID o = false)
             pre ->
      position (physicsState (resolveCollisions m)) = position (physicsState m)
      /\ velocity (physicsState (resolveCollisions m)) = velocity (physicsState m).
Proof.
  intros Hd m Hin Hh.
  destruct (motion_setup p i dt a) as (_ & _ & Hobjs & _). fold m in Hobjs.
  assert (Hdead : isDead (physicsState (resolveCollisions m)) = true).
  { unfold resolveCollisions. rewrite Hobjs. now apply hazard_kills with (h := h). }
  split; [exact Hdead | ]. split.
  - rewrite update_alive by assumption. fold m.
    pose proof (frame_updateGrounding (getHitbox m) (resolveCollisions m)) as F1.
    pose proof (frame_applyGroundConstraint
                  (updateGrounding (getHitbox m) (resolveCollisions m))) as F2.
    destruct (frame_trans _ _ _ F1 F2) as (_ & _ & _ & _ & _ & _ & _ & Hk & _).
    now apply Hk.
  - intros pre post Hl Hpre. unfold resolveCollisions. rewrite Hobjs, Hl.
    now apply hazard_before_solids.
Qed.

Lemma hazard_kills_in_any_order_witness :
  let spk := Collidable.mk 120 450 40 40 spike CollisionLayer.HAZARD true in
  let blk := Collidable.mk 120 490 40 40 block CollisionLayer.SOLID true in
  let p := setLevelObjects (create DEFAULT_CONFIG) [spk; blk] in
  let m := updateMotion p createDefaultInputState (1 / 60) (Some 0) in
  isDead (physicsState (resolveCollisions m)) = true
  /\ isDead (physicsState (update p createDefaultInputState (1 / 60) (Some 0)))
     = true
  /\ forall pre post,
      levelObjects p = pre ++ spk :: post ->
      Forall (fun o => overlapsActive (getHitbox m) CollisionLayer.SOLID o = false)
             pre ->
      position (physicsState (resolveCollisions m)) = position (physicsState m)
      /\ velocity (physicsState (resolveCollisions m)) = velocity (physicsState m).
Proof.
  intros spk blk p m.
  apply (hazard_kills_in_any_order p createDefaultInputState (1 / 60) (Some 0) spk).
  - reflexivity.
  - left. reflexivity.
  - vm_compute. reflexivity.
Defined.

(** C1 as stated fails when a Solid stands before the Hazard in the list:
    a block under the player and a spike at the player, both overlapping
    the hitbox, in that order.  The player dies, and the block's push-out
    has moved position.y from 460 + 13/18 to 452 first. *)
Lemma solid_before_hazard_displaces :
  let blk := Collidable.mk 120 490 40 40 block CollisionLayer.SOLID true in
  let spk := Collidable.mk 120 450 40 40 spike CollisionLayer.HAZARD true in
  let p := setLevelObjects (create DEFAULT_CONFIG) [blk; spk] in
  let m := updateMotion p createDefaultInputState (1 / 60) (Some 0) in
  overlapsActive (getHitbox m) CollisionLayer.HAZARD spk = true
  /\ overlapsActive (getHitbox m) CollisionLayer.SOLID blk = true
  /\ isDead (physicsState (resolveCollisions m)) = true
  /\ Vector2.y (position (physicsState m)) == 460 + 13 / 18
  /\ Vector2.y (position (physicsState (resolveCollisions m))) == 452
  /\ ~ Vector2.y (position (physicsState (resolveCollisions m)))
       == Vector2.y (position (physicsState m))
  /\ Vector2.y (position (physicsState
        (update p createDefaultInputState (1 / 60) (Some 0)))) == 452.
Proof.
  cbv zeta. repeat split; try (vm_compute; reflexivity).
  intro H. vm_compute in H. discriminate H.
Qed.

(** *** Dead players *)

(** C8. On a dead player, whatever the input, the deltaTime, the music
    time and the obstacle list, [Player.update] returns the player as it
    was, so every field of its PhysicsState is unchanged; and each mode's
    [update] returns a dead state unchanged. *)
Theorem update_dead_is_noop p (objects : list Collidable.t) i dt a :
  isDead (physicsState p) = true ->
  update (setLevelObjects p objects) i dt a = setLevelObjects p objects
  /\ physicsState (update (setLevelObjects p objects) i dt a) = physicsState p
  /\ forall m c, IPlayerMode_.update m (physicsState p) i dt c = physicsState p.
Proof.
  intro Hd.
  assert (E : update (setLevelObjects p objects) i dt a = setLevelObjects p objects).
  { unfold update. cbn [setLevelObjects set_levelObjects physicsState].
    now rewrite Hd. }
  split; [exact E | ]. split; [now rewrite E | ].
  intros m c. now apply ModeFacts.update_dead.
Qed.

Lemma update_dead_is_noop_witness :
  let p := die (create DEFAULT_CONFIG) in
  let objects := [Collidable.mk 120 490 40 40 block CollisionLayer.SOLID true] in
  update (setLevelObjects p objects) (mkInput true true false) (1 / 60) (Some 3)
  = setLevelObjects p objects
  /\ physicsState
       (update (setLevelObjects p objects) (mkInput true true false) (1 / 60) (Some 3))
     = physicsState p
  /\ forall m c,
      IPlayerMode_.update m (physicsState p) (mkInput true true false) (1 / 60) c
      = physicsState p.
Proof.
  intros p objects.
  apply (update_dead_is_noop p objects (mkInput true true false) (1 / 60) (Some 3)).
  reflexivity.
Defined.

(** *** Switching modes *)

(** C4 (amended). A mode switch (to a mode other than the state's) calls
    the old mode's onExit, then the new mode's onEnter, then emits
    modeChange; the new mode's onEnter sets state.mode to its own id.
    Ship and ball onEnter clear jumpBuffered, jumpBufferTimeRemaining and
    coyoteTimeRemaining; cube onEnter leaves all three as they were (it
    only zeroes the angular velocity of a grounded state). *)
Theorem setMode_protocol p (m : PlayerModeType) :
  mode (physicsState p) <> m ->
  let q := setMode p m in
  let s := physicsState p in
  let s' := physicsState q in
  trace q = trace p ++ [CallOnExit (currentMode p); CallOnEnter (currentMode q);
                        Emit (modeChange m)]
  /\ IPlayerMode_.name (currentMode q) = m
  /\ s' = IPlayerMode_.onEnter (currentMode q)
            (IPlayerMode_.onExit (currentMode p) s)
  /\ mode s' = m
  /\ match m with
     | cube =>
         jumpBuffered s' = jumpBuffered s
         /\ jumpBufferTimeRemaining s' = jumpBufferTimeRemaining s
         /\ coyoteTimeRemaining s' = coyoteTimeRemaining s
         /\ angularVelocity s' = (if isGrounded s then 0 else angularVelocity s)
     | ship | ball =>
         jumpBuffered s' = false
         /\ jumpBufferTimeRemaining s' = 0
         /\ coyoteTimeRemaining s' = 0
     end.
Proof.
  intros Hm q s s'. subst q s s'. unfold setMode.
  destruct (PlayerModeType_eqb (mode (physicsState p)) m) eqn:E.
  { exfalso. apply Hm. destruct (mode (physicsState p)), m; cbn in E;
      congruence. }
  destruct p as [st cfg cur pc objs sp au sx wg wa tr].
  destruct m, cur; cbn; rewrite <- ?app_assoc; cbn;
    repeat split; try reflexivity;
    unfold CubeMode.onEnter; cbn; destruct (isGrounded st); reflexivity.
Qed.

Lemma setMode_protocol_witness :
  mode (physicsState (setMode (create DEFAULT_CONFIG) ball)) = ball.
Proof.
  apply (setMode_protocol (create DEFAULT_CONFIG) ball).
  discriminate.
Defined.

(** C4 as stated fails for cube: a ship that has just left the ground
    carries an armed coyote timer, and switching to cube keeps it. *)
Lemma cube_onEnter_keeps_coyote_timer :
  let p1 := setMode (create DEFAULT_CONFIG) ship in
  let p2 := update p1 (mkInput false true false) (1 / 60) (Some (1 / 60)) in
  let p3 := setMode p2 cube in
  mode (physicsState p2) = ship
  /\ currentMode p3 = cubeMode
  /\ mode (physicsState p3) = cube
  /\ coyoteTimeRemaining (physicsState p3) == 0.08
  /\ ~ coyoteTimeRemaining (physicsState p3) == 0.
Proof.
  cbv zeta. repeat split; try (vm_compute; reflexivity).
  intro H. vm_compute in H. discriminate H.
Qed.

End PlayerFacts.

(** ** Stepping with named results *)

(** [step] with chosen names for the new state and its invariant. *)
Ltac step_as I x H :=
  match goal with
  | |- ?P (let y := ?e in @?f y) => apply (let_inv I P e f); [ | intros x H]
  end.

Ltac fin := repeat split; try reflexivity; try assumption; try tauto.

(** ** More AABB geometry *)

Module AABBMore.
Import AABB.

Lemma overlap_sym (a b : t) :
  checkAABBOverlap a b = checkAABBOverlap b a.
Proof.
  unfold checkAABBOverlap, JS.gt.
  repeat js_case; cbn; try reflexivity; lra.
Qed.

(** X1. The overlap test does not depend on the order of its arguments,
    and a box overlaps itself exactly when its width and its height are
    both positive. *)
Theorem overlap_symmetric (a b : t) :
  checkAABBOverlap a b = checkAABBOverlap b a /\
  (checkAABBOverlap a a = true <-> 0 < width a /\ 0 < height a).
Proof.
  split; [apply overlap_sym | ].
  unfold checkAABBOverlap, JS.gt.
  repeat js_case; cbn; split; intros; try discriminate; try reflexivity; lra.
Qed.

(** X2. Swapping the two boxes of a reported collision whose centres
    differ on both axes keeps the collision and the axis it is resolved
    on, and negates the normal and the signed overlaps. *)
Theorem collision_swapped (a b : t) :
  colliding (getAABBCollision a b) = true ->
  ~ x a + width a / 2 == x b + width b / 2 ->
  ~ y a + height a / 2 == y b + height b / 2 ->
  let r := getAABBCollision a b in
  let r' := getAABBCollision b a in
  colliding r' = true
  /\ normal r' = Vector2.mk (- Vector2.x (normal r)) (- Vector2.y (normal r))
  /\ overlapX r' == - overlapX r
  /\ overlapY r' == - overlapY r.
Proof.
  intros Hc Hx Hy r r'. subst r r'.
  apply AABBFacts.colliding_penetration in Hc. destruct Hc as [Px Py].
  rewrite !AABBFacts.collision_unfold.
  assert (Ex : penetrationX b a == penetrationX a b).
  { unfold penetrationX.
    destruct (JSFacts.abs_cases (x a + width a / 2 - (x b + width b / 2))) as [[? E] | [? E]];
    destruct (JSFacts.abs_cases (x b + width b / 2 - (x a + width a / 2))) as [[? E'] | [? E']];
    rewrite E, E'; qdiv; lra. }
  assert (Ey : penetrationY b a == penetrationY a b).
  { unfold penetrationY.
    destruct (JSFacts.abs_cases (y a + height a / 2 - (y b + height b / 2))) as [[? E] | [? E]];
    destruct (JSFacts.abs_cases (y b + height b / 2 - (y a + height a / 2))) as [[? E'] | [? E']];
    rewrite E, E'; qdiv; lra. }
  destruct (JSFacts.leP (penetrationX a b) 0); [lra | ].
  destruct (JSFacts.leP (penetrationY a b) 0); [lra | ].
  destruct (JSFacts.leP (penetrationX b a) 0); [lra | ].
  destruct (JSFacts.leP (penetrationY b a) 0); [lra | ].
  cbn [orb]. unfold JS.gt.
  destruct (JSFacts.ltP (penetrationX a b) (penetrationY a b));
    destruct (JSFacts.ltP (penetrationX b a) (penetrationY b a)); try lra;
    cbv zeta; repeat js_case; cbn; try (exfalso; qdiv; lra);
    repeat split; try reflexivity; try lra.
Qed.

Lemma collision_swapped_witness :
  let a := mk 0 0 10 10 in
  let b := mk 3 8 10 10 in
  let r := getAABBCollision a b in
  let r' := getAABBCollision b a in
  colliding r' = true
  /\ normal r' = Vector2.mk (- Vector2.x (normal r)) (- Vector2.y (normal r))
  /\ overlapX r' == - overlapX r
  /\ overlapY r' == - overlapY r.
Proof.
  intros a b.
  apply (collision_swapped a b);
    [reflexivity | intro H; discriminate H | intro H; discriminate H].
Defined.

End AABBMore.

(** ** The collision detector *)

Module CollisionDetectorFacts.
Import CollisionDetector.

Lemma object_collision_spec hb o :
  checkPlayerObjectCollision hb o =
  if collides hb o then
    Some (mkEvent o (Collidable.type o)
            (AABB.getAABBCollision hb (getObjectHitbox o))
            (hasLayer (Collidable.collisionLayer o) CollisionLayer.HAZARD)
            (hasLayer (Collidable.collisionLayer o) CollisionLayer.SOLID)
            (hasLayer (Collidable.collisionLayer o) CollisionLayer.INTERACTIVE))
  else None.
Proof.
  unfold checkPlayerObjectCollision, collides.
  destruct (Collidable.active o); cbn [negb orb andb]; [ | reflexivity].
  destruct (Z.eqb _ _); cbn [negb andb]; [reflexivity | ].
  now destruct (AABB.checkAABBOverlap _ _).
Qed.

(** X5. [checkPlayerCollisions] reports, in list order, exactly the
    objects that are active, have a collision layer and overlap the
    hitbox; each event carries the object's type, the collision result
    of the hitbox with the object's hitbox and the three layer flags of
    the object. *)
Theorem collisions_are_the_colliding_objects hb (objects : list Collidable.t) :
  map object (checkPlayerCollisions hb objects) = filter (collides hb) objects
  /\ Forall
       (fun ev =>
          type ev = Collidable.type (object ev)
          /\ collision ev = AABB.getAABBCollision hb (getObjectHitbox (object ev))
          /\ isHazard ev
             = hasLayer (Collidable.collisionLayer (object ev)) CollisionLayer.HAZARD
          /\ isSolid ev
             = hasLayer (Collidable.collisionLayer (object ev)) CollisionLayer.SOLID
          /\ isInteractive ev
             = hasLayer (Collidable.collisionLayer (object ev))
                 CollisionLayer.INTERACTIVE)
       (checkPlayerCollisions hb objects).
Proof.
  induction objects as [ | o objects [IH1 IH2]]; [split; [reflexivity | constructor] | ].
  cbn [checkPlayerCollisions filter]. rewrite object_collision_spec.
  destruct (collides hb o) eqn:E.
  - split; [cbn; now rewrite IH1 | ].
    constructor; [ | exact IH2]. cbn.
    repeat split; reflexivity.
  - split; assumption.
Qed.

Lemma collisions_append hb (l1 l2 : list Collidable.t) :
  checkPlayerCollisions hb (l1 ++ l2)
  = checkPlayerCollisions hb l1 ++ checkPlayerCollisions hb l2.
Proof.
  induction l1 as [ | o l1 IH]; [reflexivity | ].
  cbn [app checkPlayerCollisions].
  destruct (checkPlayerObjectCollision hb o); [cbn; now rewrite IH | exact IH].
Qed.

(** X6. For an object that carries the collision layer of its type, a
    collision event is solid exactly for blocks, a hazard exactly for
    spikes and interactive exactly for pads and orbs; decorations never
    produce an event. *)
Theorem event_kinds_by_type hb o ev :
  checkPlayerObjectCollision hb o = Some ev ->
  Collidable.collisionLayer o = getCollisionLayer (Collidable.type o) ->
  Collidable.type o <> decoration
  /\ (isSolid ev = true <-> Collidable.type o = block)
  /\ (isHazard ev = true <->
      Collidable.type o = spike \/ Collidable.type o = spikeInverted)
  /\ (isInteractive ev = true <->
      Collidable.type o = padYellow \/ Collidable.type o = padPink
      \/ Collidable.type o = orbYellow \/ Collidable.type o = orbBlue).
Proof.
  rewrite object_collision_spec. unfold collides. intros H Hl.
  rewrite Hl in H.
  destruct (Collidable.active o); cbn [andb] in H; [ | discriminate H].
  destruct (Collidable.type o) eqn:T; cbn in H;
    try discriminate H;
    match type of H with
    | (if ?c then _ else _) = _ => destruct c; [ | discriminate H]
    end;
    injection H as <-; cbn;
    (split; [discriminate | ]);
    repeat split; intros; try discriminate; try reflexivity; try tauto;
    repeat match goal with
    | K : _ \/ _ |- _ => destruct K
    end; try discriminate.
Qed.

Lemma event_kinds_by_type_witness :
  let o := Collidable.mk 120 450 40 40 spike CollisionLayer.HAZARD true in
  let hb := getPlayerHitbox 120 460 40 40 true in
  exists ev, checkPlayerObjectCollision hb o = Some ev /\ isHazard ev = true.
Proof.
  intros o hb.
  destruct (checkPlayerObjectCollision hb o) as [ev | ] eqn:E;
    [ | vm_compute in E; discriminate E].
  exists ev. split; [reflexivity | ].
  apply (event_kinds_by_type hb o ev E); [reflexivity | left; reflexivity].
Defined.

Lemma grounded_spec hb (objects : list Collidable.t) (tolerance : Q) :
  checkGrounded hb objects tolerance = true <->
  (exists o, In o objects
             /\ overlapsActive (groundCheckBox hb tolerance) CollisionLayer.SOLID o
                = true)
  \/ (GRID.DEFAULT_GROUND_Y * GRID.UNIT_SIZE - tolerance
        <= AABB.y hb + AABB.height hb
      /\ AABB.y hb + AABB.height hb
           <= GRID.DEFAULT_GROUND_Y * GRID.UNIT_SIZE + tolerance).
Proof.
  unfold checkGrounded. fold (groundCheckBox hb tolerance).
  set (probe := groundCheckBox hb tolerance).
  assert (Hs : anySolidUnder probe objects = true <->
               exists o, In o objects
                         /\ overlapsActive probe CollisionLayer.SOLID o = true).
  { clearbody probe. induction objects as [ | o objects IH]; cbn [anySolidUnder].
    - split; [discriminate | intros [o [[] _]]].
    - unfold overlapsActive at 1. unfold hasLayer.
      destruct (Collidable.active o) eqn:Ea; cbn [negb orb andb].
      + destruct (Z.eqb _ _) eqn:El; cbn [negb andb].
        * rewrite IH. split.
          -- intros [o' [Hin Ho]]. exists o'. split; [now right | exact Ho].
          -- intros [o' [[<- | Hin] Ho]].
             ++ unfold overlapsActive, hasLayer in Ho.
                rewrite Ea, El in Ho. discriminate Ho.
             ++ exists o'. tauto.
        * destruct (AABB.checkAABBOverlap probe (getObjectHitbox o)) eqn:Eo.
          -- split; [ | reflexivity]. intros _. exists o. split; [now left | ].
             unfold overlapsActive, hasLayer. now rewrite Ea, El, Eo.
          -- rewrite IH. split.
             ++ intros [o' [Hin Ho]]. exists o'. split; [now right | exact Ho].
             ++ intros [o' [[<- | Hin] Ho]].
                ** unfold overlapsActive, hasLayer in Ho.
                   rewrite Ea, El, Eo in Ho. discriminate Ho.
                ** exists o'. tauto.
      + rewrite IH. split.
        * intros [o' [Hin Ho]]. exists o'. split; [now right | exact Ho].
        * intros [o' [[<- | Hin] Ho]].
          -- unfold overlapsActive in Ho. rewrite Ea in Ho. discriminate Ho.
          -- exists o'. tauto. }
  destruct (anySolidUnder probe objects) eqn:E.
  - split; [intros _; left; now apply Hs | reflexivity].
  - cbv zeta. unfold JS.ge.
    repeat js_case; cbn; split; intros H; try discriminate; try reflexivity;
      try (right; lra);
      destruct H as [H | H]; try lra;
      apply Hs in H; discriminate H.
Qed.

(** X7. [checkGrounded] holds exactly when an active solid object
    overlaps the probe box below the hitbox (inset by 2 on each side,
    [tolerance] high), or the bottom of the hitbox is within [tolerance]
    of the default ground plane. *)
Theorem grounded_iff hb (objects : list Collidable.t) (tolerance : Q) :
  checkGrounded hb objects tolerance = true <->
  (exists o, In o objects
             /\ overlapsActive (groundCheckBox hb tolerance) CollisionLayer.SOLID o
                = true)
  \/ (GRID.DEFAULT_GROUND_Y * GRID.UNIT_SIZE - tolerance
        <= AABB.y hb + AABB.height hb
      /\ AABB.y hb + AABB.height hb
           <= GRID.DEFAULT_GROUND_Y * GRID.UNIT_SIZE + tolerance).
Proof. exact (grounded_spec hb objects tolerance). Qed.

(** X8. With no level objects and the default tolerance, a cube is
    grounded exactly when its centre is at a height from 460 to 464, a
    ship or ball exactly from 461 to 465: at the ground height 460 that
    [applyGroundConstraint] snaps to, only the cube passes this test. *)
Theorem ground_plane_band (p : Player.t) :
  checkGrounded (Player.getHitbox p) [] defaultTolerance = true <->
  let lo := match mode (Player.physicsState p) with cube => 460 | _ => 461 end in
  lo <= Vector2.y (position (Player.physicsState p))
  /\ Vector2.y (position (Player.physicsState p)) <= lo + 4.
Proof.
  rewrite grounded_spec. cbv zeta.
  unfold Player.getHitbox, getPlayerHitbox, AABB.scaleAABB,
    AABB.createAABBFromCenter, defaultTolerance.
  cbn [AABB.x AABB.y AABB.width AABB.height].
  unfold GRID.DEFAULT_GROUND_Y, GRID.UNIT_SIZE, SIZES.PLAYER,
    HITBOXES.PLAYER_CUBE, HITBOXES.PLAYER_SHIP.
  destruct (mode (Player.physicsState p)); cbn [PlayerModeType_eqb];
    (split; [intros [[o [[] _]] | H] | intro H; right]); qdiv; lra.
Qed.

(** X9. [getVisibleObjects] returns active objects of the list only,
    and a larger margin never loses an object. *)
Theorem visible_objects_grow_with_margin (objects : list Collidable.t)
    (viewportLeft viewportRight margin margin' : Q) :
  margin <= margin' ->
  incl (getVisibleObjects objects viewportLeft viewportRight margin)
       (getVisibleObjects objects viewportLeft viewportRight margin')
  /\ Forall (fun o => Collidable.active o = true /\ In o objects)
       (getVisibleObjects objects viewportLeft viewportRight margin).
Proof.
  intro Hm. unfold getVisibleObjects. cbv zeta. split.
  - intros o Ho. apply filter_In in Ho. destruct Ho as [Hin Hf].
    apply filter_In. split; [exact Hin | ].
    apply andb_prop in Hf. destruct Hf as [Hf Ha].
    apply andb_prop in Hf. destruct Hf as [H1 H2].
    rewrite Ha, andb_true_r. unfold JS.ge in *.
    destruct (JSFacts.leP (viewportLeft - margin)
                (Collidable.x o + Collidable.width o / 2)); [ | discriminate H1].
    destruct (JSFacts.leP (Collidable.x o - Collidable.width o / 2)
                (viewportRight + margin)); [ | discriminate H2].
    repeat js_case; cbn; try reflexivity; lra.
  - apply Forall_forall. intros o Ho. apply filter_In in Ho.
    destruct Ho as [Hin Hf]. apply andb_prop in Hf. tauto.
Qed.

Lemma visible_objects_grow_with_margin_witness :
  let near := Collidable.mk 850 460 40 40 block CollisionLayer.SOLID true in
  let far := Collidable.mk 950 460 40 40 block CollisionLayer.SOLID true in
  let objects := [near; far] in
  getVisibleObjects objects 0 800 100 = [near]
  /\ getVisibleObjects objects 0 800 200 = [near; far]
  /\ incl (getVisibleObjects objects 0 800 100)
          (getVisibleObjects objects 0 800 200)
  /\ Forall (fun o => Collidable.active o = true /\ In o objects)
       (getVisibleObjects objects 0 800 100).
Proof.
  intros near far objects.
  split; [vm_compute; reflexivity | ].
  split; [vm_compute; reflexivity | ].
  apply (visible_objects_grow_with_margin objects 0 800 100 200).
  discriminate.
Defined.

End CollisionDetectorFacts.

(** ** More on the movement modes *)

Module ModeMore.

#[local] Arguments clamp : simpl never.
#[local] Arguments JS.rem : simpl never.
#[local] Arguments JS.Math_round : simpl never.
#[local] Arguments JS.Math_min : simpl never.
#[local] Arguments JS.Math_max : simpl never.

Lemma position_integration (m : IPlayerMode) s i dt c :
  isDead s = false ->
  let s' := IPlayerMode_.update m s i dt c in
  Vector2.y (position s')
  = Vector2.y (position s) + Vector2.y (velocity s') * dt.
Proof.
  intros Hd s'. subst s'.
  pose (P := fun s' : PhysicsState =>
               Vector2.y (position s')
               = Vector2.y (position s) + Vector2.y (velocity s') * dt).
  pose (K := fun s' : PhysicsState => Vector2.y (position s') = Vector2.y (position s)).
  change (P (IPlayerMode_.update m s i dt c)).
  destruct m;
    cbv beta delta [IPlayerMode_.update CubeMode.update ShipMode.update
                    BallMode.update] iota;
    rewrite Hd.
  - step_eq. step K; [reflexivity | ].
    do 3 (step K; [unfold K in *; repeat if_case; assumption | ]).
    step_eq.
    do 3 (step K; [unfold K, CubeMode.executeJump in *; repeat if_case; assumption | ]).
    step P. { unfold P, K in *. cbn. congruence. }
    unfold P, CubeMode.updateRotation in *. if_case; assumption.
  - step_eq. step_eq. step K; [unfold K; if_case; reflexivity | ].
    step_eq. step K; [assumption | ].
    step P. { unfold P, K in *. cbn. congruence. }
    unfold P, ShipMode.updateRotation in *. cbn. assumption.
  - step_eq. step K; [reflexivity | ]. step K; [assumption | ].
    step K; [unfold K, BallMode.flipGravity in *; if_case; assumption | ].
    step P. { unfold P, K in *. cbn. congruence. }
    unfold P, BallMode.updateRotation in *. cbn. assumption.
Qed.

(** X10. In every mode, an update of a live state moves the vertical
    position by the vertical velocity the update ends with, times
    [deltaTime]. *)
Theorem update_integrates_position (m : IPlayerMode) s i dt c :
  isDead s = false ->
  let s' := IPlayerMode_.update m s i dt c in
  Vector2.y (position s')
  = Vector2.y (position s) + Vector2.y (velocity s') * dt.
Proof. exact (position_integration m s i dt c). Qed.

Lemma update_integrates_position_witness :
  let s' := IPlayerMode_.update cubeMode (set_isGrounded createDefaultPhysicsState true)
              (mkInput true false false) (1 / 60) createDefaultPhysicsConfig in
  Vector2.y (position s')
  = Vector2.y (position (set_isGrounded createDefaultPhysicsState true))
    + Vector2.y (velocity s') * (1 / 60).
Proof.
  apply (update_integrates_position cubeMode
           (set_isGrounded createDefaultPhysicsState true)
           (mkInput true false false) (1 / 60) createDefaultPhysicsConfig).
  reflexivity.
Defined.


(** *** Cube: free fall *)

Lemma cube_free_fall_step s i dt c :
  isDead s = false ->
  isGrounded s = false ->
  jumpPressed i = false ->
  let s' := CubeMode.update s i dt c in
  Vector2.y (velocity s')
  = clamp (Vector2.y (velocity s)
           + gravity c * (if gravityInverted s then -1 else 1) * dt)
          (- terminalVelocity c) (terminalVelocity c)
  /\ isDead s' = false /\ isGrounded s' = false
  /\ gravityInverted s' = gravityInverted s.
Proof.
  intros Hd Hg Hp s'. subst s'.
  pose (V := clamp (Vector2.y (velocity s)
                    + gravity c * (if gravityInverted s then -1 else 1) * dt)
                   (- terminalVelocity c) (terminalVelocity c)).
  pose (P := fun s' : PhysicsState =>
               Vector2.y (velocity s') = V
               /\ isDead s' = false /\ isGrounded s' = false
               /\ gravityInverted s' = gravityInverted s).
  change (P (CubeMode.update s i dt c)).
  cbv beta delta [CubeMode.update]. rewrite Hd, Hp.
  step_eq.
  step_as (fun s1 : PhysicsState =>
          Vector2.y (velocity s1)
          = Vector2.y (velocity s)
            + gravity c * (if gravityInverted s then -1 else 1) * dt
          /\ isDead s1 = false /\ isGrounded s1 = false
          /\ gravityInverted s1 = gravityInverted s) s1 H1.
  { subst. cbn. fin. }
  step_as P s2 H2.
  { unfold P, V. destruct H1 as (E & ? & ? & Ei). rewrite Ei.
    destruct (gravityInverted s); cbn; rewrite E; fin. }
  step_as P s3 H3. { unfold P in *. if_case; fin. }
  step_as P s4 H4. { unfold P in *. repeat if_case; fin. }
  step_eq.
  step_as P s5 H5. { assumption. }
  step_as P s6 H6.
  { unfold P in *. destruct H5 as (? & ? & Eg & ?). rewrite Eg.
    rewrite andb_false_r. cbn. fin. }
  step_as P s7 H7.
  { unfold P in *. destruct H6 as (? & ? & Eg & ?). rewrite Eg. cbn. fin. }
  step_as P s8 H8. { unfold P in *. cbn. fin. }
  unfold P, CubeMode.updateRotation in *.
  destruct H8 as (? & ? & Eg & ?). rewrite Eg. cbn. fin.
Qed.


Lemma clamp_spec (v lo hi : Q) :
  lo <= hi ->
  (v <= lo /\ clamp v lo hi == lo) \/ (lo <= v <= hi /\ clamp v lo hi == v)
  \/ (hi <= v /\ clamp v lo hi == hi).
Proof.
  intro H. unfold clamp.
  destruct (JSFacts.min_cases hi v) as [[? ->] | [? ->]];
    destruct (JSFacts.max_cases lo v) as [[? E] | [? E]];
    destruct (JSFacts.max_cases lo hi) as [[? E'] | [? E']];
    rewrite ?E, ?E';
    try (left; split; [lra | reflexivity || lra]);
    try (right; left; split; [lra | reflexivity || lra]);
    try (right; right; split; [lra | reflexivity || lra]); lra.
Qed.

(** X11. Free fall in cube mode (airborne, no jump press): [n] updates
    are [n] applications of the clamped gravity step to the vertical
    velocity, and the state is still alive and airborne with the same
    gravity direction: in the air the cube neither lands nor jumps on
    its own. *)
Theorem cube_free_fall (n : nat) : forall s i dt c,
  isDead s = false ->
  isGrounded s = false ->
  jumpPressed i = false ->
  let s' := updateN cubeMode n s i dt c in
  isDead s' = false
  /\ isGrounded s' = false
  /\ gravityInverted s' = gravityInverted s
  /\ Vector2.y (velocity s')
     = Nat.iter n (fallStep c (gravityInverted s) dt) (Vector2.y (velocity s)).
Proof.
  induction n as [ | n IH]; intros s i dt c Hd Hg Hp; cbv zeta.
  - cbn [updateN Nat.iter nat_rect]. repeat split; assumption.
  - cbn [updateN IPlayerMode_.update].
    destruct (cube_free_fall_step s i dt c Hd Hg Hp)
      as (Ev & Hd1 & Hg1 & Ei).
    destruct (IH (CubeMode.update s i dt c) i dt c Hd1 Hg1 Hp)
      as (Hd' & Hg' & Ei' & Ev').
    split; [exact Hd' | ]. split; [exact Hg' | ].
    split; [now rewrite Ei', Ei | ].
    rewrite Ev', Ei, Ev. rewrite Nat.iter_succ_r. reflexivity.
Qed.

(** Scenario B: from rest, 28 free-fall ticks of 1/60 s reach the
    terminal velocity 1200. *)
Lemma cube_free_fall_witness :
  let s' := updateN cubeMode 28 createDefaultPhysicsState createDefaultInputState
              (1 / 60) createDefaultPhysicsConfig in
  isGrounded s' = false /\ Vector2.y (velocity s') == 1200.
Proof.
  intro s'.
  destruct (cube_free_fall 28 createDefaultPhysicsState createDefaultInputState
              (1 / 60) createDefaultPhysicsConfig eq_refl eq_refl eq_refl)
    as (_ & Hg & _ & Hv).
  fold s' in Hg, Hv. split; [exact Hg | ].
  rewrite Hv. vm_compute. reflexivity.
Defined.


(** *** Cube: a jump press in the air *)

(** X12. A jump press in the air, in cube mode: while coyote time is
    left after this frame's decrement the cube jumps (full jump force
    against gravity, coyote time used up); otherwise the press is
    buffered for [jumpBuffer] seconds and the cube keeps falling. *)
Theorem cube_airborne_jump_press s (held pause : bool) dt c :
  isDead s = false ->
  isGrounded s = false ->
  let s' := CubeMode.update s (mkInput true held pause) dt c in
  let remaining :=
    if coyoteTimeRemaining s >? 0 then coyoteTimeRemaining s - dt
    else coyoteTimeRemaining s in
  isGrounded s' = false
  /\ if remaining >? 0
     then
       Vector2.y (velocity s')
       = jumpForce c * (if gravityInverted s then 1 else -1)
       /\ coyoteTimeRemaining s' = 0
       /\ angularVelocity s'
          = (if gravityInverted s then - PHYSICS.CUBE_ROTATION_SPEED
             else PHYSICS.CUBE_ROTATION_SPEED)
     else
       jumpBuffered s' = true
       /\ jumpBufferTimeRemaining s' = jumpBuffer c
       /\ coyoteTimeRemaining s' = remaining
       /\ Vector2.y (velocity s')
          = clamp (Vector2.y (velocity s)
                   + gravity c * (if gravityInverted s then -1 else 1) * dt)
                  (- terminalVelocity c) (terminalVelocity c).
Proof.
  intros Hd Hg s' remaining. subst s'.
  pose (V := clamp (Vector2.y (velocity s)
                    + gravity c * (if gravityInverted s then -1 else 1) * dt)
                   (- terminalVelocity c) (terminalVelocity c)).
  pose (J := fun s' : PhysicsState =>
               Vector2.y (velocity s')
               = jumpForce c * (if gravityInverted s then 1 else -1)
               /\ coyoteTimeRemaining s' = 0
               /\ angularVelocity s'
                  = (if gravityInverted s then - PHYSICS.CUBE_ROTATION_SPEED
                     else PHYSICS.CUBE_ROTATION_SPEED)).
  pose (B := fun s' : PhysicsState =>
               jumpBuffered s' = true
               /\ jumpBufferTimeRemaining s' = jumpBuffer c
               /\ coyoteTimeRemaining s' = remaining
               /\ Vector2.y (velocity s') = V).
  pose (P := fun s' : PhysicsState =>
               isGrounded s' = false /\ if remaining >? 0 then J s' else B s').
  change (P (CubeMode.update s (mkInput true held pause) dt c)).
  assert (Hp : jumpPressed (mkInput true held pause) = true) by reflexivity.
  generalize dependent (mkInput true held pause). intros i Hp.
  cbv beta delta [CubeMode.update]. rewrite Hd, Hp.
  pose (A := fun s1 : PhysicsState =>
               isGrounded s1 = false
               /\ gravityInverted s1 = gravityInverted s
               /\ Vector2.y (velocity s1) = V).
  step_eq.
  step_as (fun s1 : PhysicsState =>
             Vector2.y (velocity s1)
             = Vector2.y (velocity s)
               + gravity c * (if gravityInverted s then -1 else 1) * dt
             /\ isGrounded s1 = false
             /\ gravityInverted s1 = gravityInverted s
             /\ coyoteTimeRemaining s1 = coyoteTimeRemaining s) s1 H1.
  { subst. cbn. fin. }
  step_as (fun s2 : PhysicsState =>
             A s2 /\ coyoteTimeRemaining s2 = coyoteTimeRemaining s) s2 H2.
  { unfold A, V. destruct H1 as (E & ? & Ei & ?). rewrite Ei.
    destruct (gravityInverted s); cbn; rewrite E; fin. }
  step_as (fun s3 : PhysicsState => A s3 /\ coyoteTimeRemaining s3 = remaining)
    s3 H3.
  { unfold A in *. destruct H2 as ((Eg & ? & ?) & Ec). rewrite Eg, Ec.
    cbn [negb andb]. subst remaining.
    destruct (coyoteTimeRemaining s >? 0); cbn; fin. }
  step_as (fun s4 : PhysicsState => A s4 /\ coyoteTimeRemaining s4 = remaining)
    s4 H4.
  { unfold A in *. repeat if_case; fin. }
  step_eq.
  step_as P s5 H5.
  { subst. unfold P, A in *. destruct H4 as ((Eg & Ei & Ev) & Ec).
    rewrite Eg, Ec. cbn [orb].
    destruct (remaining >? 0); unfold J, B, CubeMode.executeJump; cbn;
      rewrite ?Ei; fin. }
  step_as P s6 H6.
  { unfold P in *. destruct H5 as [Eg ?]. rewrite Eg, andb_false_r. fin. }
  step_as P s7 H7.
  { unfold P in *. destruct H6 as [Eg ?]. rewrite Eg. cbn. fin. }
  step_as P s8 H8.
  { unfold P, J, B in *. cbn. exact H7. }
  unfold P, J, B, CubeMode.updateRotation in *.
  destruct H8 as [Eg H8]. rewrite Eg. cbn. fin.
Qed.

Lemma cube_airborne_jump_press_witness :
  let s := set_coyoteTimeRemaining createDefaultPhysicsState 0.08 in
  let s' := CubeMode.update s (mkInput true false false) (1 / 60)
              createDefaultPhysicsConfig in
  Vector2.y (velocity s') = 800 * -1.
Proof.
  intros s.
  pose proof (cube_airborne_jump_press s false false (1 / 60)
                createDefaultPhysicsConfig eq_refl eq_refl) as H.
  cbv zeta in H. destruct H as [_ H].
  change (coyoteTimeRemaining s) with 0.08 in H.
  change ((if 0.08 >? 0 then 0.08 - 1 / 60 else 0.08) >? 0) with true in H.
  cbv iota in H. destruct H as [H _]. exact H.
Defined.


(** *** The jump-buffer invariant *)

(** X13. In every mode an update keeps the jump-buffer invariant: a
    buffered jump always has time left on its timer. *)
Theorem update_keeps_buffer_invariant (m : IPlayerMode) s i dt c :
  0 < jumpBuffer c ->
  bufferInv s ->
  bufferInv (IPlayerMode_.update m s i dt c).
Proof.
  intros Hc Hs.
  destruct (isDead s) eqn:Hd.
  { now rewrite ModeFacts.update_dead. }
  destruct m;
    cbv beta delta [IPlayerMode_.update CubeMode.update ShipMode.update
                    BallMode.update] iota;
    rewrite Hd.
  - step_eq.
    step_as bufferInv t1 K1. { exact Hs. }
    step_as bufferInv t2 K2. { if_case; exact K1. }
    step_as bufferInv t3 K3. { if_case; exact K2. }
    step_as bufferInv t4 K4.
    { unfold bufferInv in *.
      destruct (jumpBuffered t3) eqn:Eb; cbn [andb]; [ | now rewrite Eb].
      specialize (K3 eq_refl).
      destruct (JSFacts.ltP 0 (jumpBufferTimeRemaining t3)) as [ | n];
        [ | contradiction].
      unfold JS.gt. destruct (JSFacts.ltP 0 (jumpBufferTimeRemaining t3));
        [ | contradiction].
      cbv zeta. cbn [jumpBufferTimeRemaining set_jumpBufferTimeRemaining].
      destruct (JSFacts.leP (jumpBufferTimeRemaining t3 - dt) 0); cbn.
      - discriminate.
      - intros _. lra. }
    step_eq.
    step_as bufferInv t5 K5.
    { unfold bufferInv, CubeMode.executeJump in *.
      repeat if_case; try assumption. intros _. exact Hc. }
    step_as bufferInv t6 K6.
    { unfold bufferInv, CubeMode.executeJump in *. if_case; assumption. }
    step_as bufferInv t7 K7.
    { unfold bufferInv, CubeMode.executeJump in *. if_case; [discriminate | assumption]. }
    step_as bufferInv t8 K8. { exact K7. }
    unfold bufferInv, CubeMode.updateRotation in *. if_case; assumption.
  - step_eq. step_eq.
    step_as bufferInv t1 K1. { if_case; exact Hs. }
    step_eq.
    step_as bufferInv t2 K2. { exact K1. }
    step_as bufferInv t3 K3. { exact K2. }
    exact K3.
  - step_eq.
    step_as bufferInv t1 K1. { exact Hs. }
    step_as bufferInv t2 K2. { exact K1. }
    step_as bufferInv t3 K3.
    { unfold bufferInv, BallMode.flipGravity in *. if_case; assumption. }
    step_as bufferInv t4 K4. { exact K3. }
    exact K4.
Qed.

Lemma update_keeps_buffer_invariant_witness :
  bufferInv
    (IPlayerMode_.update cubeMode createDefaultPhysicsState
       (mkInput true false false) (1 / 60) createDefaultPhysicsConfig).
Proof.
  apply (update_keeps_buffer_invariant cubeMode createDefaultPhysicsState
           (mkInput true false false) (1 / 60) createDefaultPhysicsConfig).
  - reflexivity.
  - intro H. discriminate H.
Defined.


(** *** Ball: gravity flips *)



(** *** Ship: thrust and gravity *)




End ModeMore.

(** ** More on the player *)

Module PlayerMore.
Import Player.

#[local] Arguments clamp : simpl never.
#[local] Arguments JS.rem : simpl never.
#[local] Arguments JS.Math_round : simpl never.
#[local] Arguments JS.Math_min : simpl never.
#[local] Arguments JS.Math_max : simpl never.
#[local] Arguments CollisionDetector.checkGrounded : simpl never.




(** *** Notifications of one tick *)

Lemma motion_trace p i dt a : trace (updateMotion p i dt a) = trace p.
Proof. unfold updateMotion. destruct a; reflexivity. Qed.

Lemma processCollisions_trace cs : forall p,
  trace (processCollisions p cs) = trace p
  \/ exists x y, trace (processCollisions p cs) = trace p ++ [Emit (death x y)].
Proof.
  induction cs as [ | c cs IH]; intro p; cbn; [now left | ].
  destruct (CollisionDetector.isHazard c).
  - unfold die. destruct (isDead (physicsState p)); [now left | ].
    right. cbn. eauto.
  - assert (E : trace (resolveSolid p c) = trace p).
    { unfold resolveSolid. repeat if_case; reflexivity. }
    rewrite <- E. apply IH.
Qed.

Lemma grounding_trace hb p :
  trace (updateGrounding hb p) = trace p
  \/ (exists x y, trace (updateGrounding hb p) = trace p ++ [Emit (land x y)])
  \/ (exists x y, trace (updateGrounding hb p) = trace p ++ [Emit (jump x y)]).
Proof.
  pose (P := fun q : Player.t =>
     trace q = trace p
     \/ (exists x y, trace q = trace p ++ [Emit (land x y)])
     \/ (exists x y, trace q = trace p ++ [Emit (jump x y)])).
  change (P (updateGrounding hb p)).
  cbv beta delta [updateGrounding].
  step_as (fun q : Player.t => trace q = trace p) q1 K1. { reflexivity. }
  step_as (fun q : Player.t => trace q = trace p) q2 K2. { exact K1. }
  step_as (fun q : Player.t =>
             trace q = trace p
             \/ (isGrounded (physicsState q) = true
                 /\ exists x y, trace q = trace p ++ [Emit (land x y)]))
    q3 K3.
  { destruct (wasInAir q2 && isGrounded (physicsState q2)) eqn:E.
    - right. apply andb_prop in E. destruct E as [_ Eg].
      unfold onLanding. cbn. rewrite K2. split; [exact Eg | eauto].
    - left. exact K2. }
  step_as P q4 K4.
  { unfold P. destruct K3 as [Et | (Eg & x & y & Et)].
    - if_case; [ | now left]. right. right. unfold onJump. cbn. rewrite Et. eauto.
    - rewrite Eg. rewrite andb_false_r. cbn. right. left. eauto. }
  unfold P in *. if_case; exact K4.
Qed.

(** X17. One tick appends to the notifications at most one [death]
    followed by at most one of [land] and [jump], and nothing else. *)
Theorem tick_notifications p i dt a :
  let q := update p i dt a in
  exists d lj : list Effect,
    trace q = trace p ++ d ++ lj
    /\ (d = [] \/ exists x y, d = [Emit (death x y)])
    /\ (lj = [] \/ (exists x y, lj = [Emit (land x y)])
        \/ (exists x y, lj = [Emit (jump x y)])).
Proof.
  intro q. subst q.
  destruct (isDead (physicsState p)) eqn:Hd.
  { exists [], []. unfold update. rewrite Hd. rewrite !app_nil_r.
    split; [reflexivity | ]. split; now left. }
  rewrite PlayerFacts.update_alive by assumption.
  set (m := updateMotion p i dt a).
  assert (Et : trace (applyGroundConstraint
                        (updateGrounding (getHitbox m) (resolveCollisions m)))
               = trace (updateGrounding (getHitbox m) (resolveCollisions m))).
  { unfold applyGroundConstraint. if_case; reflexivity. }
  rewrite Et.
  pose proof (grounding_trace (getHitbox m) (resolveCollisions m)) as Hg.
  pose proof (processCollisions_trace
                (CollisionDetector.checkPlayerCollisions (getHitbox m) (levelObjects m))
                m) as Hc.
  fold (resolveCollisions m) in Hc.
  pose proof (motion_trace p i dt a) as Em. fold m in Em. rewrite Em in Hc.
  destruct Hc as [Ec | (x & y & Ec)];
    [exists [] | exists [Emit (death x y)]];
    (destruct Hg as [Eg | [(x' & y' & Eg) | (x' & y' & Eg)]];
     [ exists [] | exists [Emit (land x' y')] | exists [Emit (jump x' y')] ]);
    rewrite Eg, Ec; cbn; rewrite <- ?app_assoc, ?app_nil_r; cbn;
    (split; [reflexivity | ]); split; eauto.
Qed.


(** *** Standing still *)

Lemma idle_update (m : IPlayerMode) s i dt c :
  isDead s = false ->
  jumpPressed i = false -> jumpHeld i = false ->
  jumpBuffered s = false -> gravityInverted s = false ->
  0 < gravity c -> 0 < dt -> 0 < terminalVelocity c ->
  Vector2.y (velocity s) == 0 ->
  let s' := IPlayerMode_.update m s i dt c in
  isDead s' = false /\ isGrounded s' = isGrounded s
  /\ gravityInverted s' = false /\ jumpBuffered s' = false
  /\ 0 < Vector2.y (velocity s').
Proof.
  intros Hd Hp Hh Hb Hi Hg Hdt Htv Hv s'. subst s'.
  assert (Hgd : 0 < gravity c * dt) by (now apply Qmult_lt_0_compat).
  pose (F := fun t : PhysicsState =>
     isDead t = false /\ isGrounded t = isGrounded s
     /\ gravityInverted t = false /\ jumpBuffered t = false).
  pose (P := fun t : PhysicsState => F t /\ 0 < Vector2.y (velocity t)).
  cut (P (IPlayerMode_.update m s i dt c)).
  { unfold P, F. tauto. }
  assert (Hpos : forall v lo hi, lo < 0 -> 0 < hi -> 0 < v -> 0 < clamp v lo hi).
  { intros v lo hi Hlo Hhi Hv0.
    assert (Hlh : lo <= hi) by lra.
    destruct (ModeMore.clamp_spec v lo hi Hlh) as [[? ->] | [[? ->] | [? ->]]]; lra. }
  destruct m;
    cbv beta delta [IPlayerMode_.update CubeMode.update ShipMode.update
                    BallMode.update] iota;
    rewrite Hd, ?Hp, ?Hh.
  - step_eq.
    step_as (fun t : PhysicsState => F t /\ 0 < Vector2.y (velocity t)) t1 K1.
    { subst. unfold F. rewrite Hi. cbn. fin. lra. }
    step_as P t2 K2.
    { unfold P, F in *. destruct K1 as ((? & ? & Ei & ?) & Hv1). rewrite Ei. cbn.
      fin. apply Hpos; lra. }
    step_as P t3 K3. { unfold P, F in *. if_case; fin. }
    step_as P t4 K4.
    { unfold P, F in *. destruct K3 as ((? & ? & ? & Eb) & ?). rewrite Eb. cbn. fin. }
    step_eq.
    step_as P t5 K5. { exact K4. }
    step_as P t6 K6. { exact K5. }
    step_as P t7 K7.
    { unfold P, F in *. destruct K6 as ((? & ? & ? & Eb) & ?).
      rewrite Eb, andb_false_r. cbn. fin. }
    step_as P t8 K8. { exact K7. }
    unfold P, F, CubeMode.updateRotation in *.
    destruct K8 as ((? & ? & ? & ?) & ?). if_case; fin; congruence.
  - step_eq. step_eq.
    step_as (fun t : PhysicsState => F t /\ 0 < Vector2.y (velocity t)) t1 K1.
    { subst. unfold F. rewrite Hi. cbn. fin.
      unfold PHYSICS.SHIP_GRAVITY_MULTIPLIER. lra. }
    step_eq.
    step_as P t2 K2.
    { subst. unfold P, F in *. cbn. fin. apply Hpos; lra. }
    step_as P t3 K3. { exact K2. }
    exact K3.
  - step_eq.
    step_as (fun t : PhysicsState => F t /\ 0 < Vector2.y (velocity t)) t1 K1.
    { subst. unfold F. rewrite Hi. cbn. fin. lra. }
    step_as P t2 K2.
    { unfold P, F in *. cbn. fin. apply Hpos; lra. }
    step_as P t3 K3. { exact K2. }
    step_as P t4 K4. { exact K3. }
    exact K4.
Qed.


Lemma rest_tick p k :
  atRest p -> idleTick k ->
  let q := update p (tickInput k) (tickDeltaTime k) (tickAudioTime k) in
  atRest q /\ trace q = trace p.
Proof.
  intros (Hd & Hg & Hi & Hb & Hy & Hv & Hobjs & Hcfg) (Hp & Hh & Hdt) q.
  subst q. rewrite PlayerFacts.update_alive by assumption.
  set (i := tickInput k) in *. set (dt := tickDeltaTime k) in *.
  set (a := tickAudioTime k).
  set (m := updateMotion p i dt a).
  (* the motion phase *)
  pose (s0 := match a with
              | Some t => set_position_x (physicsState p)
                            (startX p + t * currentSpeed p)
              | None => physicsState p
              end).
  assert (Em : physicsState m
               = IPlayerMode_.update (currentMode p) s0 i dt (physicsConfig p)).
  { subst m s0. unfold updateMotion. destruct a; reflexivity. }
  assert (Hs0 : isDead s0 = false /\ isGrounded s0 = true
                /\ gravityInverted s0 = false /\ jumpBuffered s0 = false
                /\ Vector2.y (position s0) = Vector2.y (position (physicsState p))
                /\ Vector2.y (velocity s0) = Vector2.y (velocity (physicsState p))).
  { subst s0. destruct a; cbn; fin. }
  destruct Hs0 as (Hd0 & Hg0 & Hi0 & Hb0 & Hy0 & Hv0).
  assert (Hgr : 0 < gravity (physicsConfig p)) by (rewrite Hcfg; reflexivity).
  assert (Htv : 0 < terminalVelocity (physicsConfig p)) by (rewrite Hcfg; reflexivity).
  assert (Hv0' : Vector2.y (velocity s0) == 0) by (rewrite Hv0; exact Hv).
  destruct (idle_update (currentMode p) s0 i dt (physicsConfig p)
              Hd0 Hp Hh Hb0 Hi0 Hgr Hdt Htv Hv0')
    as (Hd1 & Hg1 & Hi1 & Hb1 & Hv1).
  pose proof (ModeMore.position_integration (currentMode p) s0 i dt
                (physicsConfig p) Hd0) as Hy1.
  cbv zeta in Hy1. rewrite <- Em in *.
  assert (Hobj_m : levelObjects m = []).
  { subst m. unfold updateMotion. destruct a; exact Hobjs. }
  assert (Hcfg_m : physicsConfig m = createDefaultPhysicsConfig).
  { subst m. unfold updateMotion. destruct a; exact Hcfg. }
  assert (Hair_m : wasInAir m = false).
  { subst m. unfold updateMotion. destruct a; cbn; now rewrite Hg. }
  assert (Htr_m : trace m = trace p) by apply motion_trace.
  (* no collisions in an empty level *)
  assert (Ec : resolveCollisions m = m).
  { unfold resolveCollisions. rewrite Hobj_m. reflexivity. }
  rewrite Ec.
  (* the grounding phase *)
  pose (I := fun g : Player.t =>
     trace g = trace p /\ wasInAir g = false
     /\ levelObjects g = [] /\ physicsConfig g = createDefaultPhysicsConfig
     /\ isDead (physicsState g) = false
     /\ gravityInverted (physicsState g) = false
     /\ jumpBuffered (physicsState g) = false
     /\ position (physicsState g) = position (physicsState m)
     /\ velocity (physicsState g) = velocity (physicsState m)).
  assert (Hgnd : I (updateGrounding (getHitbox m) m)).
  { cbv beta delta [updateGrounding].
    step_as I g1 K1. { unfold I. cbn. fin. }
    step_as I g2 K2. { unfold I in *. cbn. fin. }
    step_as I g3 K3.
    { unfold I in *. destruct K2 as (? & Ea & ?). rewrite Ea. cbn. fin. }
    step_as I g4 K4.
    { unfold I in *. destruct K3 as (? & ? & ? & ? & ? & ? & ? & ? & Ev).
      if_case; [ | fin].
      apply andb_prop in Heqb. destruct Heqb as [_ Hneg].
      rewrite Ev in Hneg. exfalso.
      destruct (JSFacts.ltP (Vector2.y (velocity (physicsState m))) 0);
        [lra | discriminate Hneg]. }
    unfold I in *. if_case; cbn; fin. }
  set (g := updateGrounding (getHitbox m) m) in *.
  destruct Hgnd as (Ht & _ & Ho & Hc & Hdg & Hig & Hbg & Hpg & Hvg).
  (* the ground constraint *)
  assert (Hover : groundY < Vector2.y (position (physicsState g))).
  { rewrite Hpg, Hy1, Hy0.
    assert (0 < Vector2.y (velocity (physicsState m)) * dt)
      by (now apply Qmult_lt_0_compat).
    lra. }
  unfold applyGroundConstraint, JS.gt.
  destruct (JSFacts.ltP groundY (Vector2.y (position (physicsState g))));
    [ | contradiction].
  unfold atRest. cbn. fin.
Qed.

(** X18. A live, grounded player with normal gravity and no buffered
    jump, standing at the ground height with zero vertical velocity, with
    no level objects and the default physics configuration, is in the
    same situation after any run of frames without jump input and with a
    positive [deltaTime], and nothing is notified. *)
Theorem rest_is_stable (ticks : list Tick) : forall p,
  atRest p -> Forall idleTick ticks ->
  atRest (runTicks p ticks) /\ trace (runTicks p ticks) = trace p.
Proof.
  induction ticks as [ | k ticks IH]; intros p Hp Hk; cbn [runTicks].
  - split; [exact Hp | reflexivity].
  - inversion Hk as [ | ? ? Hk1 Hk2]; subst.
    destruct (rest_tick p k Hp Hk1) as [Hq Ht].
    destruct (IH _ Hq Hk2) as [Hr Ht'].
    split; [exact Hr | congruence].
Qed.

Lemma rest_is_stable_witness :
  let ticks := [mkTick createDefaultInputState (1 / 60) (Some 0);
                mkTick createDefaultInputState (1 / 30) None] in
  atRest (runTicks (create DEFAULT_CONFIG) ticks)
  /\ trace (runTicks (create DEFAULT_CONFIG) ticks) = trace (create DEFAULT_CONFIG).
Proof.
  intro ticks.
  apply (rest_is_stable ticks (create DEFAULT_CONFIG)).
  - unfold atRest. cbn. repeat split; reflexivity.
  - repeat constructor.
Defined.


(** *** The mode object and the mode id *)

Lemma setMode_sync p m : mode (physicsState p) <> m -> modeSync (setMode p m).
Proof.
  intro H. unfold modeSync, setMode.
  destruct (PlayerModeType_eqb (mode (physicsState p)) m) eqn:E.
  { exfalso. apply H. destruct (mode (physicsState p)), m; cbn in E;
      congruence. }
  destruct p as [st cfg cur pc objs sp au sx wg wa tr].
  destruct m, cur; cbn; unfold CubeMode.onEnter; cbn;
    try destruct (isGrounded st); reflexivity.
Qed.

(** X19. A new player's mode object agrees with the mode recorded in
    its physics state, and the tick, [setMode], [setSpeed],
    [flipGravity], the impulses and [setLevelObjects] keep them in
    agreement. *)
Theorem mode_sync_is_kept p :
  modeSync (create (config p))
  /\ (modeSync p ->
      (forall i dt a, modeSync (update p i dt a))
      /\ (forall m, modeSync (setMode p m))
      /\ (forall sp, modeSync (setSpeed p sp))
      /\ modeSync (flipGravity p)
      /\ (forall f, modeSync (applyJumpImpulse p f))
      /\ (forall f, modeSync (applyBoostImpulse p f))
      /\ (forall objs, modeSync (setLevelObjects p objs))).
Proof.
  split; [reflexivity | ]. intro Hs. unfold modeSync in *.
  split.
  { intros i dt a. destruct (isDead (physicsState p)) eqn:Hd.
    - unfold update. now rewrite Hd.
    - destruct (PlayerFacts.frame_after_motion p i dt a Hd)
        as (F1 & _ & _ & _ & _ & _ & F7 & _).
      destruct (PlayerFacts.motion_setup p i dt a) as (M1 & _ & _ & _ & _ & _ & M7).
      cbv zeta in M1, M7. congruence. }
  split.
  { intro m. destruct (PlayerModeType_eqb (mode (physicsState p)) m) eqn:E.
    - unfold setMode. now rewrite E.
    - apply setMode_sync. intro K. rewrite K in E.
      destruct m; discriminate E. }
  unfold setSpeed, flipGravity, applyJumpImpulse, applyBoostImpulse,
    setLevelObjects.
  destruct (isDead (physicsState p)); cbn; fin.
Qed.

Lemma mode_sync_is_kept_witness :
  modeSync (setMode (create DEFAULT_CONFIG) ship).
Proof.
  destruct (mode_sync_is_kept (create DEFAULT_CONFIG)) as [_ H].
  destruct (H eq_refl) as (_ & Hm & _).
  exact (Hm ship).
Defined.

Lemma respawn_fields p (x y : Q) (m : PlayerModeType)
    (sp : SpeedModeType) (g : bool) :
  let q := respawnAtCheckpoint p x y m sp g in
  physicsState q
  = mkState (Vector2.mk x y) (Vector2.mk 0 0) true g 0 0 0 false 0 false m sp
  /\ currentSpeed q = SPEEDS sp
  /\ currentMode q = currentMode p
  /\ trace q = trace p.
Proof.
  intro q. subst q. unfold respawnAtCheckpoint, setMode, setSpeed.
  cbn.
  assert (Em : PlayerModeType_eqb m m = true) by (now destruct m).
  rewrite Em. cbn. rewrite Bool.eqb_reflx. cbn.
  repeat split; reflexivity.
Qed.

(** X20. [respawnAtCheckpoint] rebuilds the physics state (given
    position, mode, speed and gravity; at rest, grounded, alive) and sets
    the speed, but never replaces the mode object and never calls the
    mode life-cycle: the mode object agrees with the restored mode only
    if it already had that name.  [reset] likewise keeps the mode object
    and the horizontal speed while the state goes back to cube and
    normal. *)
Theorem respawn_keeps_mode_object p (x y : Q) (m : PlayerModeType)
    (sp : SpeedModeType) (g : bool) :
  let q := respawnAtCheckpoint p x y m sp g in
  physicsState q
  = mkState (Vector2.mk x y) (Vector2.mk 0 0) true g 0 0 0 false 0 false m sp
  /\ currentSpeed q = SPEEDS sp
  /\ currentMode q = currentMode p
  /\ trace q = trace p
  /\ (modeSync q <-> IPlayerMode_.name (currentMode p) = m)
  /\ currentMode (reset p) = currentMode p
  /\ currentSpeed (reset p) = currentSpeed p
  /\ mode (physicsState (reset p)) = cube
  /\ speed (physicsState (reset p)) = normal.
Proof.
  intro q. destruct (respawn_fields p x y m sp g) as (F1 & F2 & F3 & F4).
  fold q in F1, F2, F3, F4. unfold modeSync. rewrite F1, F3. cbn [mode].
  repeat split; try assumption; try reflexivity; auto.
Qed.

(** *** Progress *)

(** X21. [getProgress] is always between 0 and 1, is 0 for a level
    length that is not positive, and for a player between the start and
    the end of the level it is the distance travelled from the start
    divided by the level length. *)
Theorem progress_range p (levelLength : Q) :
  0 <= getProgress p levelLength <= 1
  /\ (levelLength <= 0 -> getProgress p levelLength = 0)
  /\ (0 < levelLength ->
      startX p <= Vector2.x (position (physicsState p)) ->
      Vector2.x (position (physicsState p)) - startX p <= levelLength ->
      getProgress p levelLength
      == (Vector2.x (position (physicsState p)) - startX p) / levelLength).
Proof.
  unfold getProgress.
  destruct (JSFacts.leP levelLength 0) as [Hl | Hl].
  - split; [lra | ]. split; [reflexivity | ]. intros. lra.
  - apply Qnot_le_lt in Hl.
    set (pr := (Vector2.x (position (physicsState p)) - startX p) / levelLength).
    assert (Hpr : pr * levelLength
                  == Vector2.x (position (physicsState p)) - startX p).
    { subst pr. field. lra. }
    clearbody pr.
    assert (Hc : (pr <= 0 /\ JS.Math_max 0 (JS.Math_min 1 pr) == 0)
                 \/ (0 <= pr <= 1 /\ JS.Math_max 0 (JS.Math_min 1 pr) == pr)
                 \/ (1 <= pr /\ JS.Math_max 0 (JS.Math_min 1 pr) == 1)).
    { apply (ModeMore.clamp_spec pr 0 1). lra. }
    split; [destruct Hc as [[? ->] | [[? ->] | [? ->]]]; lra | ].
    split; [intros; lra | ]. intros _ H1 H2.
    assert (H0 : 0 <= pr).
    { destruct (Qlt_le_dec pr 0) as [Hn | ]; [ | assumption].
      assert (0 < (- pr) * levelLength) by (apply Qmult_lt_0_compat; lra).
      assert ((- pr) * levelLength == - (pr * levelLength)) by ring.
      lra. }
    assert (H1' : pr <= 1).
    { destruct (Qlt_le_dec 1 pr) as [Hn | ]; [ | assumption].
      assert (0 < (pr - 1) * levelLength) by (apply Qmult_lt_0_compat; lra).
      assert ((pr - 1) * levelLength == pr * levelLength - levelLength) by ring.
      lra. }
    destruct Hc as [[? ->] | [[? ->] | [? ->]]]; lra.
Qed.

(** One second into the music at normal speed, in a level 1000 long. *)
Lemma progress_range_witness :
  let p := update (create DEFAULT_CONFIG) createDefaultInputState (1 / 60)
             (Some 1) in
  Vector2.x (position (physicsState p)) == 431.58
  /\ getProgress p 1000 == 0.31158.
Proof.
  intro p.
  assert (Ex : Vector2.x (position (physicsState p)) == 431.58)
    by (vm_compute; reflexivity).
  split; [exact Ex | ].
  destruct (progress_range p 1000) as (_ & _ & H).
  rewrite H.
  - rewrite Ex. reflexivity.
  - reflexivity.
  - vm_compute. discriminate.
  - vm_compute. discriminate.
Defined.

(** *** A dead player *)

Lemma dead_player_is_frozen p (ticks : list Tick) (force : Q) :
  isDead (physicsState p) = true ->
  runTicks p ticks = p
  /\ applyJumpImpulse p force = p
  /\ applyBoostImpulse p force = p
  /\ die p = p.
Proof.
  intro Hd. split.
  - induction ticks as [ | k ticks IH]; cbn [runTicks]; [reflexivity | ].
    unfold update. now rewrite Hd.
  - unfold applyJumpImpulse, applyBoostImpulse, die. now rewrite Hd.
Qed.

Lemma dead_player_is_frozen_witness :
  let p := die (create DEFAULT_CONFIG) in
  runTicks p [mkTick (mkInput true true false) (1 / 60) (Some 1)] = p
  /\ applyJumpImpulse p 900 = p
  /\ applyBoostImpulse p 900 = p
  /\ die p = p.
Proof.
  intro p.
  apply (dead_player_is_frozen p [mkTick (mkInput true true false) (1 / 60) (Some 1)] 900).
  reflexivity.
Defined.

End PlayerMore.

(** ** utils/math.ts *)

Module MathFacts.
Import MathUtils.

Lemma trunc_inject (n : Z) : JS.trunc (inject_Z n / 360) = Z.quot n 360.
Proof.
  unfold JS.trunc, Qdiv, Qmult, Qinv, inject_Z. cbn [Qnum Qden].
  rewrite Z.mul_1_r. reflexivity.
Qed.

Lemma rem_inject (n : Z) : JS.rem (inject_Z n) 360 == inject_Z (Z.rem n 360).
Proof.
  unfold JS.rem. rewrite trunc_inject.
  pose proof (Z.quot_rem' n 360) as E.
  assert (Er : Z.rem n 360 = (n - 360 * Z.quot n 360)%Z) by lia.
  rewrite Er. unfold Z.sub.
  rewrite inject_Z_plus, inject_Z_opp, inject_Z_mult. reflexivity.
Qed.

(** X29. [normalizeAngle(d)] lies in [[0, 360)], and for a whole number
    of degrees it is the non-negative remainder of the division by
    360. *)
Theorem normalizeAngle_representative (d : Q) (n : Z) :
  0 <= normalizeAngle d < 360 /\
  normalizeAngle (inject_Z n) == inject_Z (n mod 360).
Proof.
  split; [apply RemFacts.normalize_range | ].
  unfold normalizeAngle.
  assert (E1 : JS.rem (inject_Z n) 360 + 360 == inject_Z (Z.rem n 360 + 360)).
  { rewrite rem_inject, inject_Z_plus. reflexivity. }
  assert (E2 : JS.rem (JS.rem (inject_Z n) 360 + 360) 360
               == JS.rem (inject_Z (Z.rem n 360 + 360)) 360).
  { unfold JS.rem at 1 3.
    assert (T : JS.trunc ((JS.rem (inject_Z n) 360 + 360) / 360)
                = JS.trunc (inject_Z (Z.rem n 360 + 360) / 360)).
    { assert (B : 0 <= (JS.rem (inject_Z n) 360 + 360) / 360).
      { pose proof (RemFacts.rem360_lower (inject_Z n)). qdiv. lra. }
      assert (Q12 : (JS.rem (inject_Z n) 360 + 360) / 360
                    == inject_Z (Z.rem n 360 + 360) / 360)
        by (now rewrite E1).
      assert (B' : 0 <= inject_Z (Z.rem n 360 + 360) / 360)
        by (now rewrite <- Q12).
      pose proof (RemFacts.trunc_nonneg _ B) as [L1 U1].
      pose proof (RemFacts.trunc_nonneg _ B') as [L2 U2].
      set (q1 := (JS.rem (inject_Z n) 360 + 360) / 360) in *.
      set (q2 := inject_Z (Z.rem n 360 + 360) / 360) in *.
      assert (A : (JS.trunc q1 < JS.trunc q2 + 1)%Z).
      { rewrite Zlt_Qlt, inject_Z_plus. change (inject_Z 1) with 1. lra. }
      assert (A' : (JS.trunc q2 < JS.trunc q1 + 1)%Z).
      { rewrite Zlt_Qlt, inject_Z_plus. change (inject_Z 1) with 1. lra. }
      lia. }
    rewrite T, E1. reflexivity. }
  rewrite E2, rem_inject.
  assert (Em : Z.rem (Z.rem n 360 + 360) 360 = (n mod 360)%Z).
  { pose proof (Z.rem_bound_abs n 360 ltac:(lia)) as Hb.
    pose proof (Z.quot_rem' n 360) as Eq.
    assert (Hr : (- 360 < Z.rem n 360 < 360)%Z) by lia.
    rewrite Z.rem_mod_nonneg by lia.
    apply (Z.mod_unique n 360 (Z.quot n 360 - 1 + (Z.rem n 360 + 360) / 360)).
    - left. apply Z.mod_pos_bound. lia.
    - pose proof (Z.div_mod (Z.rem n 360 + 360) 360 ltac:(lia)). lia. }
  now rewrite Em.
Qed.

(** X30. [inverseLerp] answers 0 at the start of the range, 1 at its
    end, and 0 everywhere on a range that is a single point instead of
    dividing by zero; [lerp] answers the start at 0 and, on a range with
    start <= end, never decreases when its factor grows; [remap] sends
    the start of the source range, and every value when the source range
    is a single point, to the start of the target range. *)
Theorem lerp_edge_cases (start end_ v t1 t2 toMin toMax : Q) :
  inverseLerp start end_ start == 0
  /\ (~ start == end_ -> inverseLerp start end_ end_ == 1)
  /\ inverseLerp start start v = 0
  /\ lerp start end_ 0 == start
  /\ (start <= end_ -> t1 <= t2 ->
      lerp start end_ t1 <= lerp start end_ t2)
  /\ remap start start end_ toMin toMax == toMin
  /\ remap v start start toMin toMax == toMin.
Proof.
  assert (Es : Qeq_bool start start = true) by (apply Qeq_bool_iff; reflexivity).
  assert (Hm : start <= end_ -> t1 <= t2 ->
               lerp start end_ t1 <= lerp start end_ t2).
  { intros H1 H2. unfold lerp.
    assert (0 <= (end_ - start) * (t2 - t1))
      by (apply Qmult_le_0_compat; lra).
    lra. }
  unfold remap, inverseLerp. rewrite Es.
  destruct (Qeq_bool start end_) eqn:E.
  - split; [reflexivity | ]. split.
    { intro H. apply Qeq_bool_iff in E. contradiction. }
    split; [reflexivity | ]. split; [unfold lerp; ring | ].
    split; [exact Hm | ]. split; unfold lerp; ring.
  - assert (D : ~ end_ - start == 0).
    { intro A. apply Qeq_bool_neq in E. apply E. lra. }
    split; [field; exact D | ]. split; [intros _; field; exact D | ].
    split; [reflexivity | ]. split; [unfold lerp; ring | ].
    split; [exact Hm | ]. split; unfold lerp; [field; exact D | ring].
Qed.

Lemma lerp_edge_cases_witness :
  MathUtils.inverseLerp 10 20 20 == 1
  /\ MathUtils.lerp 10 20 0.25 <= MathUtils.lerp 10 20 0.75.
Proof.
  destruct (lerp_edge_cases 10 20 0 0.25 0.75 0 100) as (_ & H & _ & _ & M & _).
  split; [apply H; intro K; discriminate K | apply M; discriminate].
Defined.

End MathFacts.

(** ** The checkpoint manager *)

Module CheckpointFacts.

Import CheckpointManager.

Lemma get_set_same {V : Type} (m : JSMap.t V) k v :
  JSMap.get (JSMap.set m k v) k = Some v.
Proof.
  induction m as [ | [k' v'] m IH]; cbn.
  - now rewrite Z.eqb_refl.
  - destruct (Z.eqb k' k) eqn:E; cbn.
    + now rewrite Z.eqb_refl.
    + now rewrite E.
Qed.

Lemma get_set_other {V : Type} (m : JSMap.t V) k k' v :
  k' <> k -> JSMap.get (JSMap.set m k v) k' = JSMap.get m k'.
Proof.
  intro H. induction m as [ | [k0 v0] m IH]; cbn.
  - destruct (Z.eqb k k') eqn:E; [apply Z.eqb_eq in E; congruence | reflexivity].
  - destruct (Z.eqb k0 k) eqn:E; cbn.
    + apply Z.eqb_eq in E. subst k0.
      destruct (Z.eqb k k') eqn:E'; [apply Z.eqb_eq in E'; congruence | reflexivity].
    + destruct (Z.eqb k0 k'); [reflexivity | exact IH].
Qed.

Lemma has_add (s : JSSet.t) k k' :
  JSSet.has (JSSet.add s k) k' = JSSet.has s k' || Z.eqb k' k.
Proof.
  unfold JSSet.add. destruct (JSSet.has s k) eqn:E.
  - destruct (Z.eqb k' k) eqn:E'.
    + apply Z.eqb_eq in E'. subst. rewrite E. reflexivity.
    + now rewrite orb_false_r.
  - unfold JSSet.has. rewrite existsb_app. cbn. now rewrite orb_false_r.
Qed.

Lemma has_add_same (s : JSSet.t) k : JSSet.has (JSSet.add s k) k = true.
Proof. rewrite has_add, Z.eqb_refl. apply orb_true_r. Qed.

Lemma add_present (s : JSSet.t) k : JSSet.has s k = true -> JSSet.add s k = s.
Proof. intro H. unfold JSSet.add. now rewrite H. Qed.

Lemma record_lookup (cm : t) (i : Z) (s : PhysicsState)
    (audioTime gridX gridY now : Q) :
  isPracticeMode cm = true ->
  let c := CheckpointState.mk i gridX gridY audioTime (mode s) (speed s)
             (gravityInverted s) (Vector2.x (position s))
             (Vector2.y (position s)) now in
  let cm' := fst (recordCheckpoint cm i s audioTime gridX gridY now) in
  snd (recordCheckpoint cm i s audioTime gridX gridY now) = Some c /\
  getCheckpointState cm' i = Some c /\
  getLastCheckpoint cm' = Some c /\
  getRespawnState cm' = Some c /\
  hasCheckpoint cm' = true /\
  isCheckpointTriggered cm' i = true /\
  (forall j, j <> i -> getCheckpointState cm' j = getCheckpointState cm j).
Proof.
  intros Hp c cm'. subst c cm'. unfold isPracticeMode in Hp.
  unfold recordCheckpoint. cbn [_isPracticeMode]. rewrite Hp. cbn [negb].
  unfold getRespawnState.
  unfold getCheckpointState, getLastCheckpoint, hasCheckpoint,
    isCheckpointTriggered, JSMap.has.
  destruct (negb (JSSet.has (triggeredCheckpoints cm) i));
    cbn [fst snd emit _isPracticeMode checkpointStates lastCheckpointId
         triggeredCheckpoints];
    rewrite ?Hp; cbn [negb]; rewrite !get_set_same, has_add_same;
    repeat split; try (intros j Hj; apply get_set_other; exact Hj).
Qed.

(** X22. In practice mode a recorded checkpoint can be read back: the
    call returns the state built from the player's physics state, and
    that state is then the one stored under the id, the last checkpoint
    and the respawn state; the states stored under other ids are
    untouched. *)
Theorem record_then_lookup (cm : t) (i : Z) (s : PhysicsState)
    (audioTime gridX gridY now : Q) :
  isPracticeMode cm = true ->
  let c := CheckpointState.mk i gridX gridY audioTime (mode s) (speed s)
             (gravityInverted s) (Vector2.x (position s))
             (Vector2.y (position s)) now in
  let cm' := fst (recordCheckpoint cm i s audioTime gridX gridY now) in
  snd (recordCheckpoint cm i s audioTime gridX gridY now) = Some c /\
  getCheckpointState cm' i = Some c /\
  getLastCheckpoint cm' = Some c /\
  getRespawnState cm' = Some c /\
  hasCheckpoint cm' = true /\
  isCheckpointTriggered cm' i = true /\
  (forall j, j <> i -> getCheckpointState cm' j = getCheckpointState cm j).
Proof. exact (record_lookup cm i s audioTime gridX gridY now). Qed.

Lemma record_then_lookup_witness :
  getRespawnState
    (fst (recordCheckpoint (setPracticeMode create true) 7
            createDefaultPhysicsState 5 10 11 0)) =
  Some (CheckpointState.mk 7 10 11 5 cube normal false 0 0 0).
Proof.
  exact (proj1 (proj2 (proj2 (proj2
    (record_then_lookup (setPracticeMode create true) 7
       createDefaultPhysicsState 5 10 11 0 eq_refl))))).
Defined.

(** Outside practice mode a recorded checkpoint only counts as
    triggered: the call returns null, stores nothing, emits nothing and
    leaves the respawn state null. *)
Lemma record_outside_practice_mode (cm : t) (i : Z) (s : PhysicsState)
    (audioTime gridX gridY now : Q) :
  isPracticeMode cm = false ->
  let cm' := fst (recordCheckpoint cm i s audioTime gridX gridY now) in
  snd (recordCheckpoint cm i s audioTime gridX gridY now) = None /\
  getAllCheckpointStates cm' = getAllCheckpointStates cm /\
  lastCheckpointId cm' = lastCheckpointId cm /\
  getRespawnState cm' = None /\
  emitted cm' = emitted cm /\
  isCheckpointTriggered cm' i = true.
Proof.
  intros Hp cm'. subst cm'. unfold isPracticeMode in Hp.
  unfold recordCheckpoint, getRespawnState, isCheckpointTriggered.
  cbn [_isPracticeMode]. rewrite Hp.
  cbn [negb fst snd _isPracticeMode triggeredCheckpoints].
  rewrite has_add_same. repeat split.
Qed.

Lemma record_outside_practice_mode_witness :
  snd (recordCheckpoint create 1 createDefaultPhysicsState 5 10 11 0) = None /\
  isCheckpointTriggered
    (fst (recordCheckpoint create 1 createDefaultPhysicsState 5 10 11 0)) 1
  = true.
Proof.
  pose proof (record_outside_practice_mode create 1 createDefaultPhysicsState
                5 10 11 0 eq_refl) as H.
  split; [exact (proj1 H) | exact (proj2 (proj2 (proj2 (proj2 (proj2 H)))))].
Defined.

Lemma record_fields (cm : t) (i : Z) (s : PhysicsState) (a g h n : Q) :
  let r := recordCheckpoint cm i s a g h n in
  _isPracticeMode (fst r) = _isPracticeMode cm /\
  triggeredCheckpoints (fst r) = JSSet.add (triggeredCheckpoints cm) i /\
  checkpointDefinitions (fst r) = checkpointDefinitions cm /\
  emitted (fst r) =
    emitted cm ++
    match snd r with
    | Some c =>
        if JSSet.has (triggeredCheckpoints cm) i then []
        else [checkpointReached c]
    | None => []
    end.
Proof.
  intro r. subst r. unfold recordCheckpoint. cbn [_isPracticeMode].
  destruct (_isPracticeMode cm) eqn:Hp; cbn [negb].
  - destruct (JSSet.has (triggeredCheckpoints cm) i); cbn;
      rewrite ?app_nil_r; repeat split; assumption.
  - cbn. rewrite app_nil_r. repeat split; assumption.
Qed.

Lemma add_size (s : JSSet.t) k :
  JSSet.size (JSSet.add s k) =
  (JSSet.size s + if JSSet.has s k then 0 else 1)%nat.
Proof.
  unfold JSSet.add, JSSet.size. destruct (JSSet.has s k).
  - lia.
  - now rewrite length_app.
Qed.

(** X23. [checkpointReached] is emitted exactly when a state is saved for
    a checkpoint that had not been triggered before; recording the same
    checkpoint again emits nothing and does not change the count of
    reached checkpoints. *)
Theorem reached_event_once (cm : t) (i : Z) (s s' : PhysicsState)
    (a g h n a' g' h' n' : Q) :
  let r := recordCheckpoint cm i s a g h n in
  let r' := recordCheckpoint (fst r) i s' a' g' h' n' in
  emitted (fst r) =
    emitted cm ++
    match snd r with
    | Some c => if isCheckpointTriggered cm i then [] else [checkpointReached c]
    | None => []
    end /\
  getReachedCheckpointCount (fst r) =
    (getReachedCheckpointCount cm +
     if isCheckpointTriggered cm i then 0 else 1)%nat /\
  emitted (fst r') = emitted (fst r) /\
  getReachedCheckpointCount (fst r') = getReachedCheckpointCount (fst r).
Proof.
  intros r r'.
  destruct (record_fields cm i s a g h n) as (_ & T1 & _ & E1).
  destruct (record_fields (fst r) i s' a' g' h' n') as (_ & T2 & _ & E2).
  fold r in T1, E1. fold r' in T2, E2.
  unfold isCheckpointTriggered, getReachedCheckpointCount.
  assert (Hi : JSSet.has (triggeredCheckpoints (fst r)) i = true).
  { rewrite T1. apply has_add_same. }
  rewrite Hi in E2.
  split; [exact E1 | split; [ | split]].
  - rewrite T1. apply add_size.
  - rewrite E2. destruct (snd r'); apply app_nil_r.
  - rewrite T2, add_size, Hi. lia.
Qed.

Lemma consistent_empty b d tr em : managerConsistent (mk b [] None d tr em).
Proof.
  split; [intros _; split; reflexivity | split; cbn; intros; discriminate].
Qed.

Lemma consistent_setPracticeMode cm b :
  managerConsistent cm -> managerConsistent (setPracticeMode cm b).
Proof.
  intros (H1 & H2 & H3). unfold setPracticeMode.
  destruct (Bool.eqb (_isPracticeMode cm) b) eqn:E; cbn [negb].
  - exact (conj H1 (conj H2 H3)).
  - destruct b; cbn [negb].
    + split; [cbn; discriminate | split; [exact H2 | exact H3]].
    + apply consistent_empty.
Qed.

Lemma consistent_record cm i s a g h n :
  managerConsistent cm ->
  managerConsistent (fst (recordCheckpoint cm i s a g h n)).
Proof.
  intros (H1 & H2 & H3). unfold recordCheckpoint. cbn [_isPracticeMode].
  destruct (_isPracticeMode cm) eqn:Hp; cbn [negb].
  - assert (K : forall (b : bool) cm0 e, managerConsistent cm0 ->
                  managerConsistent (if b then emit cm0 e else cm0)).
    { intros b cm0 e H0. destruct b; exact H0. }
    cbn [fst]. apply K. split; [ | split]; cbn.
    + discriminate.
    + intros j Hj. injection Hj as <-. unfold JSMap.has.
      now rewrite get_set_same.
    + intros j c. destruct (Z.eq_dec j i) as [-> | Hne].
      * rewrite get_set_same. intro Hc. injection Hc as <-. reflexivity.
      * rewrite (get_set_other _ _ _ _ Hne). apply H3.
  - cbn [fst]. split; [ | split]; cbn.
    + intros _. apply H1. reflexivity.
    + exact H2.
    + exact H3.
Qed.

Lemma consistent_call cm c :
  managerConsistent cm -> managerConsistent (managerCall cm c).
Proof.
  intro H. destruct c; cbn [managerCall].
  - now apply consistent_setPracticeMode.
  - unfold togglePracticeMode. cbn [fst]. now apply consistent_setPracticeMode.
  - exact H.
  - now apply consistent_record.
  - exact H.
  - exact H.
  - apply consistent_empty.
  - apply consistent_empty.
  - apply consistent_empty.
Qed.

Lemma consistent_calls l : forall cm,
  managerConsistent cm -> managerConsistent (managerCalls cm l).
Proof.
  induction l as [ | c l IH]; intros cm H; cbn.
  - exact H.
  - apply IH. now apply consistent_call.
Qed.

(** X24. Whatever public calls are made on a new manager: outside
    practice mode no checkpoint state is stored and there is nothing to
    respawn at; [hasCheckpoint()] holds exactly when a last checkpoint
    was set, and then [getRespawnState()] returns a state; every stored
    state is stored under its own id. *)
Theorem manager_stays_consistent (l : list ManagerCall) :
  let cm := managerCalls create l in
  (isPracticeMode cm = false ->
   getAllCheckpointStates cm = [] /\ hasCheckpoint cm = false) /\
  (hasCheckpoint cm = true <-> lastCheckpointId cm <> None) /\
  (hasCheckpoint cm = true <-> exists c, getRespawnState cm = Some c) /\
  (forall i c, getCheckpointState cm i = Some c -> CheckpointState.id c = i).
Proof.
  intro cm.
  destruct (consistent_calls l create (consistent_empty false [] [] []))
    as (H1 & H2 & H3).
  fold cm in H1, H2, H3.
  unfold isPracticeMode, getAllCheckpointStates, hasCheckpoint,
    getRespawnState, getLastCheckpoint, getCheckpointState.
  split; [ | split; [ | split]].
  - intro Hp. destruct (H1 Hp) as [-> ->]. split; reflexivity.
  - destruct (lastCheckpointId cm) as [i | ] eqn:El.
    + rewrite (H2 i eq_refl). split; [discriminate | reflexivity].
    + split; [discriminate | congruence].
  - destruct (_isPracticeMode cm) eqn:Hp; cbn [negb].
    + destruct (lastCheckpointId cm) as [i | ] eqn:El.
      * specialize (H2 i eq_refl). unfold JSMap.has in *.
        destruct (JSMap.get (checkpointStates cm) i) as [c | ];
          [ | discriminate].
        split; [intros _; now exists c | reflexivity].
      * split; [discriminate | intros [c Hc]; discriminate].
    + destruct (H1 eq_refl) as [_ ->].
      split; [discriminate | intros [c Hc]; discriminate].
  - exact H3.
Qed.

Lemma manager_stays_consistent_witness :
  exists c,
    getRespawnState
      (managerCalls create
         [CallSetPracticeMode true;
          CallRecordCheckpoint 1 createDefaultPhysicsState 5 10 11 0])
    = Some c.
Proof.
  destruct (manager_stays_consistent
              [CallSetPracticeMode true;
               CallRecordCheckpoint 1 createDefaultPhysicsState 5 10 11 0])
    as (_ & _ & H & _).
  apply H. reflexivity.
Defined.

(** X25. Toggling practice mode twice restores the mode but forgets every
    saved state and every triggered checkpoint, whichever mode it started
    in; the definitions loaded from the level are kept and both changes
    are announced. *)
Theorem toggle_twice_forgets (cm : t) :
  let cm1 := fst (togglePracticeMode cm) in
  let cm2 := fst (togglePracticeMode cm1) in
  snd (togglePracticeMode cm) = negb (isPracticeMode cm) /\
  isPracticeMode cm2 = isPracticeMode cm /\
  getAllCheckpointStates cm2 = [] /\
  hasCheckpoint cm2 = false /\
  getRespawnState cm2 = None /\
  getReachedCheckpointCount cm2 = 0%nat /\
  getCheckpointDefinitions cm2 = getCheckpointDefinitions cm /\
  emitted cm2 =
    emitted cm ++ [practiceModeChanged (negb (isPracticeMode cm));
                   practiceModeChanged (isPracticeMode cm)].
Proof.
  destruct cm as [b st l d tr em].
  destruct b; cbn; rewrite <- app_assoc; repeat split.
Qed.

Lemma fold_set_get (l : list CheckpointDefinition.t) :
  forall (acc : JSMap.t CheckpointDefinition.t) i,
  JSMap.get
    (fold_left (fun defs c => JSMap.set defs (CheckpointDefinition.id c) c)
       l acc) i =
  match find (fun c => Z.eqb (CheckpointDefinition.id c) i) (rev l) with
  | Some c => Some c
  | None => JSMap.get acc i
  end.
Proof.
  induction l as [ | c l IH]; intros acc i; cbn [fold_left rev].
  - reflexivity.
  - rewrite IH. clear IH.
    assert (F : forall l1 l2,
               find (fun c0 => Z.eqb (CheckpointDefinition.id c0) i) (l1 ++ l2) =
               match find (fun c0 => Z.eqb (CheckpointDefinition.id c0) i) l1 with
               | Some x => Some x
               | None => find (fun c0 => Z.eqb (CheckpointDefinition.id c0) i) l2
               end).
    { induction l1 as [ | x l1 IH1]; intro l2; cbn; [reflexivity | ].
      destruct (Z.eqb (CheckpointDefinition.id x) i); [reflexivity | apply IH1]. }
    rewrite F. destruct (find _ (rev l)); [reflexivity | ].
    cbn [find]. destruct (Z.eqb (CheckpointDefinition.id c) i) eqn:E.
    + apply Z.eqb_eq in E. subst i. apply get_set_same.
    + apply get_set_other. intro A. subst i. now rewrite Z.eqb_refl in E.
Qed.

Lemma set_keys {V : Type} (m : JSMap.t V) k v :
  NoDup (map fst m) ->
  NoDup (map fst (JSMap.set m k v)) /\
  (forall j, In j (map fst (JSMap.set m k v)) <-> j = k \/ In j (map fst m)).
Proof.
  induction m as [ | [k0 v0] m IH]; cbn; intro H.
  - split; [repeat constructor; intros [] | intro j; intuition].
  - inversion H as [ | ? ? Hn Hd]; subst.
    destruct (Z.eqb k0 k) eqn:E; cbn.
    + apply Z.eqb_eq in E. subst k0. split; [exact H | intro j; intuition].
    + destruct (IH Hd) as [I1 I2]. split.
      * constructor; [ | exact I1]. rewrite I2. intros [A | A].
        -- subst k0. now rewrite Z.eqb_refl in E.
        -- contradiction.
      * intro j. rewrite I2. intuition.
Qed.

Lemma fold_set_keys (l : list CheckpointDefinition.t) :
  forall acc : JSMap.t CheckpointDefinition.t,
  NoDup (map fst acc) ->
  NoDup (map fst
    (fold_left (fun defs c => JSMap.set defs (CheckpointDefinition.id c) c)
       l acc)).
Proof.
  induction l as [ | c l IH]; intros acc H; cbn [fold_left]; [exact H | ].
  apply IH. now apply set_keys.
Qed.

(** X26. [loadCheckpoints] replaces the definitions by those of the
    list, the last one winning when an id occurs more than once: looking
    up an id finds the last definition of the list with that id (nothing
    when there is none), and the definitions are kept under distinct
    ids.  Loading an empty list leaves no definition. *)
Theorem loadCheckpoints_lookup (cm : t) (l : list CheckpointDefinition.t)
    (i : Z) :
  getCheckpointDefinition (loadCheckpoints cm l) i =
    find (fun c => Z.eqb (CheckpointDefinition.id c) i) (rev l) /\
  NoDup (map fst (checkpointDefinitions (loadCheckpoints cm l))) /\
  getCheckpointDefinitions (loadCheckpoints cm []) = [].
Proof.
  unfold getCheckpointDefinition, getCheckpointDefinitions, loadCheckpoints.
  cbn [checkpointDefinitions]. split; [ | split].
  - rewrite fold_set_get. cbn [JSMap.get]. now destruct (find _ _).
  - apply fold_set_keys. constructor.
  - reflexivity.
Qed.

End CheckpointFacts.

(** ** Portals and checkpoints in the scene *)

Module SceneFacts.

Import GameScene.

Lemma lt_compat a b c d : a == c -> b == d -> (a <? b) = (c <? d).
Proof.
  intros H1 H2. unfold JS.lt. f_equal.
  destruct (Qle_bool b a) eqn:E1, (Qle_bool d c) eqn:E2; try reflexivity.
  - apply Qle_bool_iff in E1. rewrite H1, H2 in E1.
    apply Qle_bool_iff in E1. congruence.
  - apply Qle_bool_iff in E2. rewrite <- H1, <- H2 in E2.
    apply Qle_bool_iff in E2. congruence.
Qed.

Lemma and4_eq (a b c d a' b' c' d' : bool) :
  a = a' -> b = b' -> c = c' -> d = d' ->
  a && b && c && d = a' && b' && c' && d'.
Proof. now intros -> -> -> ->. Qed.

Lemma portalOverlap_AABB hb p :
  portalOverlap hb p =
  AABB.checkAABBOverlap hb
    (AABB.createAABBFromCenter (PooledPortal.x p) (PooledPortal.y p) 32 100).
Proof.
  unfold portalOverlap, AABB.checkAABBOverlap, AABB.createAABBFromCenter.
  cbv zeta. cbn [AABB.x AABB.y AABB.width AABB.height]. unfold JS.gt.
  apply and4_eq; apply lt_compat; try reflexivity; qdiv; lra.
Qed.

Lemma checkpointOverlap_AABB hb c :
  checkpointOverlap hb c =
  AABB.checkAABBOverlap hb
    (AABB.createAABBFromCenter (PooledCheckpoint.x c) (PooledCheckpoint.y c)
       32 32).
Proof.
  unfold checkpointOverlap, AABB.checkAABBOverlap, AABB.createAABBFromCenter.
  cbv zeta. cbn [AABB.x AABB.y AABB.width AABB.height]. unfold JS.gt.
  apply and4_eq; apply lt_compat; try reflexivity; qdiv; lra.
Qed.

Lemma portal_loop hb : forall portals player,
  checkPortalLoop hb player portals =
  (fold_left handlePortalTrigger
     (map PooledPortal.trigger (filter (portalFires hb) portals)) player,
   map (fun p => if portalFires hb p then PooledPortal.trigger p else p)
     portals).
Proof.
  induction portals as [ | p rest IH]; intro player; cbn [checkPortalLoop].
  - reflexivity.
  - cbn [filter map].
    destruct (PooledPortal.shouldTrigger p) eqn:Es;
      [destruct (portalOverlap hb p) eqn:Eo | ];
      cbn [negb]; rewrite IH;
      match goal with
      | |- context [portalFires hb p] =>
          let F := fresh in
          assert (F : portalFires hb p = _)
            by (unfold portalFires; rewrite Es; try rewrite Eo; reflexivity);
          rewrite F
      end; reflexivity.
Qed.

(** X27. One pass of [checkPortalCollisions] fires exactly the portals
    that are untriggered and overlap the 32 x 100 box centred on the
    portal, judged against the player's hitbox as it was before the
    pass; it applies their effects to the player in list order, marks
    them triggered and leaves the other portals as they were.  A pass
    over triggered portals changes nothing. *)
Theorem portal_pass (player : Player.t) (portals : list PooledPortal.t) :
  let hb := Player.getHitbox player in
  let fires p :=
    PooledPortal.shouldTrigger p &&
    AABB.checkAABBOverlap hb
      (AABB.createAABBFromCenter (PooledPortal.x p) (PooledPortal.y p) 32 100) in
  checkPortalCollisions player portals =
    (fold_left handlePortalTrigger
       (map PooledPortal.trigger (filter fires portals)) player,
     map (fun p => if fires p then PooledPortal.trigger p else p) portals) /\
  checkPortalCollisions player (map PooledPortal.trigger portals) =
    (player, map PooledPortal.trigger portals).
Proof.
  intros hb fires.
  assert (E : forall p, fires p = portalFires hb p).
  { intro p. unfold fires, portalFires. now rewrite portalOverlap_AABB. }
  assert (R : forall l, checkPortalCollisions player l =
    (fold_left handlePortalTrigger
       (map PooledPortal.trigger (filter fires l)) player,
     map (fun p => if fires p then PooledPortal.trigger p else p) l)).
  { intro l. unfold checkPortalCollisions. fold hb. rewrite portal_loop.
    f_equal.
    - f_equal. f_equal. apply filter_ext. intro p. now rewrite E.
    - apply map_ext. intro p. now rewrite E. }
  split; [apply R | ].
  rewrite R. clear R E.
  assert (N : forall p, fires (PooledPortal.trigger p) = false)
    by reflexivity.
  clearbody fires hb.
  induction portals as [ | p rest IH]; cbn [filter map]; [reflexivity | ].
  rewrite N. injection IH as I1 I2. rewrite I1, I2. reflexivity.
Qed.

Lemma floor_half (n : Z) (q : Q) : q == inject_Z n + 0.5 -> Qfloor q = n.
Proof.
  intro H. rewrite (Qfloor_comp _ _ H).
  pose proof (Qfloor_le (inject_Z n + 0.5)) as L.
  pose proof (Qlt_floor (inject_Z n + 0.5)) as U.
  rewrite inject_Z_plus in U. change (inject_Z 1) with 1 in U.
  assert (A : (Qfloor (inject_Z n + 0.5) < n + 1)%Z).
  { rewrite Zlt_Qlt, inject_Z_plus. change (inject_Z 1) with 1. lra. }
  assert (B : (n - 1 < Qfloor (inject_Z n + 0.5))%Z).
  { unfold Z.sub. rewrite Zlt_Qlt, inject_Z_plus, inject_Z_opp.
    change (inject_Z 1) with 1. lra. }
  lia.
Qed.

(** X28. A checkpoint reached in practice mode brings the player back to
    where it was: the state saved by [handleCheckpointTrigger] for a
    checkpoint activated at whole grid coordinates carries those grid
    coordinates, and respawning any player at the respawn state restores
    the position, mode field, speed and gravity direction of the player
    that triggered it, alive, at rest and grounded.  The mode object of
    the respawned player is not changed. *)
Theorem checkpoint_round_trip (cm : CheckpointManager.t)
    (player later : Player.t) (gx gy : Z) (i : Z) (name : String.string)
    (audioTime now : Q) :
  CheckpointManager.isPracticeMode cm = true ->
  let checkpoint :=
    PooledCheckpoint.trigger
      (PooledCheckpoint.activate (inject_Z gx) (inject_Z gy) i name) in
  let cm1 := handleCheckpointTrigger cm player checkpoint audioTime now in
  exists c,
    CheckpointManager.getRespawnState cm1 = Some c /\
    CheckpointState.id c = i /\
    CheckpointState.gridX c = inject_Z gx /\
    CheckpointState.gridY c = inject_Z gy /\
    CheckpointState.audioTime c = audioTime /\
    let s := Player.physicsState player in
    let s' := Player.physicsState (snd (respawnAtCheckpoint cm1 later c)) in
    Vector2.x (position s') = Vector2.x (position s) /\
    Vector2.y (position s') = Vector2.y (position s) /\
    mode s' = mode s /\
    speed s' = speed s /\
    gravityInverted s' = gravityInverted s /\
    velocity s' = Vector2.mk 0 0 /\
    isDead s' = false /\
    isGrounded s' = true /\
    Player.currentSpeed (snd (respawnAtCheckpoint cm1 later c)) =
      SPEEDS (speed s) /\
    Player.currentMode (snd (respawnAtCheckpoint cm1 later c)) =
      Player.currentMode later /\
    CheckpointManager.emitted (fst (respawnAtCheckpoint cm1 later c)) =
      CheckpointManager.emitted cm1 ++ [CheckpointManager.checkpointRespawn c].
Proof.
  intros Hp checkpoint cm1.
  pose proof (CheckpointFacts.record_lookup cm i
                (Player.physicsState player) audioTime
                (Math_floor (PooledCheckpoint.x checkpoint / GRID.UNIT_SIZE))
                (Math_floor (PooledCheckpoint.y checkpoint / GRID.UNIT_SIZE))
                now Hp) as R.
  cbv zeta in R. destruct R as (_ & _ & _ & R & _).
  eexists. split; [exact R | ].
  cbn [CheckpointState.id CheckpointState.gridX CheckpointState.gridY
       CheckpointState.audioTime CheckpointState.playerX
       CheckpointState.playerY CheckpointState.mode CheckpointState.speed
       CheckpointState.gravityInverted].
  split; [reflexivity | ].
  assert (Fx : forall g : Z,
             Math_floor ((inject_Z g * GRID.UNIT_SIZE + GRID.UNIT_SIZE / 2)
                         / GRID.UNIT_SIZE) = inject_Z g).
  { intro g. unfold Math_floor. f_equal. apply floor_half.
    unfold GRID.UNIT_SIZE. field. }
  split; [apply Fx | ]. split; [apply Fx | ]. split; [reflexivity | ].
  unfold respawnAtCheckpoint.
  cbn [fst snd CheckpointState.playerX CheckpointState.playerY
       CheckpointState.mode CheckpointState.speed
       CheckpointState.gravityInverted].
  match goal with
  | |- context [Player.respawnAtCheckpoint ?p ?x ?y ?m ?sp ?g] =>
      destruct (PlayerMore.respawn_fields p x y m sp g) as (F1 & F2 & F3 & _)
  end.
  rewrite F1, F2, F3. cbn. repeat split.
Qed.

Lemma checkpoint_round_trip_witness :
  exists c,
    CheckpointManager.getRespawnState
      (handleCheckpointTrigger
         (CheckpointManager.setPracticeMode CheckpointManager.create true)
         (Player.create Player.DEFAULT_CONFIG)
         (PooledCheckpoint.trigger
            (PooledCheckpoint.activate (inject_Z 10) (inject_Z 11) 1
               String.EmptyString))
         5 0) = Some c /\
    CheckpointState.gridX c = inject_Z 10.
Proof.
  destruct (checkpoint_round_trip
              (CheckpointManager.setPracticeMode CheckpointManager.create true)
              (Player.create Player.DEFAULT_CONFIG)
              (Player.create Player.DEFAULT_CONFIG)
              10 11 1 String.EmptyString 5 0 eq_refl)
    as (c & H1 & _ & H2 & _).
  exists c. split; [exact H1 | exact H2].
Defined.

End SceneFacts.
